(** * azurefile: cloud-provider bootstrap and subnet service-endpoint reconciliation

    A shallow embedding of [getCloudProvider], [getKubeClient] and
    [Driver.updateSubnetServiceEndpoints] of package [azurefile], and the
    properties of them that the specification states.

    Go values are modelled as follows.
    - A pointer that the code tests against [nil] is an [option].
    - A pair [(value, error)] returned by a callee is a pair of options: the
      Go type permits every combination, and so does the model.
    - A nil-pointer dereference and a method call on a nil interface are the
      outcome [Panic].
    - Calls that leave the process (the subnets client, the lock map) are
      nodes of a program tree [Prog]; the tree is given a sequential
      semantics ([run]) and an interleaving one ([stepOf], [runSchedule]).

    The definitions come first, the properties after them. *)

From Stdlib Require Import String List Bool Arith Lia.
From stdpp Require Import base gmap strings list.

Set Default Proof Using "Type".
Local Open Scope string_scope.
Local Open Scope list_scope.

(** ** Errors *)

(** The Go [error] values the two functions can see.  [rest.ErrNotInCluster]
    is a sentinel compared by identity; [os.IsNotExist] recognises a class of
    errors; [errors.New] and [fmt.Errorf] (no [%w] verb) build an
    [errorString]. *)
Inductive error : Type :=
| ErrNotInCluster
| ErrNotExist (msg : string)
| errorString (msg : string).

Definition error_eqb (a b : error) : bool :=
  match a, b with
  | ErrNotInCluster, ErrNotInCluster => true
  | ErrNotExist x, ErrNotExist y => String.eqb x y
  | errorString x, errorString y => String.eqb x y
  | _, _ => false
  end.

(** The [Error()] method. *)
Definition Error (e : error) : string :=
  match e with
  | ErrNotInCluster =>
      "unable to load in-cluster configuration, " +:+
      "KUBERNETES_SERVICE_HOST and KUBERNETES_SERVICE_PORT must be defined"
  | ErrNotExist msg => msg
  | errorString msg => msg
  end.

Module os.
Definition IsNotExist (e : option error) : bool :=
  match e with
  | Some (ErrNotExist _) => true
  | _ => false
  end.
End os.

Module fmt.
(** [fmt.Errorf] once the format string has been expanded to [msg]. *)
Definition Errorf (msg : string) : error := errorString msg.

(** What the verb [%v] prints for an [error]. *)
Definition v (err : option error) : string :=
  match err with
  | Some e => Error e
  | None => "<nil>"
  end.
End fmt.

(** ** The network SDK types the code touches *)

Module network.

(** [network.ServiceEndpointPropertiesFormat]. *)
Record ServiceEndpointPropertiesFormat : Type := mkServiceEndpoint {
  Service : option string;
  Locations : option (list string);
  ProvisioningState : string;
}.

(** [network.SubnetPropertiesFormat]; of the fields the function does not
    read, [AddressPrefix] stands for the rest. *)
Record SubnetPropertiesFormat : Type := mkSubnetProperties {
  AddressPrefix : option string;
  ServiceEndpoints : option (list ServiceEndpointPropertiesFormat);
}.

(** [network.Subnet]; the properties are held through a pointer. *)
Record Subnet : Type := mkSubnet {
  Subnet_SubnetPropertiesFormat : option SubnetPropertiesFormat;
  Name : option string;
  Etag : option string;
  ID : option string;
}.

(** [&network.SubnetPropertiesFormat{}]: every field at its zero value. *)
Definition emptySubnetPropertiesFormat : SubnetPropertiesFormat :=
  {| AddressPrefix := None; ServiceEndpoints := None |}.

(** [subnet.SubnetPropertiesFormat = p]. *)
Definition set_SubnetPropertiesFormat (subnet : Subnet)
    (p : option SubnetPropertiesFormat) : Subnet :=
  {| Subnet_SubnetPropertiesFormat := p;
     Name := Name subnet; Etag := Etag subnet; ID := ID subnet |}.

(** [p.ServiceEndpoints = eps]. *)
Definition set_ServiceEndpoints (p : SubnetPropertiesFormat)
    (eps : option (list ServiceEndpointPropertiesFormat)) : SubnetPropertiesFormat :=
  {| AddressPrefix := AddressPrefix p; ServiceEndpoints := eps |}.

End network.

(** ** Constants of the package *)

Definition DefaultAzureCredentialFileEnv : string := "AZURE_CREDENTIAL_FILE".
Definition DefaultCredFilePathLinux : string := "/etc/kubernetes/azure.json".
Definition DefaultCredFilePathWindows : string := "C:\k\azure.json".

Definition storageService : string := "Microsoft.Storage".

(** ** The cloud provider object *)

(** [azureprovider.InitSecretConfig]. *)
Record InitSecretConfig : Type := mkInitSecretConfig {
  SecretName : string;
  SecretNamespace : string;
  CloudConfigKey : string;
}.

(** The fields of [azureprovider.Config] (and of the auth config embedded
    in it) that the two functions read or write. *)
Record Config : Type := mkConfig {
  TenantID : string;
  SubscriptionID : string;
  UserAgent : string;
  ResourceGroup : string;
  Location : string;
  VnetName : string;
  VnetResourceGroup : string;
  SubnetName : string;
  UseInstanceMetadata : bool;
}.

(** [azureprovider.Cloud], over the type of the Kubernetes client set and of
    the subnets client it points to. *)
Record Cloud (Clientset SubnetsClientT : Type) : Type := mkCloud {
  Cloud_Config : Config;
  Cloud_InitSecretConfig : InitSecretConfig;
  KubeClient : option Clientset;
  SubnetsClient : option SubnetsClientT;
}.
Arguments mkCloud {Clientset SubnetsClientT}.
Arguments Cloud_Config {Clientset SubnetsClientT}.
Arguments Cloud_InitSecretConfig {Clientset SubnetsClientT}.
Arguments KubeClient {Clientset SubnetsClientT}.
Arguments SubnetsClient {Clientset SubnetsClientT}.

(** ** Programs: the calls that leave the function *)

Section Program.
(** [retry.Error], the error type of the Azure clients, is declared in a
    vendored package whose source is not at hand; it is a parameter,
    together with what the verb [%v] prints for it. *)
Context {RetryError : Type}.
Variable fmt_v : RetryError → string.

(** A program is the tree of the calls a goroutine makes to the lock map
    and to the subnets client, each with the continuation that receives
    the call's results.  [context.Context] arguments are left out:
    cancellation is not modelled. *)
Inductive Prog (A : Type) : Type :=
| Ret (a : A)
| Panic (msg : string)
| LockEntry (entry : string) (next : Prog A)
| UnlockEntry (entry : string) (next : Prog A)
| SubnetsClient_Get
    (resourceGroupName virtualNetworkName subnetName expand : string)
    (next : network.Subnet * option RetryError → Prog A)
| SubnetsClient_CreateOrUpdate
    (resourceGroupName virtualNetworkName subnetName : string)
    (subnetParameters : network.Subnet)
    (next : option RetryError → Prog A).
Global Arguments Ret {A}.
Global Arguments Panic {A}.
Global Arguments LockEntry {A}.
Global Arguments UnlockEntry {A}.
Global Arguments SubnetsClient_Get {A}.
Global Arguments SubnetsClient_CreateOrUpdate {A}.

(** [defer deferred; body]: the deferred call runs when [body] returns and
    when it panics, before the function hands the result to its caller. *)
Fixpoint defer {A : Type} (deferred : Prog A → Prog A) (body : Prog A) : Prog A :=
  match body with
  | Ret a => deferred (Ret a)
  | Panic msg => deferred (Panic msg)
  | LockEntry entry next => LockEntry entry (defer deferred next)
  | UnlockEntry entry next => UnlockEntry entry (defer deferred next)
  | SubnetsClient_Get rg vnet sn expand next =>
      SubnetsClient_Get rg vnet sn expand (λ r, defer deferred (next r))
  | SubnetsClient_CreateOrUpdate rg vnet sn param next =>
      SubnetsClient_CreateOrUpdate rg vnet sn param (λ r, defer deferred (next r))
  end.

(** [*p]: reading through a pointer panics when the pointer is nil. *)
Definition deref {A B : Type} (p : option A) (k : A → Prog B) : Prog B :=
  match p with
  | Some a => k a
  | None => Panic "invalid memory address or nil pointer dereference"
  end.

(** The [Driver] fields the method reads.  The receiver and its [cloud]
    field are pointers the method dereferences without a test; callers
    hand it a driver whose cloud is set, and the record has no nil.  The
    lock map [subnetLockMap] the driver points to is shared by all
    invocations: its state is part of the world ([held], [p_held]). *)
Record Driver (Clientset SubnetsClientT : Type) : Type := mkDriver {
  cloud : Cloud Clientset SubnetsClientT;
}.
Global Arguments mkDriver {Clientset SubnetsClientT}.
Global Arguments cloud {Clientset SubnetsClientT}.

(** The loop of lines 172-178: [storageServiceExists] becomes true at the
    first element whose [Service] is set and equal to [storageService],
    and the loop stops there. *)
Fixpoint rangeServiceEndpoints
    (serviceEndpoints : list network.ServiceEndpointPropertiesFormat)
    (storageServiceExists : bool) : bool :=
  match serviceEndpoints with
  | [] => storageServiceExists
  | v :: rest =>
      match network.Service v with
      | Some s =>
          if String.eqb s storageService then true
          else rangeServiceEndpoints rest storageServiceExists
      | None => rangeServiceEndpoints rest storageServiceExists
      end
  end.

(** [lockKey := resourceGroup + vnetName + subnetName] with the resource
    group chosen as in lines 141-144. *)
Definition effectiveResourceGroup (c : Config) : string :=
  if (0 <? String.length (VnetResourceGroup c))%nat then VnetResourceGroup c
  else ResourceGroup c.

Definition lockKeyOf (c : Config) : string :=
  effectiveResourceGroup c +:+ VnetName c +:+ SubnetName c.

(** [func (d *Driver) updateSubnetServiceEndpoints(ctx context.Context) error]. *)
Definition updateSubnetServiceEndpoints {Clientset SubnetsClientT : Type}
    (d : Driver Clientset SubnetsClientT) : Prog (option error) :=
  match SubnetsClient (cloud d) with
  | None => Ret (Some (fmt.Errorf "SubnetsClient is nil"))
  | Some _ =>
    let resourceGroup := effectiveResourceGroup (Cloud_Config (cloud d)) in
    let location := Location (Cloud_Config (cloud d)) in
    let vnetName := VnetName (Cloud_Config (cloud d)) in
    let subnetName := SubnetName (Cloud_Config (cloud d)) in
    let lockKey := resourceGroup +:+ vnetName +:+ subnetName in
    LockEntry lockKey (
    defer (UnlockEntry lockKey) (
    SubnetsClient_Get resourceGroup vnetName subnetName "" (λ '(subnet, err),
    match err with
    | Some err =>
        Ret (Some (fmt.Errorf ("failed to get the subnet " +:+ subnetName +:+
                               " under vnet " +:+ vnetName +:+ ": " +:+ fmt_v err)))
    | None =>
      let endpointLocaions := [location] in
      let storageServiceEndpoint :=
        {| network.Service := Some storageService;
           network.Locations := Some endpointLocaions;
           network.ProvisioningState := "" |} in
      let storageServiceExists := false in
      let subnet :=
        match network.Subnet_SubnetPropertiesFormat subnet with
        | None => network.set_SubnetPropertiesFormat subnet
                    (Some network.emptySubnetPropertiesFormat)
        | Some _ => subnet
        end in
      deref (network.Subnet_SubnetPropertiesFormat subnet) (λ props,
      let subnet :=
        match network.ServiceEndpoints props with
        | None => network.set_SubnetPropertiesFormat subnet
                    (Some (network.set_ServiceEndpoints props (Some [])))
        | Some _ => subnet
        end in
      deref (network.Subnet_SubnetPropertiesFormat subnet) (λ props,
      deref (network.ServiceEndpoints props) (λ serviceEndpoints,
      let storageServiceExists :=
        rangeServiceEndpoints serviceEndpoints storageServiceExists in
      if negb storageServiceExists then
        let serviceEndpoints := (serviceEndpoints ++ [storageServiceEndpoint])%list in
        deref (network.Subnet_SubnetPropertiesFormat subnet) (λ props,
        let subnet := network.set_SubnetPropertiesFormat subnet
                        (Some (network.set_ServiceEndpoints props (Some serviceEndpoints))) in
        SubnetsClient_CreateOrUpdate resourceGroup vnetName subnetName subnet (λ err,
        match err with
        | Some err =>
            Ret (Some (fmt.Errorf ("failed to update the subnet " +:+ subnetName +:+
                                   " under vnet " +:+ vnetName +:+ ": " +:+ fmt_v err)))
        | None => Ret None
        end))
      else Ret None)))
    end)))
  end.

End Program.

(** ** The subnets client and the lock map *)

Module subnetclient.
(** The two methods of the subnets client interface that the driver
    calls.  [R] is the state of the remote API; a call may change it and
    answers from it. *)
Record Interface (R RetryError : Type) : Type := mkInterface {
  Get : R → string → string → string → string →
        R * (network.Subnet * option RetryError);
  CreateOrUpdate : R → string → string → string → network.Subnet →
        R * option RetryError;
}.
Arguments mkInterface {R RetryError}.
Arguments Get {R RetryError}.
Arguments CreateOrUpdate {R RetryError}.
End subnetclient.

Module lockMap.
(** Modelled from the spec: the named lock [subnetLockMap] of the driver,
    whose declaration and methods are not in the source at hand.  The
    specification describes it as a mutual-exclusion primitive keyed by a
    string: an entry is held by at most one caller, [LockEntry] waits
    while the entry is held, [UnlockEntry] releases it.  The state is the
    set of entries that are held. *)
Definition t : Type := gset string.

(** [None]: the entry is held, the caller has to wait. *)
Definition LockEntry (lm : t) (entry : string) : option t :=
  if decide (entry ∈ lm) then None else Some ({[entry]} ∪ lm).

Definition UnlockEntry (lm : t) (entry : string) : t := lm ∖ {[entry]}.
End lockMap.

(** What an observer of the process sees, in the order it happens. *)
Inductive Event : Type :=
| EvLockEntry (entry : string)
| EvUnlockEntry (entry : string)
| EvGet (resourceGroupName virtualNetworkName subnetName expand : string)
| EvCreateOrUpdate (resourceGroupName virtualNetworkName subnetName : string)
    (subnetParameters : network.Subnet).

Definition isRemoteWrite (e : Event) : bool :=
  match e with EvCreateOrUpdate _ _ _ _ => true | _ => false end.

Definition isRemoteCall (e : Event) : bool :=
  match e with EvGet _ _ _ _ | EvCreateOrUpdate _ _ _ _ => true | _ => false end.

Section Sequential.
Context {RetryError R : Type}.
Variable fmt_v : RetryError → string.

(** The remote state, the lock map and the events so far. *)
Record World : Type := mkWorld {
  remote : R;
  held : lockMap.t;
  trace : list Event;
}.

Inductive Outcome (A : Type) : Type :=
| Returned (w : World) (a : A)
| Panicked (w : World) (msg : string)
| Blocked (w : World).
Global Arguments Returned {A}.
Global Arguments Panicked {A}.
Global Arguments Blocked {A}.

Definition record (w : World) (r : R) (h : lockMap.t) (e : Event) : World :=
  {| remote := r; held := h; trace := trace w ++ [e] |}.

(** One goroutine running alone.  A method call on a nil client panics. *)
Fixpoint run {A : Type} (client : option (subnetclient.Interface R RetryError))
    (p : Prog (RetryError := RetryError) A) (w : World) : Outcome A :=
  match p with
  | Ret a => Returned w a
  | Panic msg => Panicked w msg
  | LockEntry entry next =>
      match lockMap.LockEntry (held w) entry with
      | None => Blocked w
      | Some h => run client next (record w (remote w) h (EvLockEntry entry))
      end
  | UnlockEntry entry next =>
      run client next
        (record w (remote w) (lockMap.UnlockEntry (held w) entry) (EvUnlockEntry entry))
  | SubnetsClient_Get rg vnet sn expand next =>
      match client with
      | None => Panicked w "invalid memory address or nil pointer dereference"
      | Some c =>
          let '(r, res) := subnetclient.Get c (remote w) rg vnet sn expand in
          run client (next res) (record w r (held w) (EvGet rg vnet sn expand))
      end
  | SubnetsClient_CreateOrUpdate rg vnet sn param next =>
      match client with
      | None => Panicked w "invalid memory address or nil pointer dereference"
      | Some c =>
          let '(r, res) := subnetclient.CreateOrUpdate c (remote w) rg vnet sn param in
          run client (next res) (record w r (held w) (EvCreateOrUpdate rg vnet sn param))
      end
  end.

(** [d.updateSubnetServiceEndpoints(ctx)] called in world [w]. *)
Definition exec {Clientset : Type}
    (d : Driver Clientset (subnetclient.Interface R RetryError)) (w : World)
    : Outcome (option error) :=
  run (SubnetsClient (cloud d)) (updateSubnetServiceEndpoints fmt_v d) w.

End Sequential.
Arguments World : clear implicits.
Arguments Outcome : clear implicits.

(** ** A remote API held in memory *)

Module memclient.
(** Subnets by (resource group, virtual network, subnet); when [readonly]
    is set the API refuses writes.  Errors are Go errors and [%v] prints
    their message. *)
Record Remote : Type := mkRemote {
  subnets : gmap (string * string * string) network.Subnet;
  readonly : bool;
}.

Definition zeroSubnet : network.Subnet :=
  {| network.Subnet_SubnetPropertiesFormat := None;
     network.Name := None; network.Etag := None; network.ID := None |}.

Definition Get (r : Remote) (rg vnet sn expand : string)
    : Remote * (network.Subnet * option error) :=
  match subnets r !! (rg, vnet, sn) with
  | Some s => (r, (s, None))
  | None => (r, (zeroSubnet, Some (errorString "ResourceNotFound")))
  end.

Definition CreateOrUpdate (r : Remote) (rg vnet sn : string) (s : network.Subnet)
    : Remote * option error :=
  if readonly r then (r, Some (errorString "AuthorizationFailed"))
  else ({| subnets := <[(rg, vnet, sn) := s]> (subnets r); readonly := readonly r |}, None).

Definition client : subnetclient.Interface Remote error :=
  subnetclient.mkInterface Get CreateOrUpdate.
End memclient.

(** ** The bootstrap: [getKubeClient] and [getCloudProvider] *)

(** [x != nil] *)
Definition isSome {A : Type} (x : option A) : bool :=
  match x with
  | Some _ => true
  | None => false
  end.

(** How a Go function body ends. *)
Inductive GoResult (A : Type) : Type :=
| Returns (a : A)
| Panics (msg : string).
Arguments Returns {A}.
Arguments Panics {A}.

Section CloudProvider.
Context {Clientset SubnetsClientT RestConfig File : Type}.
Abbreviation CloudT := (Cloud Clientset SubnetsClientT).

(** What [getCloudProvider] calls outside the package: the Kubernetes
    client libraries, the operating system, and the cloud provider
    library.  [InitializeCloudFromSecret] is a method that fills in its
    receiver; it is given the receiver and gives back its new contents. *)
Record Env : Type := mkEnv {
  clientcmd_BuildConfigFromFlags : string → string → option RestConfig * option error;
  rest_InClusterConfig : option RestConfig * option error;
  kubernetes_NewForConfig : option RestConfig → option Clientset * option error;
  InitializeCloudFromSecret : CloudT → CloudT * option error;
  os_LookupEnv : string → string * bool;
  runtime_GOOS : string;
  os_Open : string → File * option error;
  NewCloudWithoutFeatureGates : File → bool → option CloudT * option error;
}.

(** [func getKubeClient(kubeconfig string)], returning a client set pointer
    and an error. *)
Definition getKubeClient (env : Env) (kubeconfig : string)
    : option Clientset * option error :=
  if negb (String.eqb kubeconfig "") then
    let '(config, err) := clientcmd_BuildConfigFromFlags env "" kubeconfig in
    match err with
    | Some e => (None, Some e)
    | None => kubernetes_NewForConfig env config
    end
  else
    let '(config, err) := rest_InClusterConfig env in
    match err with
    | Some e => (None, Some e)
    | None => kubernetes_NewForConfig env config
    end.

(** [err == rest.ErrNotInCluster] *)
Definition isErrNotInCluster (err : option error) : bool :=
  match err with
  | Some ErrNotInCluster => true
  | _ => false
  end.

Definition zeroConfig : Config :=
  {| TenantID := ""; SubscriptionID := ""; UserAgent := ""; ResourceGroup := "";
     Location := ""; VnetName := ""; VnetResourceGroup := ""; SubnetName := "";
     UseInstanceMetadata := false |}.

Definition set_UserAgent (c : Config) (userAgent : string) : Config :=
  {| TenantID := TenantID c; SubscriptionID := SubscriptionID c;
     UserAgent := userAgent; ResourceGroup := ResourceGroup c;
     Location := Location c; VnetName := VnetName c;
     VnetResourceGroup := VnetResourceGroup c; SubnetName := SubnetName c;
     UseInstanceMetadata := UseInstanceMetadata c |}.

Definition set_UseInstanceMetadata (c : Config) (b : bool) : Config :=
  {| TenantID := TenantID c; SubscriptionID := SubscriptionID c;
     UserAgent := UserAgent c; ResourceGroup := ResourceGroup c;
     Location := Location c; VnetName := VnetName c;
     VnetResourceGroup := VnetResourceGroup c; SubnetName := SubnetName c;
     UseInstanceMetadata := b |}.

Definition set_Config (az : CloudT) (c : Config) : CloudT :=
  {| Cloud_Config := c; Cloud_InitSecretConfig := Cloud_InitSecretConfig az;
     KubeClient := KubeClient az; SubnetsClient := SubnetsClient az |}.

Definition set_KubeClient (az : CloudT) (k : option Clientset) : CloudT :=
  {| Cloud_Config := Cloud_Config az; Cloud_InitSecretConfig := Cloud_InitSecretConfig az;
     KubeClient := k; SubnetsClient := SubnetsClient az |}.

(** The condition of line 69. *)
Definition configIncomplete (az : CloudT) : bool :=
  String.eqb (TenantID (Cloud_Config az)) "" ||
  String.eqb (SubscriptionID (Cloud_Config az)) "" ||
  String.eqb (ResourceGroup (Cloud_Config az)) "".

(** [getCloudProvider] is one function body; it is embedded as the
    sequence of its three parts, each handing the variables [az], [err]
    and [kubeClient] to the next. *)

(** Where lines 47-67 leave the function: at the return statement of line
    57, or at line 69. *)
Inductive SecretStage : Type :=
| KubeClientFailed (az : CloudT) (err : error)
| SecretRead (kubeClient : option Clientset) (az : CloudT) (err : option error).

(** Lines 47-67: build the client and read the configuration from the
    secret. *)
Definition readCloudConfigFromSecret (env : Env)
    (kubeconfig secretName secretNamespace userAgent : string) : SecretStage :=
  let az : CloudT :=
    {| Cloud_Config := zeroConfig;
       Cloud_InitSecretConfig :=
         {| SecretName := secretName; SecretNamespace := secretNamespace;
            CloudConfigKey := "cloud-config" |};
       KubeClient := None; SubnetsClient := None |} in
  let az := set_Config az (set_UserAgent (Cloud_Config az) userAgent) in
  let '(kubeClient, err) := getKubeClient env kubeconfig in
  if isSome err && negb (os.IsNotExist err) && negb (isErrNotInCluster err) then
    KubeClientFailed az (fmt.Errorf ("failed to get KubeClient: " +:+ fmt.v err))
  else
    match kubeClient with
    | Some _ =>
        let '(az, err) := InitializeCloudFromSecret env (set_KubeClient az kubeClient) in
        SecretRead kubeClient az err
    | None => SecretRead kubeClient az err
    end.

(** Lines 69-91: when the configuration is incomplete, read it from the
    credential file.  The first component lists the paths given to
    [os.Open].  [defer config.Close()] has no effect on the results and
    is left out. *)
Definition readCloudConfigFromFile (env : Env) (az : CloudT) (err : option error)
    : list string * (option CloudT * option error) :=
  if configIncomplete az then
    let '(credFile, ok) := os_LookupEnv env DefaultAzureCredentialFileEnv in
    let credFile :=
      if ok then credFile
      else if String.eqb (runtime_GOOS env) "windows" then DefaultCredFilePathWindows
      else DefaultCredFilePathLinux in
    let '(config, errOpenFile) := os_Open env credFile in
    if isSome errOpenFile then
      ([credFile],
       (Some az,
        Some (fmt.Errorf ("load azure config from file(" +:+ credFile +:+
                          ") failed with " +:+ fmt.v errOpenFile))))
    else ([credFile], NewCloudWithoutFeatureGates env config false)
  else ([], (Some az, err)).

(** Where lines 47-100 leave the function: at the return statement of
    line 57, in a panic, or at line 102. *)
Inductive Loaded : Type :=
| ReturnedEarly (az : option CloudT) (err : option error)
| LoadPanicked (msg : string)
| Proceeds (az : option CloudT) (err : option error).

(** Lines 47-100; lines 93-96 reassign the client. *)
Definition loadCloudConfig (env : Env)
    (kubeconfig secretName secretNamespace userAgent : string)
    : list string * Loaded :=
  match readCloudConfigFromSecret env kubeconfig secretName secretNamespace userAgent with
  | KubeClientFailed az err => ([], ReturnedEarly (Some az) (Some err))
  | SecretRead kubeClient az err =>
      let '(opened, (az, err)) := readCloudConfigFromFile env az err in
      match kubeClient with
      | Some _ =>
          match az with
          | None => (opened, LoadPanicked "invalid memory address or nil pointer dereference")
          | Some a =>
              match KubeClient a with
              | None => (opened, Proceeds (Some (set_KubeClient a kubeClient)) err)
              | Some _ => (opened, Proceeds az err)
              end
          end
      | None => (opened, Proceeds az err)
      end
  end.

(** [func getCloudProvider(kubeconfig, nodeID, secretName, secretNamespace,
    userAgent string)], returning a cloud pointer and an error: lines
    102-115 after [loadCloudConfig]. *)
Definition getCloudProvider (env : Env)
    (kubeconfig nodeID secretName secretNamespace userAgent : string)
    : list string * GoResult (option CloudT * option error) :=
  let '(opened, loaded) :=
    loadCloudConfig env kubeconfig secretName secretNamespace userAgent in
  match loaded with
  | ReturnedEarly az err => (opened, Returns (az, err))
  | LoadPanicked msg => (opened, Panics msg)
  | Proceeds az err =>
      let isController := String.eqb nodeID "" in
      if isController then
        match err with
        | None =>
            match az with
            | None => (opened, Panics "invalid memory address or nil pointer dereference")
            | Some a =>
                (opened,
                 Returns (Some (set_Config a (set_UseInstanceMetadata (Cloud_Config a) false)),
                          None))
            end
        | Some _ => (opened, Returns (az, None))
        end
      else (opened, Returns (az, None))
  end.

End CloudProvider.
Arguments Env : clear implicits.
Arguments SecretStage : clear implicits.
Arguments Loaded : clear implicits.

(** ** Concurrent invocations *)

Section Concurrent.
Context {RetryError R : Type}.
Variable fmt_v : RetryError → string.

(** A goroutine inside [updateSubnetServiceEndpoints]: the client its
    driver points to and what it has left to run. *)
Record Goroutine : Type := mkGoroutine {
  g_client : option (subnetclient.Interface R RetryError);
  g_prog : Prog (RetryError := RetryError) (option error);
}.

(** Goroutines that share the remote API and the lock map; the trace
    tags each event with the index of the goroutine that caused it. *)
Record Pool : Type := mkPool {
  p_remote : R;
  p_held : lockMap.t;
  p_goroutines : list Goroutine;
  p_trace : list (nat * Event);
}.

Definition advance (P : Pool) (i : nat) (g : Goroutine)
    (r : R) (h : lockMap.t) (e : Event) (next : Prog (option error)) : Pool :=
  {| p_remote := r; p_held := h;
     p_goroutines := <[i := mkGoroutine (g_client g) next]> (p_goroutines P);
     p_trace := p_trace P ++ [(i, e)] |}.

(** Goroutine [i] makes its next call.  [None]: there is no such
    goroutine, it has finished, or it waits for a held entry. *)
Definition stepOf (i : nat) (P : Pool) : option Pool :=
  match p_goroutines P !! i with
  | None => None
  | Some g =>
      match g_prog g with
      | Ret _ | Panic _ => None
      | LockEntry entry next =>
          match lockMap.LockEntry (p_held P) entry with
          | None => None
          | Some h => Some (advance P i g (p_remote P) h (EvLockEntry entry) next)
          end
      | UnlockEntry entry next =>
          Some (advance P i g (p_remote P) (lockMap.UnlockEntry (p_held P) entry)
                  (EvUnlockEntry entry) next)
      | SubnetsClient_Get rg vnet sn expand next =>
          match g_client g with
          | None =>
              Some (advance P i g (p_remote P) (p_held P) (EvGet rg vnet sn expand)
                      (Panic "invalid memory address or nil pointer dereference"))
          | Some c =>
              let '(r, res) := subnetclient.Get c (p_remote P) rg vnet sn expand in
              Some (advance P i g r (p_held P) (EvGet rg vnet sn expand) (next res))
          end
      | SubnetsClient_CreateOrUpdate rg vnet sn param next =>
          match g_client g with
          | None =>
              Some (advance P i g (p_remote P) (p_held P) (EvCreateOrUpdate rg vnet sn param)
                      (Panic "invalid memory address or nil pointer dereference"))
          | Some c =>
              let '(r, res) := subnetclient.CreateOrUpdate c (p_remote P) rg vnet sn param in
              Some (advance P i g r (p_held P) (EvCreateOrUpdate rg vnet sn param) (next res))
          end
      end
  end.

(** The scheduler picks goroutines in the order [sched]. *)
Fixpoint runSchedule (sched : list nat) (P : Pool) : option Pool :=
  match sched with
  | [] => Some P
  | i :: rest =>
      match stepOf i P with
      | None => None
      | Some P' => runSchedule rest P'
      end
  end.

(** One invocation per driver of [ds], none of which has started, on a
    lock map with no entry held. *)
Definition spawn {Clientset : Type}
    (ds : list (Driver Clientset (subnetclient.Interface R RetryError))) (r : R) : Pool :=
  {| p_remote := r; p_held := ∅;
     p_goroutines :=
       (λ d, mkGoroutine (SubnetsClient (cloud d)) (updateSubnetServiceEndpoints fmt_v d))
         <$> ds;
     p_trace := [] |}.

(** The events of goroutine [i], in order. *)
Definition eventsOf (i : nat) (t : list (nat * Event)) : list Event :=
  map snd (filter (λ ev, fst ev = i) t).

(** The entry a goroutine holds after its events [evs]: that of its last
    [LockEntry], unless an [UnlockEntry] followed. *)
Definition heldAfter (entry : option string) (e : Event) : option string :=
  match e with
  | EvLockEntry entry' => Some entry'
  | EvUnlockEntry _ => None
  | _ => entry
  end.

Definition holdsEntry (t : list (nat * Event)) (i : nat) : option string :=
  fold_left heldAfter (eventsOf i t) None.

(** What is left of a critical section on [entry]: remote calls only, and
    [UnlockEntry entry] as the last call on every path. *)
Inductive Inside (entry : string) : Prog (RetryError := RetryError) (option error) → Prop :=
| Inside_unlock_ret a : Inside entry (UnlockEntry entry (Ret a))
| Inside_unlock_panic msg : Inside entry (UnlockEntry entry (Panic msg))
| Inside_get rg vnet sn expand next :
    (∀ res, Inside entry (next res)) →
    Inside entry (SubnetsClient_Get rg vnet sn expand next)
| Inside_createOrUpdate rg vnet sn param next :
    (∀ res, Inside entry (next res)) →
    Inside entry (SubnetsClient_CreateOrUpdate rg vnet sn param next).

Definition finished (p : Prog (RetryError := RetryError) (option error)) : Prop :=
  match p with
  | Ret _ | Panic _ => True
  | _ => False
  end.

(** Where an invocation on driver [d] stands when [evs] are its events so
    far and [p] is what it has left to run. *)
Inductive Phase {Clientset : Type}
    (d : Driver Clientset (subnetclient.Interface R RetryError))
    (evs : list Event) (p : Prog (RetryError := RetryError) (option error)) : Prop :=
| NotStarted :
    p = updateSubnetServiceEndpoints fmt_v d → evs = [] → Phase d evs p
| InCriticalSection calls :
    is_Some (SubnetsClient (cloud d)) →
    Inside (lockKeyOf (Cloud_Config (cloud d))) p →
    evs = EvLockEntry (lockKeyOf (Cloud_Config (cloud d))) :: calls →
    forallb isRemoteCall calls = true →
    Phase d evs p
| Finished calls :
    finished p →
    evs = EvLockEntry (lockKeyOf (Cloud_Config (cloud d))) :: calls ++
          [EvUnlockEntry (lockKeyOf (Cloud_Config (cloud d)))] →
    forallb isRemoteCall calls = true →
    Phase d evs p.

(** The events [t] of a pool of invocations on the drivers [ds] are
    serialized: a remote call is made by an invocation that holds its own
    entry, and at no event of an invocation does another invocation with
    the same lock key hold the entry. *)
Definition Serialized {Clientset : Type}
    (ds : list (Driver Clientset (subnetclient.Interface R RetryError)))
    (t : list (nat * Event)) : Prop :=
  ∀ t1 j e t2 dj,
    t = t1 ++ (j, e) :: t2 → ds !! j = Some dj →
    (isRemoteCall e = true →
     holdsEntry t1 j = Some (lockKeyOf (Cloud_Config (cloud dj)))) ∧
    (∀ i di, i ≠ j → ds !! i = Some di →
       lockKeyOf (Cloud_Config (cloud di)) = lockKeyOf (Cloud_Config (cloud dj)) →
       holdsEntry t1 i = None).

(** What holds of every pool reached from [spawn ds r]. *)
Record PoolInvariant {Clientset : Type}
    (ds : list (Driver Clientset (subnetclient.Interface R RetryError)))
    (P : Pool) : Prop := {
  inv_goroutines : ∀ i d, ds !! i = Some d →
    ∃ g, p_goroutines P !! i = Some g ∧
         g_client g = SubnetsClient (cloud d) ∧
         Phase d (eventsOf i (p_trace P)) (g_prog g);
  inv_strangers : ∀ i, ds !! i = None →
    p_goroutines P !! i = None ∧ eventsOf i (p_trace P) = [];
  inv_held : ∀ entry, entry ∈ p_held P ↔ ∃ i, holdsEntry (p_trace P) i = Some entry;
  inv_exclusive : ∀ i j entry,
    holdsEntry (p_trace P) i = Some entry → holdsEntry (p_trace P) j = Some entry → i = j;
  inv_serialized : Serialized ds (p_trace P);
}.

End Concurrent.
Arguments Goroutine : clear implicits.
Arguments Pool : clear implicits.

(** ** Vocabulary of the properties *)

(** The endpoint list the function works on after lines 165-171: absent
    properties and an absent list both count as the empty list. *)
Definition serviceEndpointsOf (subnet : network.Subnet)
    : list network.ServiceEndpointPropertiesFormat :=
  match network.Subnet_SubnetPropertiesFormat subnet with
  | Some props =>
      match network.ServiceEndpoints props with
      | Some eps => eps
      | None => []
      end
  | None => []
  end.

(** [subnet] with its endpoint list replaced and everything else kept;
    absent properties are the zero properties. *)
Definition withServiceEndpoints (subnet : network.Subnet)
    (eps : list network.ServiceEndpointPropertiesFormat) : network.Subnet :=
  network.set_SubnetPropertiesFormat subnet
    (Some (network.set_ServiceEndpoints
             (default network.emptySubnetPropertiesFormat
                (network.Subnet_SubnetPropertiesFormat subnet))
             (Some eps))).

(** The endpoint of lines 160-163. *)
Definition storageServiceEndpointAt (location : string)
    : network.ServiceEndpointPropertiesFormat :=
  {| network.Service := Some storageService;
     network.Locations := Some [location];
     network.ProvisioningState := "" |}.

(** An endpoint names the storage service. *)
Definition namesStorageService (v : network.ServiceEndpointPropertiesFormat) : bool :=
  match network.Service v with
  | Some s => String.eqb s storageService
  | None => false
  end.

(** Some endpoint of the list names the storage service, whatever its
    locations. *)
Definition storageServicePresent
    (eps : list network.ServiceEndpointPropertiesFormat) : Prop :=
  ∃ v, In v eps ∧ network.Service v = Some storageService.

(** The words of the specification: the storage endpoint "is already
    registered for a given location". *)
Definition spec_registeredForLocation (location : string)
    (eps : list network.ServiceEndpointPropertiesFormat) : Prop :=
  ∃ v locations, In v eps ∧ network.Service v = Some storageService ∧
                 network.Locations v = Some locations ∧ In location locations.

(** The events of one invocation that found the lock free: those in
    [calls] between taking and releasing [entry]. *)
Definition lockedCalls (entry : string) (calls : list Event) : list Event :=
  EvLockEntry entry :: calls ++ [EvUnlockEntry entry].

(** The laws of a remote API that stores what it is given: reading does
    not change it, a write that is refused does not change it, and after a
    write that is accepted the subnet reads back with the endpoints
    written. *)
Record StoresSubnets {R RetryError : Type}
    (c : subnetclient.Interface R RetryError) : Prop := {
  get_readonly : ∀ r rg vnet sn expand,
    fst (subnetclient.Get c r rg vnet sn expand) = r;
  refused_write : ∀ r rg vnet sn s r' e,
    subnetclient.CreateOrUpdate c r rg vnet sn s = (r', Some e) → r' = r;
  read_after_write : ∀ r rg vnet sn s r',
    subnetclient.CreateOrUpdate c r rg vnet sn s = (r', None) →
    ∃ s', subnetclient.Get c r' rg vnet sn "" = (r', (s', None)) ∧
          serviceEndpointsOf s' = serviceEndpointsOf s;
}.

(** The configuration, resource group and lock key of a driver. *)
Abbreviation cfg d := (Cloud_Config (cloud d)).
Abbreviation rgOf d := (effectiveResourceGroup (cfg d)).
Abbreviation keyOf d := (lockKeyOf (cfg d)).

Section Vocabulary.
Context {RetryError R Clientset : Type}.
Variable fmt_v : RetryError → string.
Implicit Types (d : Driver Clientset (subnetclient.Interface R RetryError)).
Implicit Types (w : World R).

(** The world an invocation leaves that found the lock free and made
    the calls [calls], the last of which left the remote state [r]. *)
Definition after d w (r : R) (calls : list Event) : World R :=
  {| remote := r; held := held w;
     trace := trace w ++ lockedCalls (keyOf d) calls |}.

(** The call of line 155. *)
Definition evGet d : Event :=
  EvGet (rgOf d) (VnetName (cfg d)) (SubnetName (cfg d)) "".

(** The subnet the invocation writes when it fetched [subnet]: the
    fetched endpoints followed by the storage endpoint at the driver's
    location. *)
Definition written d (subnet : network.Subnet) : network.Subnet :=
  withServiceEndpoints subnet
    (serviceEndpointsOf subnet ++ [storageServiceEndpointAt (Location (cfg d))]).

(** The call of line 184. *)
Definition evCreateOrUpdate d (subnet : network.Subnet) : Event :=
  EvCreateOrUpdate (rgOf d) (VnetName (cfg d)) (SubnetName (cfg d)) (written d subnet).

(** The errors of lines 157 and 186. *)
Definition getError d (err : RetryError) : error :=
  fmt.Errorf ("failed to get the subnet " +:+ SubnetName (cfg d) +:+
              " under vnet " +:+ VnetName (cfg d) +:+ ": " +:+ fmt_v err).

Definition updateError d (err : RetryError) : error :=
  fmt.Errorf ("failed to update the subnet " +:+ SubnetName (cfg d) +:+
              " under vnet " +:+ VnetName (cfg d) +:+ ": " +:+ fmt_v err).

End Vocabulary.

(** ** Scenarios *)

Module scenario.

Definition config (location : string) : Config :=
  {| TenantID := "tenant"; SubscriptionID := "sub"; UserAgent := "ua";
     ResourceGroup := "rg"; Location := location; VnetName := "vnet";
     VnetResourceGroup := ""; SubnetName := "sn"; UseInstanceMetadata := true |}.

Definition DriverT : Type := Driver unit (subnetclient.Interface memclient.Remote error).

(** A driver in [location] with the client [client]. *)
Definition driver (location : string)
    (client : option (subnetclient.Interface memclient.Remote error)) : DriverT :=
  mkDriver (mkCloud (config location) (mkInitSecretConfig "" "" "cloud-config") None client).

(** The same with another subnet name. *)
Definition driverOn (subnetName : string) : DriverT :=
  mkDriver (mkCloud
    {| TenantID := "tenant"; SubscriptionID := "sub"; UserAgent := "ua";
       ResourceGroup := "rg"; Location := "eastus"; VnetName := "vnet";
       VnetResourceGroup := ""; SubnetName := subnetName; UseInstanceMetadata := true |}
    (mkInitSecretConfig "" "" "cloud-config") None (Some memclient.client)).

Definition subnetWith (props : option network.SubnetPropertiesFormat) : network.Subnet :=
  {| network.Subnet_SubnetPropertiesFormat := props; network.Name := Some "sn";
     network.Etag := None; network.ID := None |}.

Definition endpoint (service location : string) : network.ServiceEndpointPropertiesFormat :=
  {| network.Service := Some service; network.Locations := Some [location];
     network.ProvisioningState := "Succeeded" |}.

(** A remote API that holds subnet [rg/vnet/sn] with contents [s]. *)
Definition remoteWith (s : network.Subnet) (readonly : bool) : memclient.Remote :=
  memclient.mkRemote {[ ("rg", "vnet", "sn") := s ]} readonly.

Definition world (r : memclient.Remote) : World memclient.Remote :=
  mkWorld r ∅ [].

(** The subnet has no properties at all. *)
Definition bareSubnet : network.Subnet := subnetWith None.

(** The subnet has the storage endpoint, registered for westus only. *)
Definition westusSubnet : network.Subnet :=
  subnetWith (Some {| network.AddressPrefix := Some "10.0.0.0/24";
                      network.ServiceEndpoints := Some [endpoint storageService "westus"] |}).

(** The driver of the scenarios: in eastus, on subnet [rg/vnet/sn]. *)
Definition eastusDriver : DriverT := driver "eastus" (Some memclient.client).

(** Its client is nil. *)
Definition nilClientDriver : DriverT := driver "eastus" None.

(** Worlds with no entry locked: the subnet has no properties; the
    subnet has the storage endpoint of westus; there is no such subnet;
    the subnet has no properties and the API refuses writes. *)
Definition bareWorld : World memclient.Remote := world (remoteWith bareSubnet false).
Definition westusWorld : World memclient.Remote := world (remoteWith westusSubnet false).
Definition emptyWorld : World memclient.Remote := world (memclient.mkRemote ∅ false).
Definition readonlyWorld : World memclient.Remote := world (remoteWith bareSubnet true).

End scenario.

(** ** Scenarios of the bootstrap *)

Module bootstrap.

(** The client set, the subnets client and the REST configuration carry
    no data here; a file is its contents. *)
Definition CloudT : Type := Cloud unit unit.
Definition EnvT : Type := Env unit unit unit string.

(** The cloud a well-formed credential file describes. *)
Definition fileCloud : CloudT :=
  mkCloud (scenario.config "eastus") (mkInitSecretConfig "" "" "") None None.

Definition wellFormed : string := "{tenantId: tenant, subscriptionId: sub}".

(** Parsing in the manner of the cloud provider library: no cloud and
    an error when the contents are not well formed. *)
Definition parse (contents : string) : option CloudT * option error :=
  if String.eqb contents wellFormed then (Some fileCloud, None)
  else (None, Some (errorString "invalid character 'o' in literal null (expecting 'u')")).

(** A file system with the one file [path]. *)
Definition onlyFile (path contents p : string) : string * option error :=
  if String.eqb p path then (contents, None)
  else ("", Some (ErrNotExist ("open " +:+ p +:+ ": no such file or directory"))).

(** A process with ([inCluster]) or without the in-cluster configuration;
    the secret cannot be read; [AZURE_CREDENTIAL_FILE] is as [envFile]
    says; the cloud provider library parses with [parser]. *)
Definition env (inCluster : bool) (goos : string) (envFile : string * bool)
    (files : string → string * option error)
    (parser : string → option CloudT * option error) : EnvT :=
  {| clientcmd_BuildConfigFromFlags :=
       λ _ _, (None, Some (errorString "invalid configuration"));
     rest_InClusterConfig :=
       if inCluster then (Some tt, None) else (None, Some ErrNotInCluster);
     kubernetes_NewForConfig := λ _, (Some tt, None);
     InitializeCloudFromSecret := λ az, (az, Some (errorString "secrets not found"));
     os_LookupEnv :=
       λ name, if String.eqb name "AZURE_CREDENTIAL_FILE" then envFile else ("", false);
     runtime_GOOS := goos;
     os_Open := files;
     NewCloudWithoutFeatureGates := λ config _, parser config |}.

(** Linux, outside a cluster, a well-formed default credential file. *)
Definition goodFile : EnvT :=
  env false "linux" ("", false) (onlyFile "/etc/kubernetes/azure.json" wellFormed) parse.

(** The same with a credential file that does not parse. *)
Definition badFile : EnvT :=
  env false "linux" ("", false) (onlyFile "/etc/kubernetes/azure.json" "not json") parse.

(** The same inside a cluster. *)
Definition badFileInCluster : EnvT :=
  env true "linux" ("", false) (onlyFile "/etc/kubernetes/azure.json" "not json") parse.

(** Windows, the variable names a file. *)
Definition windowsEnvFile : EnvT :=
  env false "windows" ("D:\azure.json", true) (onlyFile "D:\azure.json" wellFormed) parse.

(** Inside a cluster, with a library that makes a cloud of any file. *)
Definition lenient : EnvT :=
  env true "linux" ("", false) (onlyFile "/etc/kubernetes/azure.json" "not json")
    (λ _, (Some fileCloud, Some (errorString "invalid character"))).

End bootstrap.

(** ** Scenarios of concurrent invocations *)

Module concurrent.

(** Two invocations on the same subnet, and two on different subnets, of
    a remote API where subnet [rg/vnet/sn] has no properties. *)
Definition sameKey : Pool error memclient.Remote :=
  spawn Error [scenario.eastusDriver; scenario.eastusDriver]
    (scenario.remoteWith scenario.bareSubnet false).

Definition distinctKeys : Pool error memclient.Remote :=
  spawn Error [scenario.driverOn "sn"; scenario.driverOn "sn2"]
    (scenario.remoteWith scenario.bareSubnet false).

(** The first invocation runs to its end, then the second. *)
Definition oneAfterTheOther : list nat := [0; 0; 0; 0; 1; 1; 1].

(** The two take turns. *)
Definition takingTurns : list nat := [0; 1; 0; 1; 0; 1; 0].

End concurrent.

(** A pool and a world show the same remote state, lock map and events. *)
Definition shows {RetryError R : Type} (P : Pool RetryError R) (w : World R) : Prop :=
  p_remote P = remote w ∧ p_held P = held w ∧ map snd (p_trace P) = trace w.

(** ** Scenarios of subnets by name *)

Module cases.

(** A driver in eastus on subnet [sn] of virtual network [vnet] in resource
    group [rg], with the in-memory client. *)
Definition driverAt (rg vnet sn : string) : scenario.DriverT :=
  mkDriver (mkCloud
    {| TenantID := "tenant"; SubscriptionID := "sub"; UserAgent := "ua";
       ResourceGroup := rg; Location := "eastus"; VnetName := vnet;
       VnetResourceGroup := ""; SubnetName := sn; UseInstanceMetadata := true |}
    (mkInitSecretConfig "" "" "cloud-config") None (Some memclient.client)).

End cases.

(** ** More scenarios of the bootstrap *)

Module startup.

(** The cloud the secret describes: the one of the credential file, with
    the fields [getCloudProvider] had set before. *)
Definition fromSecret (az : bootstrap.CloudT) : bootstrap.CloudT :=
  mkCloud
    {| TenantID := "tenant"; SubscriptionID := "sub";
       UserAgent := UserAgent (Cloud_Config az);
       ResourceGroup := "rg"; Location := "eastus"; VnetName := "vnet";
       VnetResourceGroup := ""; SubnetName := "sn"; UseInstanceMetadata := true |}
    (Cloud_InitSecretConfig az) None (SubnetsClient az).

(** Inside a cluster, the secret is read without error and is complete;
    no file can be opened.  The library clears the client of the cloud it
    fills in. *)
Definition secret : bootstrap.EnvT :=
  {| clientcmd_BuildConfigFromFlags :=
       λ _ _, (None, Some (errorString "invalid configuration"));
     rest_InClusterConfig := (Some tt, None);
     kubernetes_NewForConfig := λ _, (Some tt, None);
     InitializeCloudFromSecret := λ az, (fromSecret az, None);
     os_LookupEnv := λ _, ("", false);
     runtime_GOOS := "linux";
     os_Open := λ p, ("", Some (ErrNotExist ("open " +:+ p +:+ ": no such file or directory")));
     NewCloudWithoutFeatureGates := λ config _, bootstrap.parse config |}.


End startup.

(** A program with no panic in it. *)
Inductive PanicFree {RetryError : Type}
    : Prog (RetryError := RetryError) (option error) → Prop :=
| PanicFree_ret a : PanicFree (Ret a)
| PanicFree_lock entry next : PanicFree next → PanicFree (LockEntry entry next)
| PanicFree_unlock entry next : PanicFree next → PanicFree (UnlockEntry entry next)
| PanicFree_get rg vnet sn expand next :
    (∀ res, PanicFree (next res)) →
    PanicFree (SubnetsClient_Get rg vnet sn expand next)
| PanicFree_createOrUpdate rg vnet sn param next :
    (∀ res, PanicFree (next res)) →
    PanicFree (SubnetsClient_CreateOrUpdate rg vnet sn param next).

(** ** Invocations one after the other *)

Section InOrder.
Context {RetryError R Clientset : Type}.
Variable fmt_v : RetryError → string.
Implicit Types (ds : list (Driver Clientset (subnetclient.Interface R RetryError))).
Implicit Types (P : Pool RetryError R) (w : World R).

(** The invocations [order] of the drivers [ds], each called when the one
    before has returned: the world they leave and what each returned.
    [None]: one of them is not in [ds], or did not return. *)
Fixpoint execInOrder ds (order : list nat) w
    : option (World R * list (nat * option error)) :=
  match order with
  | [] => Some (w, [])
  | i :: rest =>
      match ds !! i with
      | None => None
      | Some d =>
          match exec fmt_v d w with
          | Returned w' a =>
              match execInOrder ds rest w' with
              | Some (w'', results) => Some (w'', (i, a) :: results)
              | None => None
              end
          | _ => None
          end
      end
  end.

(** Whose turn it is in a pool of invocations on one lock key, when the
    invocations [order] have returned and, called one after the other,
    would have left the world [w].  Nobody's: the pool shows [w].  That of
    invocation [i]: it is in its critical section, and what it has left to
    run ends as its call in [w] would. *)
Inductive Turn ds P w (order : list nat) : option nat → Prop :=
| Turn_nobody : shows P w → Turn ds P w order None
| Turn_of i d cl p W w' a :
    ds !! i = Some d → i ∉ order →
    p_goroutines P !! i = Some (mkGoroutine (Some cl) p) →
    Inside (keyOf d) p →
    shows P W → keyOf d ∈ held W →
    exec fmt_v d w = Returned w' a →
    run (Some cl) p W = Returned w' a →
    held w' = ∅ →
    Turn ds P w order (Some i).

(** What holds of every pool reached from [spawn ds r] when the drivers
    share one lock key: the invocations that have returned are those of a
    sequential run, the others have not started, but for the one whose
    turn it is. *)
Definition Serial ds (r : R) P : Prop :=
  ∃ order w results active,
    execInOrder ds order (mkWorld r ∅ []) = Some (w, results) ∧
    NoDup order ∧ held w = ∅ ∧
    (∀ i, ds !! i = None → p_goroutines P !! i = None) ∧
    (∀ i a, (i, a) ∈ results →
       ∃ g, p_goroutines P !! i = Some g ∧ g_prog g = Ret a) ∧
    (∀ j dj, ds !! j = Some dj → j ∉ order → active ≠ Some j →
       p_goroutines P !! j =
         Some (mkGoroutine (SubnetsClient (cloud dj))
                 (updateSubnetServiceEndpoints fmt_v dj))) ∧
    Turn ds P w order active.

End InOrder.

(** The subnet of driver [d] reads back from the remote state [r] with an
    endpoint that names the storage service. *)
Definition ensured {RetryError R Clientset : Type}
    (d : Driver Clientset (subnetclient.Interface R RetryError))
    (cl : subnetclient.Interface R RetryError) (r : R) : Prop :=
  ∃ s, subnetclient.Get cl r (rgOf d) (VnetName (cfg d)) (SubnetName (cfg d)) ""
         = (r, (s, None)) ∧
       storageServicePresent (serviceEndpointsOf s).

(** The environment [env] with another [InitializeCloudFromSecret]. *)
Definition set_InitializeCloudFromSecret {Clientset SubnetsClientT RestConfig File : Type}
    (env : Env Clientset SubnetsClientT RestConfig File)
    (f : Cloud Clientset SubnetsClientT → Cloud Clientset SubnetsClientT * option error)
    : Env Clientset SubnetsClientT RestConfig File :=
  {| clientcmd_BuildConfigFromFlags := clientcmd_BuildConfigFromFlags env;
     rest_InClusterConfig := rest_InClusterConfig env;
     kubernetes_NewForConfig := kubernetes_NewForConfig env;
     InitializeCloudFromSecret := f;
     os_LookupEnv := os_LookupEnv env;
     runtime_GOOS := runtime_GOOS env;
     os_Open := os_Open env;
     NewCloudWithoutFeatureGates := NewCloudWithoutFeatureGates env |}.

(** * Properties *)

(** ** The endpoint loop and the lock map *)

Lemma rangeServiceEndpoints_acc eps :
  rangeServiceEndpoints eps true = true.
Proof.
  induction eps as [|v rest IH]; simpl; [reflexivity|].
  destruct (network.Service v) as [s|]; [|exact IH].
  destruct (String.eqb s storageService); [reflexivity|exact IH].
Qed.

Lemma rangeServiceEndpoints_existsb eps :
  rangeServiceEndpoints eps false = existsb namesStorageService eps.
Proof.
  induction eps as [|v rest IH]; simpl; [reflexivity|].
  unfold namesStorageService at 1.
  destruct (network.Service v) as [s|]; simpl; [|exact IH].
  destruct (String.eqb s storageService); simpl; [reflexivity|exact IH].
Qed.

Lemma namesStorageService_spec v :
  namesStorageService v = true ↔ network.Service v = Some storageService.
Proof.
  unfold namesStorageService.
  destruct (network.Service v) as [s|]; [|split; discriminate].
  rewrite String.eqb_eq. split; congruence.
Qed.

Lemma rangeServiceEndpoints_present eps :
  rangeServiceEndpoints eps false = true ↔ storageServicePresent eps.
Proof.
  rewrite rangeServiceEndpoints_existsb, existsb_exists.
  unfold storageServicePresent.
  split; intros (v & Hin & Hv); exists v; split; auto;
    by apply namesStorageService_spec.
Qed.

Lemma rangeServiceEndpoints_absent eps :
  rangeServiceEndpoints eps false = false ↔ ¬ storageServicePresent eps.
Proof.
  rewrite <- rangeServiceEndpoints_present.
  destruct (rangeServiceEndpoints eps false); split; congruence.
Qed.

Lemma UnlockEntry_LockEntry (lm : lockMap.t) entry :
  entry ∉ lm → lockMap.UnlockEntry ({[entry]} ∪ lm) entry = lm.
Proof.
  intros H. unfold lockMap.UnlockEntry. apply set_eq. intros x.
  rewrite elem_of_difference, elem_of_union, !elem_of_singleton.
  split; [intros [[?|?] ?]; done|].
  intros Hx. split; [by right|]. by intros ->.
Qed.

Lemma LockEntry_free (lm : lockMap.t) entry :
  entry ∉ lm → lockMap.LockEntry lm entry = Some ({[entry]} ∪ lm).
Proof. intros H. unfold lockMap.LockEntry. by rewrite decide_False. Qed.

Lemma LockEntry_held (lm : lockMap.t) entry :
  entry ∈ lm → lockMap.LockEntry lm entry = None.
Proof. intros H. unfold lockMap.LockEntry. by rewrite decide_True. Qed.

(** ** One invocation, path by path *)

Section Paths.
Context {RetryError R Clientset : Type}.
Variable fmt_v : RetryError → string.
Implicit Types (d : Driver Clientset (subnetclient.Interface R RetryError)).
Implicit Types (w : World R) (cl : subnetclient.Interface R RetryError).

Lemma exec_nil_client d w :
  SubnetsClient (cloud d) = None →
  exec fmt_v d w = Returned w (Some (fmt.Errorf "SubnetsClient is nil")).
Proof. intros H. unfold exec, updateSubnetServiceEndpoints. by rewrite H. Qed.

Lemma exec_blocked d w cl :
  SubnetsClient (cloud d) = Some cl → keyOf d ∈ held w →
  exec fmt_v d w = Blocked w.
Proof.
  intros H Hk. unfold exec, updateSubnetServiceEndpoints. rewrite H. cbn [run].
  unfold lockKeyOf in Hk. by rewrite (LockEntry_held _ _ Hk).
Qed.

Ltac start_exec H Hk :=
  unfold after; unfold lockKeyOf in Hk |- *;
  unfold exec, updateSubnetServiceEndpoints; rewrite H; cbn [run defer];
  rewrite (LockEntry_free _ _ Hk); cbn [run defer]; unfold record at 1;
  cbn [remote held trace].

Ltac finish_exec Hk :=
  cbn [run defer]; unfold record, lockedCalls; cbn [remote held trace];
  rewrite (UnlockEntry_LockEntry _ _ Hk); cbn [app]; rewrite <- ?app_assoc;
  reflexivity.

Lemma exec_get_failed d w cl r subnet err :
  SubnetsClient (cloud d) = Some cl → keyOf d ∉ held w →
  subnetclient.Get cl (remote w) (rgOf d) (VnetName (cfg d)) (SubnetName (cfg d)) ""
    = (r, (subnet, Some err)) →
  exec fmt_v d w = Returned (after d w r [evGet d]) (Some (getError fmt_v d err)).
Proof.
  intros H Hk Hget. start_exec H Hk. rewrite Hget. finish_exec Hk.
Qed.

Lemma exec_present d w cl r subnet :
  SubnetsClient (cloud d) = Some cl → keyOf d ∉ held w →
  subnetclient.Get cl (remote w) (rgOf d) (VnetName (cfg d)) (SubnetName (cfg d)) ""
    = (r, (subnet, None)) →
  rangeServiceEndpoints (serviceEndpointsOf subnet) false = true →
  exec fmt_v d w = Returned (after d w r [evGet d]) None.
Proof.
  intros H Hk Hget Hex. start_exec H Hk. rewrite Hget.
  destruct subnet as [[[ap [eps|]]|] n e i]; cbn in Hex; try discriminate.
  cbn [network.Subnet_SubnetPropertiesFormat network.ServiceEndpoints deref].
  rewrite Hex. cbn [negb]. finish_exec Hk.
Qed.

Lemma exec_absent d w cl r subnet r' werr :
  SubnetsClient (cloud d) = Some cl → keyOf d ∉ held w →
  subnetclient.Get cl (remote w) (rgOf d) (VnetName (cfg d)) (SubnetName (cfg d)) ""
    = (r, (subnet, None)) →
  rangeServiceEndpoints (serviceEndpointsOf subnet) false = false →
  subnetclient.CreateOrUpdate cl r (rgOf d) (VnetName (cfg d)) (SubnetName (cfg d))
    (written d subnet) = (r', werr) →
  exec fmt_v d w =
    Returned (after d w r' [evGet d; evCreateOrUpdate d subnet])
             (option_map (updateError fmt_v d) werr).
Proof.
  intros H Hk Hget Hex Hput. start_exec H Hk. rewrite Hget.
  unfold evCreateOrUpdate.
  destruct subnet as [[[ap [eps|]]|] n e i];
    cbv [written withServiceEndpoints serviceEndpointsOf storageServiceEndpointAt
         network.set_SubnetPropertiesFormat network.set_ServiceEndpoints
         network.emptySubnetPropertiesFormat default from_option id
         network.Subnet_SubnetPropertiesFormat network.ServiceEndpoints
         network.Name network.Etag network.ID network.AddressPrefix deref]
      in Hex, Hput |- *;
    rewrite ?Hex; cbn [rangeServiceEndpoints negb app] in Hput |- *;
    cbn [run defer]; unfold record; cbn [remote held trace];
    rewrite Hput; destruct werr; finish_exec Hk.
Qed.

End Paths.

(** ** What the invocation writes *)

Lemma serviceEndpointsOf_withServiceEndpoints subnet eps :
  serviceEndpointsOf (withServiceEndpoints subnet eps) = eps.
Proof. reflexivity. Qed.

Lemma filter_namesStorageService_absent eps :
  rangeServiceEndpoints eps false = false → filter namesStorageService eps = [].
Proof.
  rewrite rangeServiceEndpoints_existsb.
  induction eps as [|v rest IH]; [reflexivity|].
  cbn [existsb]. intros H. apply orb_false_iff in H as [Hv Hrest].
  rewrite filter_cons, decide_False; [by apply IH|].
  rewrite Hv. by intros [].
Qed.

Lemma namesStorageService_storageServiceEndpointAt location :
  namesStorageService (storageServiceEndpointAt location) = true.
Proof. reflexivity. Qed.

Section Written.
Context {R RetryError Clientset : Type}.
Implicit Types (d : Driver Clientset (subnetclient.Interface R RetryError)).

Lemma serviceEndpointsOf_written d subnet :
  serviceEndpointsOf (written d subnet) =
  serviceEndpointsOf subnet ++ [storageServiceEndpointAt (Location (cfg d))].
Proof. reflexivity. Qed.

Lemma written_rangeServiceEndpoints d subnet :
  rangeServiceEndpoints (serviceEndpointsOf (written d subnet)) false = true.
Proof.
  rewrite serviceEndpointsOf_written, rangeServiceEndpoints_existsb, existsb_app.
  cbn. by rewrite orb_true_r.
Qed.

Lemma written_once d subnet :
  rangeServiceEndpoints (serviceEndpointsOf subnet) false = false →
  length (filter namesStorageService (serviceEndpointsOf (written d subnet))) = 1.
Proof.
  intros H. rewrite serviceEndpointsOf_written, filter_app.
  by rewrite (filter_namesStorageService_absent _ H).
Qed.
End Written.

(** ** The lock is released on every path; nothing panics *)

Section Claims.
Context {RetryError R Clientset : Type}.
Variable fmt_v : RetryError → string.
Implicit Types (d : Driver Clientset (subnetclient.Interface R RetryError)).
Implicit Types (w : World R) (cl : subnetclient.Interface R RetryError).

(** Every invocation ends in one of five ways, each given by a path
    lemma. *)
Lemma exec_cases d w :
  (SubnetsClient (cloud d) = None ∧
   exec fmt_v d w = Returned w (Some (fmt.Errorf "SubnetsClient is nil")))
  ∨ (is_Some (SubnetsClient (cloud d)) ∧ keyOf d ∈ held w ∧ exec fmt_v d w = Blocked w)
  ∨ (∃ cl r subnet gerr,
       SubnetsClient (cloud d) = Some cl ∧ (keyOf d ∉ held w) ∧
       subnetclient.Get cl (remote w) (rgOf d) (VnetName (cfg d)) (SubnetName (cfg d)) ""
         = (r, (subnet, gerr)) ∧
       ((∃ e, gerr = Some e ∧
              exec fmt_v d w = Returned (after d w r [evGet d]) (Some (getError fmt_v d e)))
        ∨ (gerr = None ∧
           rangeServiceEndpoints (serviceEndpointsOf subnet) false = true ∧
           exec fmt_v d w = Returned (after d w r [evGet d]) None)
        ∨ (gerr = None ∧
           rangeServiceEndpoints (serviceEndpointsOf subnet) false = false ∧
           ∃ r' werr,
             subnetclient.CreateOrUpdate cl r (rgOf d) (VnetName (cfg d))
               (SubnetName (cfg d)) (written d subnet) = (r', werr) ∧
             exec fmt_v d w =
               Returned (after d w r' [evGet d; evCreateOrUpdate d subnet])
                        (option_map (updateError fmt_v d) werr)))).
Proof.
  destruct (SubnetsClient (cloud d)) as [cl|] eqn:Hcl;
    [|left; split; [done|by apply exec_nil_client]].
  right. destruct (decide (keyOf d ∈ held w)) as [Hk|Hk];
    [left; split; [by eexists|split; [done|by eapply exec_blocked]]|].
  right.
  destruct (subnetclient.Get cl (remote w) (rgOf d) (VnetName (cfg d))
              (SubnetName (cfg d)) "") as [r [subnet gerr]] eqn:Hget.
  exists cl, r, subnet, gerr. do 3 (split; [done|]).
  destruct gerr as [e|].
  { left. exists e. split; [done|]. by eapply exec_get_failed. }
  right.
  destruct (rangeServiceEndpoints (serviceEndpointsOf subnet) false) eqn:Hex.
  { left. do 2 (split; [done|]). by eapply exec_present. }
  right. do 2 (split; [done|]).
  destruct (subnetclient.CreateOrUpdate cl r (rgOf d) (VnetName (cfg d))
              (SubnetName (cfg d)) (written d subnet)) as [r' werr] eqn:Hput.
  exists r', werr. split; [done|]. by eapply exec_absent.
Qed.

(** C4.  On every exit path of [updateSubnetServiceEndpoints] the
    entry it locked is released.  Whatever the driver, the remote API and
    the lock map: either the invocation returns, and then the lock map
    holds exactly the entries it held at the call, the events of the
    invocation being none at all (the nil-client return, which never
    took the lock) or [LockEntry key], remote calls only, [UnlockEntry
    key] as the last event (success, failure of [Get], failure of
    [CreateOrUpdate]); or the entry is held by someone else and the
    invocation waits at [LockEntry] without having changed anything.  It
    never panics. *)
Theorem updateSubnetServiceEndpoints_releases_lock d w :
  (∃ w' err, exec fmt_v d w = Returned w' err ∧ held w' = held w ∧
     (trace w' = trace w ∨
      ∃ calls, forallb isRemoteCall calls = true ∧
               trace w' = trace w ++ lockedCalls (keyOf d) calls))
  ∨ (keyOf d ∈ held w ∧ exec fmt_v d w = Blocked w).
Proof.
  destruct (exec_cases d w) as
    [[_ H]|[(_ & Hk & H)|(cl & r & subnet & gerr & _ & _ & _ &
      [(e & _ & H)|[(_ & _ & H)|(_ & _ & r' & werr & _ & H)]])]].
  - left. exists w, (Some (fmt.Errorf "SubnetsClient is nil")). auto.
  - right. auto.
  - left. eexists _, _. split; [exact H|]. split; [done|].
    right. by exists [evGet d].
  - left. eexists _, _. split; [exact H|]. split; [done|].
    right. by exists [evGet d].
  - left. eexists _, _. split; [exact H|]. split; [done|].
    right. by exists [evGet d; evCreateOrUpdate d subnet].
Qed.

(** C6.  If the fetched subnet already has a service endpoint whose
    service name is Microsoft.Storage, the invocation makes no remote
    write: its events are [LockEntry], the one [Get], [UnlockEntry] (no
    [CreateOrUpdate]), the remote state is the one the [Get] left, and
    the function returns nil. *)
Theorem updateSubnetServiceEndpoints_present_no_write d w cl r subnet :
  SubnetsClient (cloud d) = Some cl →
  keyOf d ∉ held w →
  subnetclient.Get cl (remote w) (rgOf d) (VnetName (cfg d)) (SubnetName (cfg d)) ""
    = (r, (subnet, None)) →
  storageServicePresent (serviceEndpointsOf subnet) →
  ∃ w', exec fmt_v d w = Returned w' None ∧
        remote w' = r ∧
        trace w' = trace w ++ [EvLockEntry (keyOf d); evGet d; EvUnlockEntry (keyOf d)] ∧
        filter isRemoteWrite (trace w') = filter isRemoteWrite (trace w).
Proof.
  intros Hcl Hk Hget Hpresent.
  apply rangeServiceEndpoints_present in Hpresent.
  exists (after d w r [evGet d]). split; [by eapply exec_present|].
  split; [done|]. split; [done|].
  cbn [after trace lockedCalls]. rewrite filter_app. cbn. by rewrite app_nil_r.
Qed.

End Claims.

Section MoreClaims.
Context {RetryError R Clientset : Type}.
Variable fmt_v : RetryError → string.
Implicit Types (d : Driver Clientset (subnetclient.Interface R RetryError)).
Implicit Types (w : World R) (cl : subnetclient.Interface R RetryError).

(** C9.  The invocation never dereferences a nil pointer: it ends in
    no panic, whatever [Get] returns; and when the fetched subnet has nil
    properties or a nil endpoint list, the missing parts count as the
    empty list and are initialised: the invocation goes on to the check,
    appends the storage endpoint, writes a subnet whose endpoint list is
    that one endpoint, and returns what the write returned. *)
Theorem updateSubnetServiceEndpoints_no_nil_dereference d w :
  (∀ w' msg, exec fmt_v d w ≠ Panicked w' msg) ∧
  (∀ cl r subnet,
     SubnetsClient (cloud d) = Some cl →
     keyOf d ∉ held w →
     subnetclient.Get cl (remote w) (rgOf d) (VnetName (cfg d)) (SubnetName (cfg d)) ""
       = (r, (subnet, None)) →
     network.Subnet_SubnetPropertiesFormat subnet = None ∨
     (∃ props, network.Subnet_SubnetPropertiesFormat subnet = Some props ∧
               network.ServiceEndpoints props = None) →
     ∃ r' werr,
       subnetclient.CreateOrUpdate cl r (rgOf d) (VnetName (cfg d))
         (SubnetName (cfg d)) (written d subnet) = (r', werr) ∧
       exec fmt_v d w =
         Returned (after d w r' [evGet d; evCreateOrUpdate d subnet])
                  (option_map (updateError fmt_v d) werr) ∧
       ∃ props, network.Subnet_SubnetPropertiesFormat (written d subnet) = Some props ∧
                network.ServiceEndpoints props =
                  Some [storageServiceEndpointAt (Location (cfg d))]).
Proof.
  split.
  - intros w' msg.
    destruct (exec_cases fmt_v d w) as
      [[_ H]|[(_ & Hk & H)|(cl & r & subnet & gerr & _ & _ & _ &
        [(e & _ & H)|[(_ & _ & H)|(_ & _ & r' & werr & _ & H)]])]];
      rewrite H; discriminate.
  - intros cl r subnet Hcl Hk Hget Hnil.
    assert (serviceEndpointsOf subnet = []) as Heps.
    { unfold serviceEndpointsOf.
      destruct Hnil as [->|(props & -> & ->)]; reflexivity. }
    destruct (subnetclient.CreateOrUpdate cl r (rgOf d) (VnetName (cfg d))
                (SubnetName (cfg d)) (written d subnet)) as [r' werr] eqn:Hput.
    exists r', werr. split; [done|]. split.
    + eapply exec_absent; eauto. by rewrite Heps.
    + unfold written. rewrite Heps. eexists. split; reflexivity.
Qed.

(** C2, as amended.  For every fetched subnet the invocation checks
    whether some endpoint of the subnet names the service
    Microsoft.Storage, whatever the locations of that endpoint.  Exactly
    when there is none it makes one write, of the fetched subnet with
    the endpoint (Microsoft.Storage, [location of the driver]) appended
    to its endpoint list; when there is one it makes no write. *)
Theorem updateSubnetServiceEndpoints_writes_iff_absent d w cl r subnet :
  SubnetsClient (cloud d) = Some cl →
  keyOf d ∉ held w →
  subnetclient.Get cl (remote w) (rgOf d) (VnetName (cfg d)) (SubnetName (cfg d)) ""
    = (r, (subnet, None)) →
  ∃ w' err calls,
    exec fmt_v d w = Returned w' err ∧
    trace w' = trace w ++ lockedCalls (keyOf d) calls ∧
    (storageServicePresent (serviceEndpointsOf subnet) → calls = [evGet d]) ∧
    (¬ storageServicePresent (serviceEndpointsOf subnet) →
       calls = [evGet d;
                EvCreateOrUpdate (rgOf d) (VnetName (cfg d)) (SubnetName (cfg d))
                  (written d subnet)] ∧
       serviceEndpointsOf (written d subnet) =
         serviceEndpointsOf subnet ++
         [{| network.Service := Some storageService;
             network.Locations := Some [Location (cfg d)];
             network.ProvisioningState := "" |}]).
Proof.
  intros Hcl Hk Hget.
  destruct (rangeServiceEndpoints (serviceEndpointsOf subnet) false) eqn:Hex.
  - exists (after d w r [evGet d]), None, [evGet d].
    split; [by eapply exec_present|]. split; [done|].
    split; [done|]. intros Habs.
    by apply rangeServiceEndpoints_present in Hex.
  - destruct (subnetclient.CreateOrUpdate cl r (rgOf d) (VnetName (cfg d))
                (SubnetName (cfg d)) (written d subnet)) as [r' werr] eqn:Hput.
    exists (after d w r' [evGet d; evCreateOrUpdate d subnet]),
           (option_map (updateError fmt_v d) werr),
           [evGet d; evCreateOrUpdate d subnet].
    split; [by eapply exec_absent|]. split; [done|].
    split; [|done].
    intros Hpres. apply rangeServiceEndpoints_present in Hpres. congruence.
Qed.

(** C5, as amended.  The invocation returns a non-nil error exactly
    when the client is nil, [Get] fails, or (no endpoint naming the
    storage service being there) [CreateOrUpdate] fails.  A remote error
    is not returned as it is: the function returns a new error whose
    message is "failed to get the subnet S under vnet V: " (for the
    write, "failed to update ...") followed by what [%v] prints for the
    remote error.  There is no retry and no classification: [Get] is
    called once, [CreateOrUpdate] at most once, and the message is built
    the same way whatever the error. *)
Theorem updateSubnetServiceEndpoints_errors d w :
  keyOf d ∉ held w →
  ∃ w' err calls,
    exec fmt_v d w = Returned w' err ∧
    trace w' = trace w ++ calls ∧
    match SubnetsClient (cloud d) with
    | None => err = Some (errorString "SubnetsClient is nil") ∧ calls = []
    | Some cl =>
        let '(r, (subnet, gerr)) :=
          subnetclient.Get cl (remote w) (rgOf d) (VnetName (cfg d))
            (SubnetName (cfg d)) "" in
        match gerr with
        | Some e =>
            err = Some (errorString
                          ("failed to get the subnet " +:+ SubnetName (cfg d) +:+
                           " under vnet " +:+ VnetName (cfg d) +:+ ": " +:+ fmt_v e)) ∧
            calls = lockedCalls (keyOf d) [evGet d]
        | None =>
            (storageServicePresent (serviceEndpointsOf subnet) →
               err = None ∧ calls = lockedCalls (keyOf d) [evGet d]) ∧
            (¬ storageServicePresent (serviceEndpointsOf subnet) →
               calls = lockedCalls (keyOf d) [evGet d; evCreateOrUpdate d subnet] ∧
               match snd (subnetclient.CreateOrUpdate cl r (rgOf d) (VnetName (cfg d))
                            (SubnetName (cfg d)) (written d subnet)) with
               | Some e =>
                   err = Some (errorString
                                 ("failed to update the subnet " +:+ SubnetName (cfg d) +:+
                                  " under vnet " +:+ VnetName (cfg d) +:+ ": " +:+ fmt_v e))
               | None => err = None
               end)
        end
    end.
Proof.
  intros Hk.
  destruct (exec_cases fmt_v d w) as
    [[Hcl H]|[(_ & Hk' & _)|(cl & r & subnet & gerr & Hcl & _ & Hget &
      [(e & -> & H)|[(-> & Hex & H)|(-> & Hex & r' & werr & Hput & H)]])]];
    [|done|..]; rewrite Hcl, ?Hget.
  - exists w, (Some (fmt.Errorf "SubnetsClient is nil")), [].
    by rewrite app_nil_r.
  - eexists _, _, _. split; [exact H|]. split; [reflexivity|done].
  - eexists _, _, _. split; [exact H|]. split; [reflexivity|].
    split; [done|]. intros Habs. by apply rangeServiceEndpoints_present in Hex.
  - eexists _, _, _. split; [exact H|]. split; [reflexivity|].
    split.
    + intros Hpres. apply rangeServiceEndpoints_present in Hpres. congruence.
    + intros _. split; [done|]. rewrite Hput. by destruct werr.
Qed.

End MoreClaims.

(** ** Idempotence *)

Section Idempotence.
Context {RetryError R Clientset : Type}.
Variable fmt_v : RetryError → string.
Implicit Types (d : Driver Clientset (subnetclient.Interface R RetryError)).
Implicit Types (w : World R) (cl : subnetclient.Interface R RetryError).

Lemma In_lockedCalls_write entry calls rg vnet sn s :
  In (EvCreateOrUpdate rg vnet sn s) (lockedCalls entry calls) →
  In (EvCreateOrUpdate rg vnet sn s) calls.
Proof.
  unfold lockedCalls. intros [H|H]; [discriminate|].
  apply in_app_or in H as [H|[H|[]]]; [done|discriminate].
Qed.

(** C1.  Against a remote API that stores what it is given,
    [updateSubnetServiceEndpoints] is idempotent.  For every remote
    state, so for every subnet [Get] returns, two invocations in
    succession leave the remote state that one leaves, hence the same
    endpoint list of the subnet; a run after a run that succeeded finds
    the endpoint, makes no write and succeeds; and every subnet written
    by either run names Microsoft.Storage in exactly one endpoint. *)
Theorem updateSubnetServiceEndpoints_idempotent d w :
  (∀ cl, SubnetsClient (cloud d) = Some cl → StoresSubnets cl) →
  keyOf d ∉ held w →
  ∃ w1 err1 w2 err2 calls1 calls2,
    exec fmt_v d w = Returned w1 err1 ∧
    trace w1 = trace w ++ calls1 ∧
    exec fmt_v d w1 = Returned w2 err2 ∧
    trace w2 = trace w1 ++ calls2 ∧
    remote w2 = remote w1 ∧
    (err1 = None → err2 = None ∧ calls2 = lockedCalls (keyOf d) [evGet d]) ∧
    (∀ rg vnet sn s,
       In (EvCreateOrUpdate rg vnet sn s) (calls1 ++ calls2) →
       length (filter namesStorageService (serviceEndpointsOf s)) = 1).
Proof.
  intros Hlaw Hk.
  destruct (exec_cases fmt_v d w) as
    [[Hcl H]|[(_ & Hk' & _)|(cl & r & subnet & gerr & Hcl & _ & Hget &
      [(e & -> & H)|[(-> & Hex & H)|(-> & Hex & r' & werr & Hput & H)]])]];
    [|done|..].
  - (* nil client *)
    exists w, (Some (fmt.Errorf "SubnetsClient is nil")),
           w, (Some (fmt.Errorf "SubnetsClient is nil")), [], [].
    rewrite app_nil_r. repeat split; done.
  - (* Get fails, and fails again *)
    pose proof (get_readonly _ (Hlaw _ Hcl) (remote w) (rgOf d) (VnetName (cfg d))
                  (SubnetName (cfg d)) "") as Hro.
    rewrite Hget in Hro. cbn in Hro. subst r.
    assert (exec fmt_v d (after d w (remote w) [evGet d]) =
            Returned (after d (after d w (remote w) [evGet d]) (remote w) [evGet d])
                     (Some (getError fmt_v d e))) as H2
      by (by eapply exec_get_failed).
    eexists _, _, _, _, _, _. split; [exact H|]. split; [reflexivity|].
    split; [exact H2|]. split; [reflexivity|]. split; [done|]. split; [done|].
    intros rg vnet sn s Hin.
    apply in_app_or in Hin as [Hin|Hin]; apply In_lockedCalls_write in Hin;
      destruct Hin as [?|[]]; discriminate.
  - (* the endpoint is there *)
    pose proof (get_readonly _ (Hlaw _ Hcl) (remote w) (rgOf d) (VnetName (cfg d))
                  (SubnetName (cfg d)) "") as Hro.
    rewrite Hget in Hro. cbn in Hro. subst r.
    assert (exec fmt_v d (after d w (remote w) [evGet d]) =
            Returned (after d (after d w (remote w) [evGet d]) (remote w) [evGet d]) None)
      as H2 by (by eapply exec_present).
    eexists _, _, _, _, _, _. split; [exact H|]. split; [reflexivity|].
    split; [exact H2|]. split; [reflexivity|]. split; [done|]. split; [done|].
    intros rg vnet sn s Hin.
    apply in_app_or in Hin as [Hin|Hin]; apply In_lockedCalls_write in Hin;
      destruct Hin as [?|[]]; discriminate.
  - (* the endpoint is appended *)
    pose proof (get_readonly _ (Hlaw _ Hcl) (remote w) (rgOf d) (VnetName (cfg d))
                  (SubnetName (cfg d)) "") as Hro.
    rewrite Hget in Hro. cbn in Hro. subst r.
    destruct werr as [e|].
    + (* the write is refused, and refused again *)
      pose proof (refused_write _ (Hlaw _ Hcl) _ _ _ _ _ _ _ Hput) as ->.
      assert (exec fmt_v d (after d w (remote w) [evGet d; evCreateOrUpdate d subnet]) =
              Returned (after d (after d w (remote w) [evGet d; evCreateOrUpdate d subnet])
                          (remote w) [evGet d; evCreateOrUpdate d subnet])
                       (option_map (updateError fmt_v d) (Some e))) as H2
        by (by eapply exec_absent).
      eexists _, _, _, _, _, _. split; [exact H|]. split; [reflexivity|].
      split; [exact H2|]. split; [reflexivity|]. split; [done|]. split; [done|].
      intros rg vnet sn s Hin.
      apply in_app_or in Hin as [Hin|Hin]; apply In_lockedCalls_write in Hin;
        destruct Hin as [?|[Hin|[]]]; try discriminate;
        injection Hin as <- <- <- <-; by apply written_once.
    + (* the write is accepted; the next run reads the endpoint back *)
      destruct (read_after_write _ (Hlaw _ Hcl) _ _ _ _ _ _ Hput) as (s' & Hget' & Hs').
      assert (exec fmt_v d (after d w r' [evGet d; evCreateOrUpdate d subnet]) =
              Returned (after d (after d w r' [evGet d; evCreateOrUpdate d subnet])
                          r' [evGet d]) None) as H2.
      { eapply exec_present; eauto.
        rewrite Hs'. apply written_rangeServiceEndpoints. }
      eexists _, _, _, _, _, _. split; [exact H|]. split; [reflexivity|].
      split; [exact H2|]. split; [reflexivity|]. split; [done|]. split; [done|].
      intros rg vnet sn s Hin.
      apply in_app_or in Hin as [Hin|Hin]; apply In_lockedCalls_write in Hin;
        [destruct Hin as [?|[Hin|[]]]|destruct Hin as [?|[]]]; try discriminate.
      injection Hin as <- <- <- <-. by apply written_once.
Qed.

End Idempotence.

(** ** The scenarios *)

Lemma memclient_StoresSubnets : StoresSubnets memclient.client.
Proof.
  split.
  - intros r rg vnet sn expand. cbn. unfold memclient.Get.
    by destruct (memclient.subnets r !! (rg, vnet, sn)).
  - intros r rg vnet sn s r' e. cbn. unfold memclient.CreateOrUpdate.
    destruct (memclient.readonly r); intros H; by inversion H.
  - intros r rg vnet sn s r'. cbn. unfold memclient.CreateOrUpdate.
    destruct (memclient.readonly r); intros H; inversion H; subst.
    exists s. split; [|done]. unfold memclient.Get. cbn.
    by rewrite lookup_insert_eq.
Qed.

Lemma scenario_key_free (r : memclient.Remote) (d : scenario.DriverT) :
  keyOf d ∉ held (scenario.world r).
Proof. apply not_elem_of_empty. Qed.

Lemma scenario_Get s readonly :
  subnetclient.Get memclient.client (scenario.remoteWith s readonly) "rg" "vnet" "sn" ""
  = (scenario.remoteWith s readonly, (s, None)).
Proof.
  cbn. unfold memclient.Get. cbn. by rewrite lookup_singleton_eq.
Qed.

(** The in-memory API stores what it is given: two runs on a subnet with no
    properties leave the remote state one run leaves. *)
Lemma updateSubnetServiceEndpoints_idempotent_witness :
  (keyOf scenario.eastusDriver ∉ held scenario.bareWorld) ∧
  ∃ w1 err1 w2 err2,
    exec Error scenario.eastusDriver scenario.bareWorld = Returned w1 err1 ∧
    exec Error scenario.eastusDriver w1 = Returned w2 err2 ∧
    remote w2 = remote w1.
Proof.
  split; [apply scenario_key_free|].
  destruct (updateSubnetServiceEndpoints_idempotent Error
              scenario.eastusDriver scenario.bareWorld)
    as (w1 & err1 & w2 & err2 & calls1 & calls2 & H1 & _ & H2 & _ & Hr & _).
  - intros cl [= <-]. apply memclient_StoresSubnets.
  - apply scenario_key_free.
  - by exists w1, err1, w2, err2.
Defined.

(** The subnet has the storage endpoint of westus: one [Get], no write. *)
Lemma updateSubnetServiceEndpoints_present_no_write_witness :
  (keyOf scenario.eastusDriver ∉ held scenario.westusWorld) ∧
  storageServicePresent (serviceEndpointsOf scenario.westusSubnet) ∧
  ∃ w', exec Error scenario.eastusDriver scenario.westusWorld = Returned w' None ∧
        remote w' = remote scenario.westusWorld ∧
        trace w' = [EvLockEntry "rgvnetsn"; EvGet "rg" "vnet" "sn" "";
                    EvUnlockEntry "rgvnetsn"].
Proof.
  assert (storageServicePresent (serviceEndpointsOf scenario.westusSubnet)) as Hpres.
  { eexists. split; [left; reflexivity|reflexivity]. }
  split; [apply scenario_key_free|]. split; [exact Hpres|].
  destruct (updateSubnetServiceEndpoints_present_no_write Error
              scenario.eastusDriver scenario.westusWorld memclient.client
              (scenario.remoteWith scenario.westusSubnet false) scenario.westusSubnet)
    as (w' & H & Hr & Ht & _).
  - reflexivity.
  - apply scenario_key_free.
  - apply scenario_Get.
  - exact Hpres.
  - by exists w'.
Defined.

(** The subnet has nil properties: it is written back with the one storage
    endpoint. *)
Lemma updateSubnetServiceEndpoints_no_nil_dereference_witness :
  (keyOf scenario.eastusDriver ∉ held scenario.bareWorld) ∧
  network.Subnet_SubnetPropertiesFormat scenario.bareSubnet = None ∧
  ∃ w', exec Error scenario.eastusDriver scenario.bareWorld = Returned w' None ∧
        trace w' =
          [EvLockEntry "rgvnetsn"; EvGet "rg" "vnet" "sn" "";
           EvCreateOrUpdate "rg" "vnet" "sn"
             (scenario.subnetWith
                (Some {| network.AddressPrefix := None;
                         network.ServiceEndpoints :=
                           Some [{| network.Service := Some "Microsoft.Storage";
                                    network.Locations := Some ["eastus"];
                                    network.ProvisioningState := "" |}] |}));
           EvUnlockEntry "rgvnetsn"].
Proof.
  split; [apply scenario_key_free|]. split; [reflexivity|].
  destruct (updateSubnetServiceEndpoints_no_nil_dereference Error
              scenario.eastusDriver scenario.bareWorld) as [_ H].
  destruct (H memclient.client (scenario.remoteWith scenario.bareSubnet false)
              scenario.bareSubnet) as (r' & werr & Hput & Hexec & _).
  - reflexivity.
  - apply scenario_key_free.
  - apply scenario_Get.
  - by left.
  - cbn in Hput. unfold memclient.CreateOrUpdate in Hput. cbn in Hput.
    inversion Hput; subst. eexists. split; [exact Hexec|reflexivity].
Defined.

(** C2 as stated fails.  The driver is in eastus; the subnet has the
    storage endpoint registered for westus only.  No storage endpoint is
    registered for the driver's location, and yet the invocation appends
    nothing and writes nothing: the check of line 173 reads the service
    name and never the locations. *)
Lemma updateSubnetServiceEndpoints_location_counterexample :
  Location (cfg scenario.eastusDriver) = "eastus" ∧
  subnetclient.Get memclient.client (remote scenario.westusWorld) "rg" "vnet" "sn" ""
    = (remote scenario.westusWorld, (scenario.westusSubnet, None)) ∧
  ¬ spec_registeredForLocation "eastus" (serviceEndpointsOf scenario.westusSubnet) ∧
  ∃ w', exec Error scenario.eastusDriver scenario.westusWorld = Returned w' None ∧
        trace w' = [EvLockEntry "rgvnetsn"; EvGet "rg" "vnet" "sn" "";
                    EvUnlockEntry "rgvnetsn"] ∧
        remote w' = remote scenario.westusWorld.
Proof.
  split; [reflexivity|]. split; [apply scenario_Get|]. split.
  - intros (v & locations & Hin & _ & Hloc & Hl).
    destruct Hin as [<-|[]]. cbn in Hloc. injection Hloc as <-.
    destruct Hl as [Hl|[]]. discriminate.
  - exists (after scenario.eastusDriver scenario.westusWorld
              (remote scenario.westusWorld) [evGet scenario.eastusDriver]).
    split; [|split; reflexivity].
    eapply (exec_present Error scenario.eastusDriver scenario.westusWorld);
      [reflexivity|apply scenario_key_free|apply scenario_Get|reflexivity].
Qed.

(** The subnet names no storage endpoint: the endpoint of eastus is appended
    and written. *)
Lemma updateSubnetServiceEndpoints_writes_iff_absent_witness :
  (keyOf scenario.eastusDriver ∉ held scenario.bareWorld) ∧
  ¬ storageServicePresent (serviceEndpointsOf scenario.bareSubnet) ∧
  ∃ w' err,
    exec Error scenario.eastusDriver scenario.bareWorld = Returned w' err ∧
    trace w' =
      lockedCalls "rgvnetsn"
        [EvGet "rg" "vnet" "sn" "";
         EvCreateOrUpdate "rg" "vnet" "sn"
           (withServiceEndpoints scenario.bareSubnet
              [storageServiceEndpointAt "eastus"])].
Proof.
  assert (¬ storageServicePresent (serviceEndpointsOf scenario.bareSubnet)) as Habs
    by (by intros (v & [] & _)).
  split; [apply scenario_key_free|]. split; [exact Habs|].
  destruct (updateSubnetServiceEndpoints_writes_iff_absent Error
              scenario.eastusDriver scenario.bareWorld memclient.client
              (scenario.remoteWith scenario.bareSubnet false) scenario.bareSubnet)
    as (w' & err & calls & H & Ht & _ & Hwrite).
  - reflexivity.
  - apply scenario_key_free.
  - apply scenario_Get.
  - destruct (Hwrite Habs) as [-> _]. by exists w', err.
Defined.

(** C5 as stated fails.  The subnet does not exist and [Get] fails with
    the error "ResourceNotFound"; the invocation returns another error, the
    one built at line 157. *)
Lemma updateSubnetServiceEndpoints_unmodified_counterexample :
  snd (subnetclient.Get memclient.client (remote scenario.emptyWorld) "rg" "vnet" "sn" "")
    = (memclient.zeroSubnet, Some (errorString "ResourceNotFound")) ∧
  ∃ w' err,
    exec Error scenario.eastusDriver scenario.emptyWorld = Returned w' (Some err) ∧
    err = errorString "failed to get the subnet sn under vnet vnet: ResourceNotFound" ∧
    err ≠ errorString "ResourceNotFound".
Proof.
  split; [reflexivity|].
  exists (after scenario.eastusDriver scenario.emptyWorld
            (remote scenario.emptyWorld) [evGet scenario.eastusDriver]).
  eexists. split; [|split; [reflexivity|discriminate]].
  apply (exec_get_failed Error scenario.eastusDriver scenario.emptyWorld
           memclient.client (remote scenario.emptyWorld) memclient.zeroSubnet
           (errorString "ResourceNotFound"));
    [reflexivity|apply scenario_key_free|reflexivity].
Qed.

(** The API refuses the write: the error returned is the one of line 186. *)
Lemma updateSubnetServiceEndpoints_errors_witness :
  (keyOf scenario.eastusDriver ∉ held scenario.readonlyWorld) ∧
  ∃ w',
    exec Error scenario.eastusDriver scenario.readonlyWorld =
      Returned w'
        (Some (errorString
                 "failed to update the subnet sn under vnet vnet: AuthorizationFailed")).
Proof.
  split; [apply scenario_key_free|].
  destruct (updateSubnetServiceEndpoints_errors Error
              scenario.eastusDriver scenario.readonlyWorld)
    as (w' & err & calls & H & _ & Hm).
  - apply scenario_key_free.
  - cbn [scenario.eastusDriver scenario.driver cloud SubnetsClient] in Hm.
    change (remote scenario.readonlyWorld)
      with (scenario.remoteWith scenario.bareSubnet true) in Hm.
    change (rgOf (scenario.driver "eastus" (Some memclient.client))) with "rg" in Hm.
    change (VnetName (cfg (scenario.driver "eastus" (Some memclient.client))))
      with "vnet" in Hm.
    change (SubnetName (cfg (scenario.driver "eastus" (Some memclient.client))))
      with "sn" in Hm.
    rewrite scenario_Get in Hm. destruct Hm as [_ Hm].
    destruct Hm as [_ Hm]; [by intros (v & [] & _)|].
    cbn in Hm. subst err. by exists w'.
Defined.

(** ** The bootstrap *)

Section Bootstrap.
Context {Clientset SubnetsClientT RestConfig File : Type}.
Implicit Types (env : Env Clientset SubnetsClientT RestConfig File).

Lemma getCloudProvider_opened env kubeconfig nodeID secretName secretNamespace userAgent :
  fst (getCloudProvider env kubeconfig nodeID secretName secretNamespace userAgent) =
  fst (loadCloudConfig env kubeconfig secretName secretNamespace userAgent).
Proof.
  unfold getCloudProvider.
  destruct (loadCloudConfig env kubeconfig secretName secretNamespace userAgent)
    as [opened [az err|msg|az err]]; cbn; [done|done|].
  destruct (String.eqb nodeID ""); [|done].
  destruct err; [done|]. by destruct az.
Qed.

Lemma loadCloudConfig_opened env kubeconfig secretName secretNamespace userAgent
    kubeClient az err :
  readCloudConfigFromSecret env kubeconfig secretName secretNamespace userAgent
    = SecretRead kubeClient az err →
  fst (loadCloudConfig env kubeconfig secretName secretNamespace userAgent) =
  fst (readCloudConfigFromFile env az err).
Proof.
  intros H. unfold loadCloudConfig. rewrite H.
  destruct (readCloudConfigFromFile env az err) as [opened [az' err']]. cbn.
  destruct kubeClient; [|done]. destruct az' as [a|]; [|done].
  by destruct (KubeClient a).
Qed.

Lemma configIncomplete_true (az : Cloud Clientset SubnetsClientT) :
  configIncomplete az = true ↔
  TenantID (Cloud_Config az) = "" ∨ SubscriptionID (Cloud_Config az) = "" ∨
  ResourceGroup (Cloud_Config az) = "".
Proof.
  unfold configIncomplete. rewrite !orb_true_iff, !String.eqb_eq. tauto.
Qed.

(** C8.  When the configuration read from the secret is incomplete (the
    tenant, the subscription or the resource group is empty),
    [getCloudProvider] opens one file: the one [AZURE_CREDENTIAL_FILE] names
    when the variable is set, otherwise [C:\k\azure.json] on Windows and
    [/etc/kubernetes/azure.json] on every other platform; and when the file
    opens, the cloud and the error are what [NewCloudWithoutFeatureGates]
    makes of it. *)
Theorem getCloudProvider_credential_file env
    kubeconfig nodeID secretName secretNamespace userAgent kubeClient az err :
  readCloudConfigFromSecret env kubeconfig secretName secretNamespace userAgent
    = SecretRead kubeClient az err →
  TenantID (Cloud_Config az) = "" ∨ SubscriptionID (Cloud_Config az) = "" ∨
    ResourceGroup (Cloud_Config az) = "" →
  ∃ credFile,
    fst (getCloudProvider env kubeconfig nodeID secretName secretNamespace userAgent)
      = [credFile] ∧
    (∀ p, os_LookupEnv env "AZURE_CREDENTIAL_FILE" = (p, true) → credFile = p) ∧
    (∀ p, os_LookupEnv env "AZURE_CREDENTIAL_FILE" = (p, false) →
       (runtime_GOOS env = "windows" → credFile = "C:\k\azure.json") ∧
       (runtime_GOOS env ≠ "windows" → credFile = "/etc/kubernetes/azure.json")) ∧
    (snd (os_Open env credFile) = None →
       snd (readCloudConfigFromFile env az err) =
       NewCloudWithoutFeatureGates env (fst (os_Open env credFile)) false).
Proof.
  intros Hsecret Hinc. apply configIncomplete_true in Hinc.
  rewrite getCloudProvider_opened, (loadCloudConfig_opened _ _ _ _ _ _ _ _ Hsecret).
  unfold readCloudConfigFromFile. rewrite Hinc.
  change DefaultAzureCredentialFileEnv with "AZURE_CREDENTIAL_FILE".
  destruct (os_LookupEnv env "AZURE_CREDENTIAL_FILE") as [p ok].
  set (credFile := if ok then p else _).
  exists credFile.
  destruct (os_Open env credFile) as [config errOpenFile] eqn:Hopen.
  split; [by destruct errOpenFile|].
  split; [intros p' [= ? ?]; by subst|].
  split.
  - intros p' [= ? ?]. subst. subst credFile. cbn beta iota. split.
    + intros ->. reflexivity.
    + intros Hne. apply String.eqb_neq in Hne. by rewrite Hne.
  - cbn. intros ->. reflexivity.
Qed.

(** C10.  With the variables [az] and [err] as lines 47-100 left them:
    in controller mode (the node id is empty), when the configuration was
    loaded without error, the cloud returned is the loaded one with
    [UseInstanceMetadata] false; in node mode (the node id is not empty) the
    cloud returned is the loaded one, [UseInstanceMetadata] included.  The
    error returned is nil in both. *)
Theorem getCloudProvider_UseInstanceMetadata env
    kubeconfig nodeID secretName secretNamespace userAgent opened az err :
  loadCloudConfig env kubeconfig secretName secretNamespace userAgent
    = (opened, Proceeds az err) →
  (nodeID = "" → err = None → ∀ a, az = Some a →
     ∃ a', getCloudProvider env kubeconfig nodeID secretName secretNamespace userAgent
             = (opened, Returns (Some a', None)) ∧
           UseInstanceMetadata (Cloud_Config a') = false ∧
           a' = set_Config a (set_UseInstanceMetadata (Cloud_Config a) false)) ∧
  (nodeID ≠ "" →
     getCloudProvider env kubeconfig nodeID secretName secretNamespace userAgent
       = (opened, Returns (az, None))).
Proof.
  intros Hload. unfold getCloudProvider. rewrite Hload. split.
  - intros -> -> a ->. cbn. eexists. split; [reflexivity|]. split; reflexivity.
  - intros Hne. apply String.eqb_neq in Hne. by rewrite Hne.
Qed.

(** The error [getCloudProvider] returns is nil unless the Kubernetes
    client could not be built, for a reason other than a missing file or
    not being in a cluster. *)
Lemma getCloudProvider_error env
    kubeconfig nodeID secretName secretNamespace userAgent opened az e :
  getCloudProvider env kubeconfig nodeID secretName secretNamespace userAgent
    = (opened, Returns (az, Some e)) →
  ∃ err, snd (getKubeClient env kubeconfig) = Some err ∧
         os.IsNotExist (Some err) = false ∧ err ≠ ErrNotInCluster ∧
         e = errorString ("failed to get KubeClient: " +:+ Error err).
Proof.
  unfold getCloudProvider, loadCloudConfig, readCloudConfigFromSecret.
  destruct (getKubeClient env kubeconfig) as [kubeClient [err|]]; cbn [isSome andb snd].
  - destruct (os.IsNotExist (Some err)) eqn:Hne; cbn [negb andb].
    + destruct kubeClient;
        [destruct (InitializeCloudFromSecret env _) as [az1 err1]|];
        destruct (readCloudConfigFromFile env _ _) as [o [[a|] err2]];
        try destruct (KubeClient a);
        destruct (String.eqb nodeID ""); try destruct err2; discriminate.
    + destruct err as [|msg|msg]; cbn [isErrNotInCluster negb]; try discriminate.
      * destruct kubeClient;
          [destruct (InitializeCloudFromSecret env _) as [az1 err1]|];
          destruct (readCloudConfigFromFile env _ _) as [o [[a|] err2]];
          try destruct (KubeClient a);
          destruct (String.eqb nodeID ""); try destruct err2; discriminate.
      * intros [= <- <- <-]. eexists. repeat split; done.
  - destruct kubeClient;
      [destruct (InitializeCloudFromSecret env _) as [az1 err1]|];
      destruct (readCloudConfigFromFile env _ _) as [o [[a|] err2]];
      try destruct (KubeClient a);
      destruct (String.eqb nodeID ""); try destruct err2; discriminate.
Qed.

(** When [NewCloudWithoutFeatureGates] gives a cloud whatever the file,
    [getCloudProvider] returns a cloud. *)
Lemma getCloudProvider_cloud env kubeconfig nodeID secretName secretNamespace userAgent :
  (∀ config b, fst (NewCloudWithoutFeatureGates env config b) ≠ None) →
  ∃ opened a err,
    getCloudProvider env kubeconfig nodeID secretName secretNamespace userAgent
      = (opened, Returns (Some a, err)).
Proof.
  intros Hnew.
  assert (∀ az err, ∃ o a e, readCloudConfigFromFile env az err = (o, (Some a, e))) as Hfile.
  { intros az err. unfold readCloudConfigFromFile.
    destruct (configIncomplete az); [|by eexists _, _, _].
    destruct (os_LookupEnv env DefaultAzureCredentialFileEnv) as [p ok].
    destruct (os_Open env _) as [config [e|]]; cbn [isSome]; [by eexists _, _, _|].
    specialize (Hnew config false).
    destruct (NewCloudWithoutFeatureGates env config false) as [[a|] e];
      [by eexists _, _, _|done]. }
  unfold getCloudProvider, loadCloudConfig.
  destruct (readCloudConfigFromSecret env kubeconfig secretName secretNamespace userAgent)
    as [az err|kubeClient az err]; [by eexists _, _, _|].
  destruct (Hfile az err) as (o & a & e & ->).
  destruct kubeClient; [destruct (KubeClient a)|];
    destruct (String.eqb nodeID ""); try destruct e; by eexists _, _, _.
Qed.

End Bootstrap.

(** C7 fails on the code.  The credential file opens and does not parse:
    [NewCloudWithoutFeatureGates] gives no cloud and an error, and line 89
    assigns both.  Outside a cluster [getCloudProvider] then returns a nil
    cloud with a nil error, in controller mode and in node mode; inside a
    cluster, where the client was built, line 94 reads a field of the nil
    cloud and the function panics. *)
Theorem getCloudProvider_nil_cloud :
  NewCloudWithoutFeatureGates bootstrap.badFile "not json" false
    = (None, Some (errorString "invalid character 'o' in literal null (expecting 'u')")) ∧
  getCloudProvider bootstrap.badFile "" "" "" "" "ua"
    = (["/etc/kubernetes/azure.json"], Returns (None, None)) ∧
  getCloudProvider bootstrap.badFile "" "node-0" "" "" "ua"
    = (["/etc/kubernetes/azure.json"], Returns (None, None)) ∧
  getCloudProvider bootstrap.badFileInCluster "" "" "" "" "ua"
    = (["/etc/kubernetes/azure.json"],
       Panics "invalid memory address or nil pointer dereference").
Proof. repeat split. Qed.

(** Outside a cluster the configuration is empty: the file the variable
    names is opened on Windows, the Linux default when it is unset. *)
Lemma getCloudProvider_credential_file_witness :
  readCloudConfigFromSecret bootstrap.windowsEnvFile "" "" "" "ua"
    = SecretRead None
        (mkCloud (set_UserAgent zeroConfig "ua") (mkInitSecretConfig "" "" "cloud-config")
           None None)
        (Some ErrNotInCluster) ∧
  fst (getCloudProvider bootstrap.windowsEnvFile "" "node-0" "" "" "ua") = ["D:\azure.json"] ∧
  fst (getCloudProvider bootstrap.goodFile "" "node-0" "" "" "ua")
    = ["/etc/kubernetes/azure.json"].
Proof.
  split; [reflexivity|]. split.
  - destruct (getCloudProvider_credential_file bootstrap.windowsEnvFile
                "" "node-0" "" "" "ua" None
                (mkCloud (set_UserAgent zeroConfig "ua")
                   (mkInitSecretConfig "" "" "cloud-config") None None)
                (Some ErrNotInCluster))
      as (credFile & Hopened & Hset & _).
    + reflexivity.
    + by left.
    + rewrite Hopened. f_equal. by apply Hset.
  - destruct (getCloudProvider_credential_file bootstrap.goodFile
                "" "node-0" "" "" "ua" None
                (mkCloud (set_UserAgent zeroConfig "ua")
                   (mkInitSecretConfig "" "" "cloud-config") None None)
                (Some ErrNotInCluster))
      as (credFile & Hopened & _ & Hunset & _).
    + reflexivity.
    + by left.
    + rewrite Hopened. f_equal.
      destruct (Hunset "" eq_refl) as [_ Hlinux]. by apply Hlinux.
Defined.

(** A well-formed credential file: controller mode clears
    [UseInstanceMetadata], node mode returns the loaded cloud. *)
Lemma getCloudProvider_UseInstanceMetadata_witness :
  loadCloudConfig bootstrap.goodFile "" "" "" "ua"
    = (["/etc/kubernetes/azure.json"], Proceeds (Some bootstrap.fileCloud) None) ∧
  UseInstanceMetadata (Cloud_Config bootstrap.fileCloud) = true ∧
  (∃ a', getCloudProvider bootstrap.goodFile "" "" "" "" "ua"
           = (["/etc/kubernetes/azure.json"], Returns (Some a', None)) ∧
         UseInstanceMetadata (Cloud_Config a') = false) ∧
  getCloudProvider bootstrap.goodFile "" "node-0" "" "" "ua"
    = (["/etc/kubernetes/azure.json"], Returns (Some bootstrap.fileCloud, None)).
Proof.
  split; [reflexivity|]. split; [reflexivity|].
  split.
  - destruct (getCloudProvider_UseInstanceMetadata bootstrap.goodFile "" "" "" "" "ua"
                ["/etc/kubernetes/azure.json"] (Some bootstrap.fileCloud) None eq_refl)
      as [Hcontroller _].
    destruct (Hcontroller eq_refl eq_refl bootstrap.fileCloud eq_refl)
      as (a' & Hret & Hmeta & _).
    by exists a'.
  - destruct (getCloudProvider_UseInstanceMetadata bootstrap.goodFile "" "node-0" "" "" "ua"
                ["/etc/kubernetes/azure.json"] (Some bootstrap.fileCloud) None eq_refl)
      as [_ Hnode].
    by apply Hnode.
Defined.

(** ** Concurrent invocations: traces *)

Lemma eventsOf_app i t1 t2 :
  eventsOf i (t1 ++ t2) = eventsOf i t1 ++ eventsOf i t2.
Proof. unfold eventsOf. by rewrite filter_app, map_app. Qed.

Lemma eventsOf_cons_self i e t :
  eventsOf i ((i, e) :: t) = e :: eventsOf i t.
Proof. unfold eventsOf. by rewrite filter_cons_True. Qed.

Lemma eventsOf_cons_other i j e t :
  j ≠ i → eventsOf i ((j, e) :: t) = eventsOf i t.
Proof. intros H. unfold eventsOf. by rewrite filter_cons_False. Qed.

Lemma eventsOf_snoc_self i e t :
  eventsOf i (t ++ [(i, e)]) = eventsOf i t ++ [e].
Proof. by rewrite eventsOf_app, eventsOf_cons_self. Qed.

Lemma eventsOf_snoc_other i j e t :
  j ≠ i → eventsOf i (t ++ [(j, e)]) = eventsOf i t.
Proof. intros H. by rewrite eventsOf_app, eventsOf_cons_other, app_nil_r. Qed.

Lemma holdsEntry_snoc_self i e t :
  holdsEntry (t ++ [(i, e)]) i = heldAfter (holdsEntry t i) e.
Proof. unfold holdsEntry. by rewrite eventsOf_snoc_self, fold_left_app. Qed.

Lemma holdsEntry_snoc_other i j e t :
  j ≠ i → holdsEntry (t ++ [(j, e)]) i = holdsEntry t i.
Proof. intros H. unfold holdsEntry. by rewrite eventsOf_snoc_other. Qed.

Lemma heldAfter_remote_call entry e :
  isRemoteCall e = true → heldAfter entry e = entry.
Proof. by destruct e. Qed.

Lemma holdsEntry_snoc_remote_call i j e t :
  isRemoteCall e = true → holdsEntry (t ++ [(j, e)]) i = holdsEntry t i.
Proof.
  intros H. destruct (decide (j = i)) as [->|Hne].
  - by rewrite holdsEntry_snoc_self, heldAfter_remote_call.
  - by apply holdsEntry_snoc_other.
Qed.

Lemma fold_left_heldAfter_remote_calls calls entry :
  forallb isRemoteCall calls = true → fold_left heldAfter calls entry = entry.
Proof.
  revert entry. induction calls as [|e calls IH]; intros entry H; [done|].
  cbn in H. apply andb_true_iff in H as [He Hcalls].
  cbn. rewrite heldAfter_remote_call by done. by apply IH.
Qed.

Lemma snoc_eq_split {A : Type} (t t1 t2 : list A) (x y : A) :
  t ++ [x] = t1 ++ y :: t2 →
  (t2 = [] ∧ t1 = t ∧ y = x) ∨ (∃ t2', t2 = t2' ++ [x] ∧ t = t1 ++ y :: t2').
Proof.
  destruct t2 as [|z t2' _] using rev_ind; intros H.
  - left. apply app_inj_tail in H as [-> ->]. done.
  - right. exists t2'. rewrite app_comm_cons, app_assoc in H.
    apply app_inj_tail in H as [-> ->]. done.
Qed.

(** ** Concurrent invocations: the invariant *)

Section Serialization.
Context {RetryError R Clientset : Type}.
Variable fmt_v : RetryError → string.
Abbreviation DriverT := (Driver Clientset (subnetclient.Interface R RetryError)).
Implicit Types (d : DriverT) (ds : list DriverT) (P : Pool RetryError R).

(** With a client, the function is [LockEntry] on the driver's key and
    then a critical section on that key. *)
Lemma updateSubnetServiceEndpoints_Inside d cl :
  SubnetsClient (cloud d) = Some cl →
  ∃ body, updateSubnetServiceEndpoints fmt_v d = LockEntry (keyOf d) body ∧
          Inside (keyOf d) body.
Proof.
  intros Hcl. unfold updateSubnetServiceEndpoints. rewrite Hcl.
  eexists. split; [reflexivity|].
  cbn [defer]. apply Inside_get. intros [subnet [err|]]; [apply Inside_unlock_ret|].
  destruct subnet as [[[ap [eps|]]|] n e i]; cbn;
    try (destruct (rangeServiceEndpoints eps false); cbn);
    try apply Inside_unlock_ret;
    apply Inside_createOrUpdate; intros [err|]; apply Inside_unlock_ret.
Qed.

Lemma updateSubnetServiceEndpoints_nil_client d :
  SubnetsClient (cloud d) = None →
  finished (updateSubnetServiceEndpoints fmt_v d).
Proof. intros Hcl. unfold updateSubnetServiceEndpoints. by rewrite Hcl. Qed.

(** What a goroutine holds, by its phase. *)
Lemma Phase_holdsEntry d t i p :
  Phase fmt_v d (eventsOf i t) p →
  holdsEntry t i = None ∨ holdsEntry t i = Some (keyOf d).
Proof.
  unfold holdsEntry. intros [_ ->|calls _ _ -> Hcalls|calls _ -> Hcalls].
  - by left.
  - right. cbn. by apply fold_left_heldAfter_remote_calls.
  - left. cbn. rewrite fold_left_app. cbn. done.
Qed.

Lemma PoolInvariant_holds_own_key ds P i d entry :
  PoolInvariant fmt_v ds P → ds !! i = Some d →
  holdsEntry (p_trace P) i = Some entry → entry = keyOf d.
Proof.
  intros Hinv Hd Hholds.
  destruct (inv_goroutines _ _ _ Hinv i d Hd) as (g & _ & _ & Hphase).
  apply Phase_holdsEntry in Hphase as [H|H]; congruence.
Qed.

(** No other invocation with the key of [d] holds it when the entry is
    free or when goroutine [i] holds it. *)
Lemma PoolInvariant_others_idle ds P i d :
  PoolInvariant fmt_v ds P → ds !! i = Some d →
  keyOf d ∉ p_held P ∨ holdsEntry (p_trace P) i = Some (keyOf d) →
  ∀ i' di, i' ≠ i → ds !! i' = Some di → keyOf di = keyOf d →
           holdsEntry (p_trace P) i' = None.
Proof.
  intros Hinv Hd Hfree i' di Hne Hdi Hkey.
  destruct (holdsEntry (p_trace P) i') as [entry|] eqn:Hholds; [|done].
  pose proof (PoolInvariant_holds_own_key _ _ _ _ _ Hinv Hdi Hholds) as ->.
  rewrite Hkey in Hholds. destruct Hfree as [Hfree|Hi].
  - exfalso. apply Hfree. apply (inv_held _ _ _ Hinv). by exists i'.
  - by pose proof (inv_exclusive _ _ _ Hinv _ _ _ Hholds Hi).
Qed.

Lemma Serialized_snoc ds t i e d :
  Serialized ds t → ds !! i = Some d →
  (isRemoteCall e = true → holdsEntry t i = Some (keyOf d)) →
  (∀ i' di, i' ≠ i → ds !! i' = Some di → keyOf di = keyOf d → holdsEntry t i' = None) →
  Serialized ds (t ++ [(i, e)]).
Proof.
  intros Hser Hd Hcall Hothers t1 j e' t2 dj Hsplit Hdj.
  apply snoc_eq_split in Hsplit as [(-> & -> & [= -> ->])|(t2' & -> & ->)].
  - rewrite Hd in Hdj. injection Hdj as <-. split; [done|]. intros i' di. apply Hothers.
  - by eapply Hser.
Qed.

Lemma spawn_invariant ds r : PoolInvariant fmt_v ds (spawn fmt_v ds r).
Proof.
  split; cbn [spawn p_goroutines p_trace p_held].
  - intros i d Hd. eexists. rewrite list_lookup_fmap, Hd. cbn.
    split; [reflexivity|]. split; [reflexivity|]. by apply NotStarted.
  - intros i Hd. by rewrite list_lookup_fmap, Hd.
  - intros entry. split; [by intros ?%elem_of_empty|]. by intros [i [=]].
  - intros i j entry [=].
  - intros t1 j e t2 dj Hsplit. by destruct t1.
Qed.


(** The parts of the invariant that every step keeps the same way. *)
Lemma advance_goroutines ds P i g d r h e next :
  PoolInvariant fmt_v ds P → ds !! i = Some d → p_goroutines P !! i = Some g →
  g_client g = SubnetsClient (cloud d) →
  Phase fmt_v d (eventsOf i (p_trace P) ++ [e]) next →
  (∀ i' d', ds !! i' = Some d' →
     ∃ g', p_goroutines (advance P i g r h e next) !! i' = Some g' ∧
           g_client g' = SubnetsClient (cloud d') ∧
           Phase fmt_v d' (eventsOf i' (p_trace (advance P i g r h e next))) (g_prog g')) ∧
  (∀ i', ds !! i' = None →
     p_goroutines (advance P i g r h e next) !! i' = None ∧
     eventsOf i' (p_trace (advance P i g r h e next)) = []).
Proof.
  intros Hinv Hd Hg Hclient Hphase. cbn [advance p_goroutines p_trace]. split.
  - intros i' d' Hd'. destruct (decide (i' = i)) as [->|Hne].
    + rewrite Hd in Hd'. injection Hd' as <-.
      exists (mkGoroutine (g_client g) next).
      rewrite list_lookup_insert_eq by (by eapply lookup_lt_Some).
      rewrite eventsOf_snoc_self. done.
    + rewrite list_lookup_insert_ne by done.
      rewrite eventsOf_snoc_other by done.
      by apply (inv_goroutines _ _ _ Hinv).
  - intros i' Hd'. assert (i ≠ i') as Hne by congruence.
    rewrite list_lookup_insert_ne by done.
    rewrite eventsOf_snoc_other by done.
    by apply (inv_strangers _ _ _ Hinv).
Qed.

Lemma step_LockEntry ds P i g d next :
  PoolInvariant fmt_v ds P → ds !! i = Some d → p_goroutines P !! i = Some g →
  g_client g = SubnetsClient (cloud d) → is_Some (SubnetsClient (cloud d)) →
  eventsOf i (p_trace P) = [] → keyOf d ∉ p_held P → Inside (keyOf d) next →
  PoolInvariant fmt_v ds
    (advance P i g (p_remote P) ({[keyOf d]} ∪ p_held P) (EvLockEntry (keyOf d)) next).
Proof.
  intros Hinv Hd Hg Hclient Hsome Hevs Hfree Hinside.
  assert (holdsEntry (p_trace P) i = None) as Hidle
    by (unfold holdsEntry; by rewrite Hevs).
  destruct (advance_goroutines ds P i g d (p_remote P) ({[keyOf d]} ∪ p_held P)
              (EvLockEntry (keyOf d)) next Hinv Hd Hg Hclient) as [Hgs Hstr].
  { rewrite Hevs. by eapply InCriticalSection. }
  split; [exact Hgs|exact Hstr|..]; cbn [advance p_held p_trace].
  - intros entry. rewrite elem_of_union, elem_of_singleton. split.
    + intros [->|Hin].
      * exists i. by rewrite holdsEntry_snoc_self.
      * apply (inv_held _ _ _ Hinv) in Hin as [i' Hi'].
        exists i'. rewrite holdsEntry_snoc_other; [done|]. congruence.
    + intros [i' Hi']. destruct (decide (i' = i)) as [->|Hne].
      * rewrite holdsEntry_snoc_self in Hi'. cbn in Hi'. left. congruence.
      * rewrite holdsEntry_snoc_other in Hi' by done.
        right. apply (inv_held _ _ _ Hinv). by exists i'.
  - assert (∀ i', i' ≠ i →
              holdsEntry (p_trace P ++ [(i, EvLockEntry (keyOf d))]) i' ≠ Some (keyOf d))
      as Hothers.
    { intros i' Hne. rewrite holdsEntry_snoc_other by done. intros Hi'.
      apply Hfree. apply (inv_held _ _ _ Hinv). by exists i'. }
    intros i1 i2 entry H1 H2.
    destruct (decide (i1 = i)) as [->|Hne1]; destruct (decide (i2 = i)) as [->|Hne2];
      [done|..].
    + rewrite holdsEntry_snoc_self in H1. cbn in H1. injection H1 as <-.
      by destruct (Hothers i2 Hne2).
    + rewrite holdsEntry_snoc_self in H2. cbn in H2. injection H2 as <-.
      by destruct (Hothers i1 Hne1).
    + rewrite holdsEntry_snoc_other in H1, H2 by done.
      by apply (inv_exclusive _ _ _ Hinv _ _ _ H1 H2).
  - eapply Serialized_snoc; [apply (inv_serialized _ _ _ Hinv)|done|done|].
    eapply PoolInvariant_others_idle; eauto.
Qed.

Lemma step_UnlockEntry ds P i g d calls next :
  PoolInvariant fmt_v ds P → ds !! i = Some d → p_goroutines P !! i = Some g →
  g_client g = SubnetsClient (cloud d) →
  eventsOf i (p_trace P) = EvLockEntry (keyOf d) :: calls →
  forallb isRemoteCall calls = true → finished next →
  PoolInvariant fmt_v ds
    (advance P i g (p_remote P) (lockMap.UnlockEntry (p_held P) (keyOf d))
       (EvUnlockEntry (keyOf d)) next).
Proof.
  intros Hinv Hd Hg Hclient Hevs Hcalls Hfin.
  assert (holdsEntry (p_trace P) i = Some (keyOf d)) as Hholds.
  { unfold holdsEntry. rewrite Hevs. cbn.
    by apply fold_left_heldAfter_remote_calls. }
  destruct (advance_goroutines ds P i g d (p_remote P)
              (lockMap.UnlockEntry (p_held P) (keyOf d))
              (EvUnlockEntry (keyOf d)) next Hinv Hd Hg Hclient) as [Hgs Hstr].
  { rewrite Hevs. by eapply Finished. }
  split; [exact Hgs|exact Hstr|..]; cbn [advance p_held p_trace].
  - intros entry. unfold lockMap.UnlockEntry.
    rewrite elem_of_difference, elem_of_singleton. split.
    + intros [Hin Hne]. apply (inv_held _ _ _ Hinv) in Hin as [i' Hi'].
      exists i'. rewrite holdsEntry_snoc_other; [done|]. congruence.
    + intros [i' Hi']. destruct (decide (i' = i)) as [->|Hne].
      * rewrite holdsEntry_snoc_self in Hi'. discriminate.
      * rewrite holdsEntry_snoc_other in Hi' by done. split.
        -- apply (inv_held _ _ _ Hinv). by exists i'.
        -- intros ->. by pose proof (inv_exclusive _ _ _ Hinv _ _ _ Hi' Hholds).
  - intros i1 i2 entry H1 H2.
    destruct (decide (i1 = i)) as [->|Hne1];
      [rewrite holdsEntry_snoc_self in H1; discriminate|].
    destruct (decide (i2 = i)) as [->|Hne2];
      [rewrite holdsEntry_snoc_self in H2; discriminate|].
    rewrite holdsEntry_snoc_other in H1, H2 by done.
    by apply (inv_exclusive _ _ _ Hinv _ _ _ H1 H2).
  - eapply Serialized_snoc; [apply (inv_serialized _ _ _ Hinv)|done|done|].
    eapply PoolInvariant_others_idle; eauto.
Qed.

Lemma step_remote_call ds P i g d calls r e next :
  PoolInvariant fmt_v ds P → ds !! i = Some d → p_goroutines P !! i = Some g →
  g_client g = SubnetsClient (cloud d) → is_Some (SubnetsClient (cloud d)) →
  eventsOf i (p_trace P) = EvLockEntry (keyOf d) :: calls →
  forallb isRemoteCall calls = true → isRemoteCall e = true →
  Inside (keyOf d) next →
  PoolInvariant fmt_v ds (advance P i g r (p_held P) e next).
Proof.
  intros Hinv Hd Hg Hclient Hsome Hevs Hcalls He Hinside.
  assert (holdsEntry (p_trace P) i = Some (keyOf d)) as Hholds.
  { unfold holdsEntry. rewrite Hevs. cbn.
    by apply fold_left_heldAfter_remote_calls. }
  destruct (advance_goroutines ds P i g d r (p_held P) e next Hinv Hd Hg Hclient)
    as [Hgs Hstr].
  { rewrite Hevs. eapply (InCriticalSection _ _ _ _ (calls ++ [e])); [done|done|done|].
    rewrite forallb_app, Hcalls. cbn. by rewrite He. }
  split; [exact Hgs|exact Hstr|..]; cbn [advance p_held p_trace].
  - intros entry. rewrite (inv_held _ _ _ Hinv).
    split; intros [i' Hi']; exists i'; by rewrite holdsEntry_snoc_remote_call in *.
  - intros i1 i2 entry. rewrite !holdsEntry_snoc_remote_call by done.
    apply (inv_exclusive _ _ _ Hinv).
  - eapply Serialized_snoc; [apply (inv_serialized _ _ _ Hinv)|done|done|].
    eapply PoolInvariant_others_idle; eauto.
Qed.


Lemma stepOf_invariant ds P i P' :
  PoolInvariant fmt_v ds P → stepOf i P = Some P' → PoolInvariant fmt_v ds P'.
Proof.
  intros Hinv. unfold stepOf.
  destruct (p_goroutines P !! i) as [g|] eqn:Hg; [|done].
  destruct (ds !! i) as [d|] eqn:Hd;
    [|destruct (inv_strangers _ _ _ Hinv i Hd) as [Hnone _]; congruence].
  destruct (inv_goroutines _ _ _ Hinv i d Hd) as (g' & Hg' & Hclient & Hphase).
  rewrite Hg in Hg'. injection Hg' as <-.
  destruct Hphase as [Hprog Hevs|calls Hsome Hinside Hevs Hcalls|calls Hfin _ _].
  - (* not started: the next call is LockEntry *)
    rewrite Hprog. destruct (SubnetsClient (cloud d)) as [cl|] eqn:Hcl.
    + destruct (updateSubnetServiceEndpoints_Inside d cl Hcl)
        as (body & -> & Hinside).
      unfold lockMap.LockEntry. destruct (decide (keyOf d ∈ p_held P)); [done|].
      intros [= <-]. apply step_LockEntry; try done. by rewrite Hcl.
    + pose proof (updateSubnetServiceEndpoints_nil_client d Hcl) as Hfin.
      by destruct (updateSubnetServiceEndpoints fmt_v d).
  - (* in the critical section *)
    destruct Hsome as [cl Hcl]. rewrite Hcl in Hclient.
    destruct Hinside as [a|msg|rg vnet sn expand next Hnext|rg vnet sn param next Hnext].
    + intros [= <-]. eapply step_UnlockEntry; try done. by rewrite Hcl.
    + intros [= <-]. eapply step_UnlockEntry; try done. by rewrite Hcl.
    + rewrite Hclient.
      destruct (subnetclient.Get cl (p_remote P) rg vnet sn expand) as [r res].
      intros [= <-]. eapply step_remote_call; try done; by rewrite Hcl.
    + rewrite Hclient.
      destruct (subnetclient.CreateOrUpdate cl (p_remote P) rg vnet sn param) as [r res].
      intros [= <-]. eapply step_remote_call; try done; by rewrite Hcl.
  - by destruct (g_prog g).
Qed.

Lemma runSchedule_invariant ds sched P P' :
  PoolInvariant fmt_v ds P → runSchedule sched P = Some P' → PoolInvariant fmt_v ds P'.
Proof.
  revert P. induction sched as [|i sched IH]; intros P Hinv; cbn.
  - by intros [= <-].
  - destruct (stepOf i P) as [P1|] eqn:Hstep; [|done].
    apply IH. by eapply stepOf_invariant.
Qed.


Lemma held_by_nonempty_prefix (X Y calls : list Event) entry :
  X ≠ [] → X ++ Y = EvLockEntry entry :: calls →
  forallb isRemoteCall calls = true →
  fold_left heldAfter X None = Some entry.
Proof.
  intros HX Heq Hcalls. destruct X as [|x X']; [done|].
  cbn in Heq. injection Heq as -> <-.
  rewrite forallb_app in Hcalls. apply andb_true_iff in Hcalls as [HX' _].
  cbn. by apply fold_left_heldAfter_remote_calls.
Qed.

(** C3.  Invocations of [updateSubnetServiceEndpoints] that run
    concurrently on one lock map and one remote API, under any schedule:
    - two of them with the same lock key (effective resource group, vnet
      name and subnet name, concatenated) never interleave: no event of one
      (its [LockEntry], [Get], [CreateOrUpdate], [UnlockEntry]) falls
      between two events of the other;
    - each makes its remote calls while it holds the entry of its key, so
      the sequence that does not interleave contains the [Get], the check
      and the [CreateOrUpdate];
    - an entry is held by at most one of them at a time;
    - one that has not finished can make its next call unless another one
      with the same key holds the entry: invocations with distinct keys
      never wait for one another. *)
Theorem updateSubnetServiceEndpoints_serialized ds r sched P :
  runSchedule sched (spawn fmt_v ds r) = Some P →
  (∀ i j di dj t1 e1 t2 e2 t3 e3 t4,
     ds !! i = Some di → ds !! j = Some dj → i ≠ j → keyOf di = keyOf dj →
     p_trace P ≠ t1 ++ (i, e1) :: t2 ++ (j, e2) :: t3 ++ (i, e3) :: t4) ∧
  (∀ t1 j e t2 dj,
     p_trace P = t1 ++ (j, e) :: t2 → ds !! j = Some dj → isRemoteCall e = true →
     holdsEntry t1 j = Some (keyOf dj)) ∧
  (∀ i j entry,
     holdsEntry (p_trace P) i = Some entry → holdsEntry (p_trace P) j = Some entry →
     i = j) ∧
  (∀ j dj g,
     ds !! j = Some dj → p_goroutines P !! j = Some g → ¬ finished (g_prog g) →
     (∀ i di, i ≠ j → ds !! i = Some di → keyOf di = keyOf dj →
              holdsEntry (p_trace P) i = None) →
     is_Some (stepOf j P)).
Proof.
  intros Hrun.
  pose proof (runSchedule_invariant ds sched _ _ (spawn_invariant ds r) Hrun) as Hinv.
  split; [|split; [|split]].
  - intros i j di dj t1 e1 t2 e2 t3 e3 t4 Hdi Hdj Hne Hkey Htrace.
    assert (p_trace P = (t1 ++ (i, e1) :: t2) ++ (j, e2) :: t3 ++ (i, e3) :: t4)
      as Hsplit by (rewrite Htrace; by rewrite <- app_assoc).
    destruct (inv_serialized _ _ _ Hinv (t1 ++ (i, e1) :: t2) j e2
                (t3 ++ (i, e3) :: t4) dj Hsplit Hdj) as [_ Hidle].
    specialize (Hidle i di Hne Hdi Hkey).
    destruct (inv_goroutines _ _ _ Hinv i di Hdi) as (g & _ & _ & Hphase).
    rewrite Hsplit, eventsOf_app in Hphase.
    set (X := eventsOf i (t1 ++ (i, e1) :: t2)) in *.
    assert (X ≠ []) as HX.
    { subst X. rewrite eventsOf_app, eventsOf_cons_self. by destruct (eventsOf i t1). }
    rewrite (eventsOf_cons_other i j) in Hphase by done.
    rewrite eventsOf_app, eventsOf_cons_self in Hphase.
    unfold holdsEntry in Hidle. fold X in Hidle.
    destruct Hphase as [_ Hevs|calls _ _ Hevs Hcalls|calls _ Hevs Hcalls].
    + by destruct X.
    + rewrite (held_by_nonempty_prefix X _ calls _ HX Hevs Hcalls) in Hidle. done.
    + destruct (eventsOf i t4) as [|y Y _] using rev_ind.
      * rewrite (app_comm_cons calls), !app_assoc in Hevs.
        apply app_inj_tail in Hevs as [Hevs _].
        rewrite (held_by_nonempty_prefix X _ calls _ HX Hevs Hcalls) in Hidle. done.
      * rewrite (app_comm_cons calls), (app_comm_cons Y), !app_assoc in Hevs.
        apply app_inj_tail in Hevs as [Hevs _]. rewrite <- app_assoc in Hevs.
        rewrite (held_by_nonempty_prefix X _ calls _ HX Hevs Hcalls) in Hidle. done.
  - intros t1 j e t2 dj Htrace Hdj He.
    by destruct (inv_serialized _ _ _ Hinv t1 j e t2 dj Htrace Hdj) as [Hcall _]; auto.
  - apply (inv_exclusive _ _ _ Hinv).
  - intros j dj g Hdj Hg Hunfinished Hothers.
    destruct (inv_goroutines _ _ _ Hinv j dj Hdj) as (g' & Hg' & Hclient & Hphase).
    rewrite Hg in Hg'. injection Hg' as <-.
    unfold stepOf. rewrite Hg.
    destruct Hphase as [Hprog Hevs|calls [cl Hcl] Hinside Hevs Hcalls|calls Hfin _ _];
      [| |done].
    + rewrite Hprog in Hunfinished |- *.
      destruct (SubnetsClient (cloud dj)) as [cl|] eqn:Hcl;
        [|by destruct Hunfinished; apply updateSubnetServiceEndpoints_nil_client].
      destruct (updateSubnetServiceEndpoints_Inside dj cl Hcl) as (body & -> & _).
      rewrite LockEntry_free; [by eexists|].
      intros Hheld. apply (inv_held _ _ _ Hinv) in Hheld as [i Hi].
      assert (i ≠ j) as Hne.
      { intros ->. unfold holdsEntry in Hi. by rewrite Hevs in Hi. }
      destruct (ds !! i) as [di|] eqn:Hdi.
      * pose proof (PoolInvariant_holds_own_key _ _ _ _ _ Hinv Hdi Hi) as Hkey.
        rewrite (Hothers i di Hne Hdi) in Hi by done. done.
      * destruct (inv_strangers _ _ _ Hinv i Hdi) as [_ Hnone].
        unfold holdsEntry in Hi. by rewrite Hnone in Hi.
    + rewrite Hclient, Hcl.
      destruct Hinside as [a|msg|rg vnet sn expand next Hnext|rg vnet sn param next Hnext];
        [by eexists|by eexists|..].
      * destruct (subnetclient.Get cl (p_remote P) rg vnet sn expand). by eexists.
      * destruct (subnetclient.CreateOrUpdate cl (p_remote P) rg vnet sn param).
        by eexists.
Qed.

End Serialization.

(** Two invocations on one subnet run one after the other; they cannot take
    turns, and two invocations on different subnets can. *)
Lemma updateSubnetServiceEndpoints_serialized_witness :
  ∃ P, runSchedule concurrent.oneAfterTheOther concurrent.sameKey = Some P ∧
       map fst (p_trace P) = [0; 0; 0; 0; 1; 1; 1] ∧
       (∀ i j entry,
          holdsEntry (p_trace P) i = Some entry → holdsEntry (p_trace P) j = Some entry →
          i = j) ∧
       runSchedule concurrent.takingTurns concurrent.sameKey = None ∧
       is_Some (runSchedule concurrent.takingTurns concurrent.distinctKeys).
Proof.
  eexists. split; [reflexivity|]. split; [reflexivity|]. split.
  - eapply (updateSubnetServiceEndpoints_serialized Error
              [scenario.eastusDriver; scenario.eastusDriver]
              (scenario.remoteWith scenario.bareSubnet false)
              concurrent.oneAfterTheOther).
    reflexivity.
  - split; [reflexivity|]. eexists. reflexivity.
Defined.

(** ** The two semantics agree *)

Section Agreement.
Context {RetryError R : Type}.
Implicit Types (P : Pool RetryError R) (w : World R).

(** An invocation that returns when run alone returns the same, with the
    same effects, when the scheduler picks it until it has finished. *)
Lemma run_runSchedule i client (p : Prog (option error)) :
  ∀ P w w' a,
    p_goroutines P !! i = Some (mkGoroutine client p) → shows P w →
    run client p w = Returned w' a →
    ∃ n P', runSchedule (replicate n i) P = Some P' ∧
            p_goroutines P' !! i = Some (mkGoroutine client (Ret a)) ∧
            shows P' w'.
Proof.
  induction p as [a0|msg|entry next IH|entry next IH|rg vnet sn expand next IH
                  |rg vnet sn param next IH];
    intros P w w' a Hg (Hr & Hh & Ht); cbn [run].
  - intros [= <- <-]. exists 0, P. done.
  - done.
  - destruct (lockMap.LockEntry (held w) entry) as [h|] eqn:Hlock; [|done].
    intros Hrun.
    edestruct (IH (advance P i (mkGoroutine client (LockEntry entry next))
                    (p_remote P) h (EvLockEntry entry) next))
      as (n & P' & Hn & Hg' & Hshows); [| |exact Hrun|].
    { cbn. rewrite list_lookup_insert_eq; [done|]. by eapply lookup_lt_Some. }
    { unfold shows, record. cbn. by rewrite map_app, Hr, Ht. }
    exists (S n), P'. split; [|done].
    cbn [replicate runSchedule]. unfold stepOf. rewrite Hg. cbn [g_prog].
    by rewrite Hh, Hlock.
  - intros Hrun.
    edestruct (IH (advance P i (mkGoroutine client (UnlockEntry entry next))
                    (p_remote P) (lockMap.UnlockEntry (p_held P) entry)
                    (EvUnlockEntry entry) next))
      as (n & P' & Hn & Hg' & Hshows); [| |exact Hrun|].
    { cbn. rewrite list_lookup_insert_eq; [done|]. by eapply lookup_lt_Some. }
    { unfold shows, record. cbn. by rewrite map_app, Hr, Hh, Ht. }
    exists (S n), P'. split; [|done].
    cbn [replicate runSchedule]. unfold stepOf. rewrite Hg. cbn [g_prog]. done.
  - destruct client as [c|]; [|done].
    destruct (subnetclient.Get c (remote w) rg vnet sn expand) as [r res] eqn:Hget.
    intros Hrun.
    edestruct (IH res (advance P i (mkGoroutine (Some c)
                                     (SubnetsClient_Get rg vnet sn expand next))
                        r (p_held P) (EvGet rg vnet sn expand) (next res)))
      as (n & P' & Hn & Hg' & Hshows); [| |exact Hrun|].
    { cbn. rewrite list_lookup_insert_eq; [done|]. by eapply lookup_lt_Some. }
    { unfold shows, record. cbn. by rewrite map_app, Hh, Ht. }
    exists (S n), P'. split; [|done].
    cbn [replicate runSchedule]. unfold stepOf. rewrite Hg. cbn [g_prog g_client].
    by rewrite Hr, Hget.
  - destruct client as [c|]; [|done].
    destruct (subnetclient.CreateOrUpdate c (remote w) rg vnet sn param)
      as [r res] eqn:Hput.
    intros Hrun.
    edestruct (IH res (advance P i (mkGoroutine (Some c)
                                     (SubnetsClient_CreateOrUpdate rg vnet sn param next))
                        r (p_held P) (EvCreateOrUpdate rg vnet sn param) (next res)))
      as (n & P' & Hn & Hg' & Hshows); [| |exact Hrun|].
    { cbn. rewrite list_lookup_insert_eq; [done|]. by eapply lookup_lt_Some. }
    { unfold shows, record. cbn. by rewrite map_app, Hh, Ht. }
    exists (S n), P'. split; [|done].
    cbn [replicate runSchedule]. unfold stepOf. rewrite Hg. cbn [g_prog g_client].
    by rewrite Hr, Hput.
Qed.

End Agreement.

(** ** More of the bootstrap, on scenarios *)

Lemma getCloudProvider_error_witness :
  getCloudProvider bootstrap.goodFile "/no/such/kubeconfig" "" "" "" "ua"
    = ([], Returns (Some (mkCloud (set_UserAgent zeroConfig "ua")
                            (mkInitSecretConfig "" "" "cloud-config") None None),
                    Some (errorString "failed to get KubeClient: invalid configuration"))) ∧
  ∃ err, snd (getKubeClient bootstrap.goodFile "/no/such/kubeconfig") = Some err ∧
         os.IsNotExist (Some err) = false ∧ err ≠ ErrNotInCluster.
Proof.
  assert (getCloudProvider bootstrap.goodFile "/no/such/kubeconfig" "" "" "" "ua"
          = ([], Returns (Some (mkCloud (set_UserAgent zeroConfig "ua")
                                  (mkInitSecretConfig "" "" "cloud-config") None None),
                          Some (errorString
                                  "failed to get KubeClient: invalid configuration"))))
    as Hret by reflexivity.
  split; [exact Hret|].
  destruct (getCloudProvider_error _ _ _ _ _ _ _ _ _ Hret) as (err & H1 & H2 & H3 & _).
  by exists err.
Defined.

(** A library that makes a cloud of any file, inside a cluster. *)
Lemma getCloudProvider_cloud_witness :
  (∀ config b, fst (NewCloudWithoutFeatureGates bootstrap.lenient config b) ≠ None) ∧
  ∃ opened a err,
    getCloudProvider bootstrap.lenient "" "" "" "" "ua" = (opened, Returns (Some a, err)).
Proof.
  assert (∀ config b, fst (NewCloudWithoutFeatureGates bootstrap.lenient config b) ≠ None)
    as Hnew by done.
  split; [exact Hnew|].
  exact (getCloudProvider_cloud bootstrap.lenient "" "" "" "" "ua" Hnew).
Defined.

(** * Further properties *)

(** ** What an invocation ensures, keeps and addresses *)

Lemma effectiveResourceGroup_spec (c : Config) :
  (VnetResourceGroup c ≠ "" → effectiveResourceGroup c = VnetResourceGroup c) ∧
  (VnetResourceGroup c = "" → effectiveResourceGroup c = ResourceGroup c).
Proof.
  unfold effectiveResourceGroup. destruct (VnetResourceGroup c) as [|a s]; cbn.
  - split; [done|reflexivity].
  - split; [reflexivity|discriminate].
Qed.

Section Ensures.
Context {RetryError R Clientset : Type}.
Variable fmt_v : RetryError → string.
Implicit Types (d : Driver Clientset (subnetclient.Interface R RetryError)).
Implicit Types (w : World R) (cl : subnetclient.Interface R RetryError).

(** Against a remote API that stores what it is given, an invocation that
    returns nil has ensured the endpoint: the subnet then reads back with
    an endpoint that names Microsoft.Storage. *)
Theorem updateSubnetServiceEndpoints_ensures_endpoint d w cl w' :
  SubnetsClient (cloud d) = Some cl → StoresSubnets cl →
  exec fmt_v d w = Returned w' None →
  ∃ s, subnetclient.Get cl (remote w') (rgOf d) (VnetName (cfg d)) (SubnetName (cfg d)) ""
         = (remote w', (s, None)) ∧
       storageServicePresent (serviceEndpointsOf s).
Proof.
  intros Hcl Hlaw Hexec.
  destruct (exec_cases fmt_v d w) as
    [[Hnil _]|[(_ & _ & H)|(cl' & r & subnet & gerr & Hcl' & _ & Hget &
      [(e & _ & H)|[(-> & Hex & H)|(-> & Hex & r' & werr & Hput & H)]])]];
    [congruence|congruence|..];
    rewrite Hcl in Hcl'; injection Hcl' as <-; rewrite H in Hexec.
  - discriminate.
  - injection Hexec as <-. cbn [after remote].
    pose proof (get_readonly _ Hlaw (remote w) (rgOf d) (VnetName (cfg d))
                  (SubnetName (cfg d)) "") as Hro.
    rewrite Hget in Hro. cbn in Hro. subst r.
    exists subnet. split; [done|]. by apply rangeServiceEndpoints_present.
  - destruct werr as [e|]; [discriminate|]. injection Hexec as <-. cbn [after remote].
    destruct (read_after_write _ Hlaw _ _ _ _ _ _ Hput) as (s' & Hget' & Hs').
    exists s'. split; [done|]. apply rangeServiceEndpoints_present.
    rewrite Hs'. apply written_rangeServiceEndpoints.
Qed.

(** Against such an API, an invocation that returns an error has left the
    remote state as it was. *)
Theorem updateSubnetServiceEndpoints_error_no_change d w w' err :
  (∀ cl, SubnetsClient (cloud d) = Some cl → StoresSubnets cl) →
  exec fmt_v d w = Returned w' (Some err) →
  remote w' = remote w.
Proof.
  intros Hlaw Hexec.
  destruct (exec_cases fmt_v d w) as
    [[_ H]|[(_ & _ & H)|(cl & r & subnet & gerr & Hcl & _ & Hget &
      [(e & _ & H)|[(-> & Hex & H)|(-> & Hex & r' & werr & Hput & H)]])]];
    rewrite H in Hexec; try discriminate.
  - by injection Hexec as <- _.
  - injection Hexec as <- _. cbn [after remote].
    pose proof (get_readonly _ (Hlaw _ Hcl) (remote w) (rgOf d) (VnetName (cfg d))
                  (SubnetName (cfg d)) "") as Hro.
    by rewrite Hget in Hro.
  - destruct werr as [e|]; [|discriminate]. injection Hexec as <- _.
    cbn [after remote].
    pose proof (refused_write _ (Hlaw _ Hcl) _ _ _ _ _ _ _ Hput) as ->.
    pose proof (get_readonly _ (Hlaw _ Hcl) (remote w) (rgOf d) (VnetName (cfg d))
                  (SubnetName (cfg d)) "") as Hro.
    by rewrite Hget in Hro.
Qed.

(** The write changes nothing but the endpoint list.  The subnet given to
    [CreateOrUpdate] has the name, the etag and the id of the fetched
    subnet and the address prefix of its properties; its endpoints are the
    fetched ones, in their order, followed by the new one. *)
Theorem updateSubnetServiceEndpoints_write_frame d w cl r subnet :
  SubnetsClient (cloud d) = Some cl →
  keyOf d ∉ held w →
  subnetclient.Get cl (remote w) (rgOf d) (VnetName (cfg d)) (SubnetName (cfg d)) ""
    = (r, (subnet, None)) →
  ¬ storageServicePresent (serviceEndpointsOf subnet) →
  ∃ w' err s props,
    exec fmt_v d w = Returned w' err ∧
    filter isRemoteWrite (trace w') =
      filter isRemoteWrite (trace w) ++
      [EvCreateOrUpdate (rgOf d) (VnetName (cfg d)) (SubnetName (cfg d)) s] ∧
    network.Name s = network.Name subnet ∧
    network.Etag s = network.Etag subnet ∧
    network.ID s = network.ID subnet ∧
    network.Subnet_SubnetPropertiesFormat s = Some props ∧
    network.AddressPrefix props =
      network.AddressPrefix
        (default network.emptySubnetPropertiesFormat
           (network.Subnet_SubnetPropertiesFormat subnet)) ∧
    network.ServiceEndpoints props =
      Some (serviceEndpointsOf subnet ++ [storageServiceEndpointAt (Location (cfg d))]).
Proof.
  intros Hcl Hk Hget Habs. apply rangeServiceEndpoints_absent in Habs.
  destruct (subnetclient.CreateOrUpdate cl r (rgOf d) (VnetName (cfg d))
              (SubnetName (cfg d)) (written d subnet)) as [r' werr] eqn:Hput.
  eexists _, _, (written d subnet), _.
  split; [by eapply exec_absent|].
  split; [|repeat split].
  cbn [after trace lockedCalls]. by rewrite filter_app.
Qed.

(** Every remote call of an invocation addresses the one subnet of the
    driver: the virtual network and the subnet of the configuration, in the
    resource group of the virtual network when one is configured and in the
    resource group of the cluster otherwise; [Get] expands nothing. *)
Theorem updateSubnetServiceEndpoints_addresses d w w' err :
  exec fmt_v d w = Returned w' err →
  ∃ calls,
    trace w' = trace w ++ calls ∧
    ∀ e, In e calls → isRemoteCall e = true →
      ∃ rg, (VnetResourceGroup (cfg d) ≠ "" → rg = VnetResourceGroup (cfg d)) ∧
            (VnetResourceGroup (cfg d) = "" → rg = ResourceGroup (cfg d)) ∧
            (e = EvGet rg (VnetName (cfg d)) (SubnetName (cfg d)) "" ∨
             ∃ s, e = EvCreateOrUpdate rg (VnetName (cfg d)) (SubnetName (cfg d)) s).
Proof.
  intros Hexec.
  assert (∀ calls e, In e (lockedCalls (keyOf d) calls) → isRemoteCall e = true →
                     In e calls) as Hin.
  { intros calls e [<-|Hin]; [done|].
    apply in_app_or in Hin as [Hin|[<-|[]]]; done. }
  destruct (effectiveResourceGroup_spec (cfg d)) as [Hset Hunset].
  destruct (exec_cases fmt_v d w) as
    [[_ H]|[(_ & _ & H)|(cl & r & subnet & gerr & Hcl & _ & Hget &
      [(e & _ & H)|[(-> & Hex & H)|(-> & Hex & r' & werr & Hput & H)]])]];
    rewrite H in Hexec; try discriminate; injection Hexec as <- _.
  - exists []. by rewrite app_nil_r.
  - eexists. split; [reflexivity|]. intros ev Hev Hcall.
    apply Hin in Hev as [<-|[]]; [|done]. exists (rgOf d). eauto.
  - eexists. split; [reflexivity|]. intros ev Hev Hcall.
    apply Hin in Hev as [<-|[]]; [|done]. exists (rgOf d). eauto.
  - eexists. split; [reflexivity|]. intros ev Hev Hcall.
    apply Hin in Hev as [<-|[<-|[]]]; [| |done]; exists (rgOf d);
      split; [done| |done|]; (split; [done|]); [by left|right; by eexists].
Qed.

End Ensures.

(** The subnet with no properties is written and reads back with the
    endpoint. *)
Lemma updateSubnetServiceEndpoints_ensures_endpoint_witness :
  ∃ w' s,
    exec Error scenario.eastusDriver scenario.bareWorld = Returned w' None ∧
    subnetclient.Get memclient.client (remote w') "rg" "vnet" "sn" ""
      = (remote w', (s, None)) ∧
    storageServicePresent (serviceEndpointsOf s).
Proof.
  eexists.
  assert (exec Error scenario.eastusDriver scenario.bareWorld = Returned _ None) as Hexec
    by reflexivity.
  destruct (updateSubnetServiceEndpoints_ensures_endpoint Error scenario.eastusDriver
              scenario.bareWorld memclient.client _ eq_refl memclient_StoresSubnets Hexec)
    as (s & Hget & Hpres).
  exists s. split; [exact Hexec|]. split; [exact Hget|exact Hpres].
Defined.

(** The API refuses the write; the remote state is as before. *)
Lemma updateSubnetServiceEndpoints_error_no_change_witness :
  ∃ w' err,
    exec Error scenario.eastusDriver scenario.readonlyWorld = Returned w' (Some err) ∧
    remote w' = remote scenario.readonlyWorld.
Proof.
  eexists _, _.
  assert (exec Error scenario.eastusDriver scenario.readonlyWorld
          = Returned _ (Some _)) as Hexec by reflexivity.
  split; [exact Hexec|].
  eapply (updateSubnetServiceEndpoints_error_no_change Error scenario.eastusDriver
            scenario.readonlyWorld); [|exact Hexec].
  intros cl [= <-]. apply memclient_StoresSubnets.
Defined.

(** The subnet with no properties keeps its name. *)
Lemma updateSubnetServiceEndpoints_write_frame_witness :
  (keyOf scenario.eastusDriver ∉ held scenario.bareWorld) ∧
  ¬ storageServicePresent (serviceEndpointsOf scenario.bareSubnet) ∧
  ∃ w' err s,
    exec Error scenario.eastusDriver scenario.bareWorld = Returned w' err ∧
    filter isRemoteWrite (trace w') = [EvCreateOrUpdate "rg" "vnet" "sn" s] ∧
    network.Name s = Some "sn".
Proof.
  assert (¬ storageServicePresent (serviceEndpointsOf scenario.bareSubnet)) as Habs
    by (by intros (v & [] & _)).
  split; [apply scenario_key_free|]. split; [exact Habs|].
  destruct (updateSubnetServiceEndpoints_write_frame Error scenario.eastusDriver
              scenario.bareWorld memclient.client
              (scenario.remoteWith scenario.bareSubnet false) scenario.bareSubnet)
    as (w' & err & s & props & Hexec & Hwrites & Hname & _).
  - reflexivity.
  - apply scenario_key_free.
  - apply scenario_Get.
  - exact Habs.
  - by exists w', err, s.
Defined.

(** The calls of the run on the subnet with no properties. *)
Lemma updateSubnetServiceEndpoints_addresses_witness :
  ∃ w' calls,
    exec Error scenario.eastusDriver scenario.bareWorld = Returned w' None ∧
    trace w' = trace scenario.bareWorld ++ calls ∧
    ∀ e, In e calls → isRemoteCall e = true →
         e = EvGet "rg" "vnet" "sn" "" ∨ ∃ s, e = EvCreateOrUpdate "rg" "vnet" "sn" s.
Proof.
  eexists.
  assert (exec Error scenario.eastusDriver scenario.bareWorld = Returned _ None) as Hexec
    by reflexivity.
  destruct (updateSubnetServiceEndpoints_addresses Error _ _ _ _ Hexec)
    as (calls & Htrace & Hcalls).
  exists calls. split; [exact Hexec|]. split; [exact Htrace|].
  intros e Hin Hcall. destruct (Hcalls e Hin Hcall) as (rg & _ & Hrg & He).
  rewrite (Hrg eq_refl) in He. exact He.
Defined.

(** ** The lock key does not tell subnets apart *)

Lemma string_app_assoc (a b c : string) : (a +:+ b) +:+ c = a +:+ b +:+ c.
Proof.
  induction a as [|x a IH]; [reflexivity|].
  change ((String x a +:+ b) +:+ c) with (String x ((a +:+ b) +:+ c)).
  change (String x a +:+ b +:+ c) with (String x (a +:+ b +:+ c)).
  by rewrite IH.
Qed.

Lemma string_app_length (a b : string) :
  String.length (a +:+ b) = String.length a + String.length b.
Proof.
  induction a as [|x a IH]; [reflexivity|].
  change (String x a +:+ b) with (String x (a +:+ b)). cbn. by rewrite IH.
Qed.

Section Collision.
Context {RetryError R Clientset : Type}.
Variable fmt_v : RetryError → string.
Implicit Types (d : Driver Clientset (subnetclient.Interface R RetryError)).

(** The key is a concatenation with no separator.  When the virtual
    network name of one driver starts with characters that end the
    resource group of another, and the rest agrees, the two drivers are on
    different subnets and have the same lock key: an invocation of the one
    waits while an invocation of the other is in its critical section. *)
Theorem updateSubnetServiceEndpoints_key_collision d1 d2 a r :
  is_Some (SubnetsClient (cloud d1)) → is_Some (SubnetsClient (cloud d2)) →
  a ≠ "" →
  rgOf d2 = rgOf d1 +:+ a →
  VnetName (cfg d1) = a +:+ VnetName (cfg d2) →
  SubnetName (cfg d2) = SubnetName (cfg d1) →
  VnetName (cfg d1) ≠ VnetName (cfg d2) ∧
  keyOf d1 = keyOf d2 ∧
  ∃ P, runSchedule [0] (spawn fmt_v [d1; d2] r) = Some P ∧
       holdsEntry (p_trace P) 0 = Some (keyOf d1) ∧
       stepOf 1 P = None.
Proof.
  intros [cl1 Hcl1] [cl2 Hcl2] Ha Hrg Hvnet Hsn.
  assert (keyOf d1 = keyOf d2) as Hkey.
  { unfold lockKeyOf. by rewrite Hrg, Hvnet, Hsn, !string_app_assoc. }
  split; [|split; [exact Hkey|]].
  - rewrite Hvnet. intros Heq. apply (f_equal String.length) in Heq.
    rewrite string_app_length in Heq. destruct a; [done|]. cbn in Heq. lia.
  - destruct (updateSubnetServiceEndpoints_Inside fmt_v d1 cl1 Hcl1)
      as (body1 & Hprog1 & _).
    destruct (updateSubnetServiceEndpoints_Inside fmt_v d2 cl2 Hcl2)
      as (body2 & Hprog2 & _).
    cbn [runSchedule]. unfold stepOf at 1. cbn [spawn p_goroutines fmap list_fmap lookup].
    cbn. rewrite Hprog1. rewrite LockEntry_free by apply not_elem_of_empty.
    eexists. split; [reflexivity|]. split; [reflexivity|].
    unfold stepOf. cbn. rewrite Hprog2, <- Hkey.
    rewrite LockEntry_held; [done|]. apply elem_of_union_l. by apply elem_of_singleton.
Qed.

End Collision.

(** Subnet [sn] of network [vnet] in group [rg], and subnet [sn] of network
    [net] in group [rgv]. *)
Lemma updateSubnetServiceEndpoints_key_collision_witness :
  keyOf (cases.driverAt "rg" "vnet" "sn") = keyOf (cases.driverAt "rgv" "net" "sn") ∧
  ∃ P, runSchedule [0]
         (spawn Error [cases.driverAt "rg" "vnet" "sn"; cases.driverAt "rgv" "net" "sn"]
            (scenario.remoteWith scenario.bareSubnet false)) = Some P ∧
       stepOf 1 P = None.
Proof.
  destruct (updateSubnetServiceEndpoints_key_collision Error
              (cases.driverAt "rg" "vnet" "sn") (cases.driverAt "rgv" "net" "sn") "v"
              (scenario.remoteWith scenario.bareSubnet false))
    as (_ & Hkey & P & Hrun & _ & Hwait); try done; try by eexists.
  split; [exact Hkey|]. by exists P.
Defined.

(** ** The paths of the bootstrap *)

Section BootstrapPaths.
Context {Clientset SubnetsClientT RestConfig File : Type}.
Implicit Types (env : Env Clientset SubnetsClientT RestConfig File).
Implicit Types (az a : Cloud Clientset SubnetsClientT).

Lemma configIncomplete_false az :
  configIncomplete az = false ↔
  TenantID (Cloud_Config az) ≠ "" ∧ SubscriptionID (Cloud_Config az) ≠ "" ∧
  ResourceGroup (Cloud_Config az) ≠ "".
Proof.
  unfold configIncomplete. rewrite !orb_false_iff, !String.eqb_neq. tauto.
Qed.

(** A nil cloud after lines 69-91 is the nil cloud that
    [NewCloudWithoutFeatureGates] made of the one file that was opened. *)
Lemma readCloudConfigFromFile_nil env az err opened e :
  readCloudConfigFromFile env az err = (opened, (None, e)) →
  configIncomplete az = true ∧
  ∃ credFile config,
    opened = [credFile] ∧ os_Open env credFile = (config, None) ∧
    NewCloudWithoutFeatureGates env config false = (None, e).
Proof.
  unfold readCloudConfigFromFile. destruct (configIncomplete az); [|done].
  destruct (os_LookupEnv env DefaultAzureCredentialFileEnv) as [p ok].
  set (credFile := if ok then p else _).
  destruct (os_Open env credFile) as [config [eo|]] eqn:Hopen; cbn [isSome]; [done|].
  intros Hnew. split; [done|]. exists credFile, config.
  destruct (NewCloudWithoutFeatureGates env config false) as [c e'].
  by injection Hnew as <- -> ->.
Qed.

(** When the secret gives the tenant, the subscription and the resource
    group, [getCloudProvider] opens no file and returns, with a nil error,
    the cloud the secret filled in: its configuration up to
    [UseInstanceMetadata], its secret configuration and its subnets
    client. *)
Theorem getCloudProvider_secret_complete env
    kubeconfig nodeID secretName secretNamespace userAgent kubeClient az err :
  readCloudConfigFromSecret env kubeconfig secretName secretNamespace userAgent
    = SecretRead kubeClient az err →
  TenantID (Cloud_Config az) ≠ "" → SubscriptionID (Cloud_Config az) ≠ "" →
  ResourceGroup (Cloud_Config az) ≠ "" →
  ∃ a, getCloudProvider env kubeconfig nodeID secretName secretNamespace userAgent
         = ([], Returns (Some a, None)) ∧
       set_UseInstanceMetadata (Cloud_Config a) false
         = set_UseInstanceMetadata (Cloud_Config az) false ∧
       Cloud_InitSecretConfig a = Cloud_InitSecretConfig az ∧
       SubnetsClient a = SubnetsClient az ∧
       (nodeID ≠ "" ∨ err ≠ None →
        UseInstanceMetadata (Cloud_Config a) = UseInstanceMetadata (Cloud_Config az)).
Proof.
  intros Hsecret Ht Hs Hr.
  assert (configIncomplete az = false) as Hc by (by apply configIncomplete_false).
  unfold getCloudProvider, loadCloudConfig, readCloudConfigFromFile.
  rewrite Hsecret, Hc.
  destruct kubeClient as [k|]; [destruct (KubeClient az)|];
    (destruct (String.eqb nodeID "") eqn:Hnode;
     [apply String.eqb_eq in Hnode; destruct err|]);
    eexists; (split; [reflexivity|]); repeat split; try done;
    intros [?|?]; done.
Qed.


(** When the client set was built and [getCloudProvider] returns a cloud
    with a nil error, the cloud has a Kubernetes client, whatever the
    libraries did to that field. *)
Theorem getCloudProvider_KubeClient env
    kubeconfig nodeID secretName secretNamespace userAgent opened a :
  fst (getKubeClient env kubeconfig) ≠ None →
  getCloudProvider env kubeconfig nodeID secretName secretNamespace userAgent
    = (opened, Returns (Some a, None)) →
  KubeClient a ≠ None.
Proof.
  intros Hkc. unfold getCloudProvider, loadCloudConfig, readCloudConfigFromSecret.
  destruct (getKubeClient env kubeconfig) as [[k|] err0]; [|done]. clear Hkc.
  destruct (isSome err0 && negb (os.IsNotExist err0) && negb (isErrNotInCluster err0));
    [done|].
  destruct (InitializeCloudFromSecret env _) as [az1 err1].
  destruct (readCloudConfigFromFile env az1 err1) as [o [[a2|] err2]]; [|done].
  destruct (KubeClient a2) as [k2|] eqn:Hk2;
    destruct (String.eqb nodeID ""); try destruct err2;
    intros [= <- <-]; cbn; congruence.
Qed.

(** [getCloudProvider] panics in one situation only: the credential file
    was opened, [NewCloudWithoutFeatureGates] made a nil cloud of it, and
    either the client set had been built (line 94 reads the cloud) or the
    library returned no error either and the node id is empty (line 108
    writes into the cloud). *)
Theorem getCloudProvider_panics env
    kubeconfig nodeID secretName secretNamespace userAgent :
  (∃ msg, snd (getCloudProvider env kubeconfig nodeID secretName secretNamespace userAgent)
          = Panics msg) ↔
  (∃ kubeClient az err opened e,
     readCloudConfigFromSecret env kubeconfig secretName secretNamespace userAgent
       = SecretRead kubeClient az err ∧
     readCloudConfigFromFile env az err = (opened, (None, e)) ∧
     (kubeClient ≠ None ∨ (nodeID = "" ∧ e = None))).
Proof.
  unfold getCloudProvider, loadCloudConfig.
  destruct (readCloudConfigFromSecret env kubeconfig secretName secretNamespace userAgent)
    as [az0 err0|kubeClient az err].
  { split; [by intros [msg [=]]|]. by intros (? & ? & ? & ? & ? & [=] & _). }
  destruct (readCloudConfigFromFile env az err) as [opened [[a|] e]] eqn:Hfile.
  - split.
    + destruct kubeClient; [destruct (KubeClient a)|];
        destruct (String.eqb nodeID ""); try destruct e; by intros [msg [=]].
    + intros (? & ? & ? & ? & ? & [= <- <- <-] & Hf & _). congruence.
  - split.
    + intros [msg Hp]. exists kubeClient, az, err, opened, e.
      split; [done|]. split; [done|].
      destruct kubeClient as [k|]; [by left|right].
      destruct (String.eqb nodeID "") eqn:Hnode; [|done].
      apply String.eqb_eq in Hnode. by destruct e.
    + intros (kc & az' & err' & o & e' & [= <- <- <-] & Hf & Hor).
      rewrite Hfile in Hf. injection Hf as <- <-.
      destruct kubeClient as [k|]; [by eexists|].
      destruct Hor as [?|[-> ->]]; [done|]. by eexists.
Qed.

(** When the credential file is read, the cloud returned is the one the
    library made of the file: the user agent and the secret name and
    namespace given to [getCloudProvider] are not in it unless the file
    puts them there. *)
Theorem getCloudProvider_file_replaces env
    kubeconfig nodeID secretName secretNamespace userAgent kubeClient az err
    credFile config a e :
  readCloudConfigFromSecret env kubeconfig secretName secretNamespace userAgent
    = SecretRead kubeClient az err →
  fst (readCloudConfigFromFile env az err) = [credFile] →
  os_Open env credFile = (config, None) →
  NewCloudWithoutFeatureGates env config false = (Some a, e) →
  ∃ a', getCloudProvider env kubeconfig nodeID secretName secretNamespace userAgent
          = ([credFile], Returns (Some a', None)) ∧
        UserAgent (Cloud_Config a') = UserAgent (Cloud_Config a) ∧
        Cloud_InitSecretConfig a' = Cloud_InitSecretConfig a ∧
        set_UseInstanceMetadata (Cloud_Config a') false
          = set_UseInstanceMetadata (Cloud_Config a) false.
Proof.
  intros Hsecret Hopened Hopen Hnew.
  assert (readCloudConfigFromFile env az err = ([credFile], (Some a, e))) as Hfile.
  { revert Hopened. unfold readCloudConfigFromFile.
    destruct (configIncomplete az); [|done].
    destruct (os_LookupEnv env DefaultAzureCredentialFileEnv) as [p ok].
    set (f := if ok then p else _).
    destruct (os_Open env f) as [config' [eo|]] eqn:Hopen'; cbn [isSome fst];
      intros [= Hf]; rewrite Hf in Hopen'; rewrite Hopen in Hopen'; [done|].
    injection Hopen' as <-. by rewrite Hf, Hnew. }
  unfold getCloudProvider, loadCloudConfig. rewrite Hsecret, Hfile.
  destruct kubeClient as [k|]; [destruct (KubeClient a)|];
    destruct (String.eqb nodeID ""); try destruct e; by eexists.
Qed.

End BootstrapPaths.

(** Inside a cluster with a complete secret: no file, the user agent of
    the call, the client set reassigned. *)
Lemma getCloudProvider_secret_complete_witness :
  ∃ a, getCloudProvider startup.secret "" "node-0" "azure-cloud-provider" "kube-system" "ua"
         = ([], Returns (Some a, None)) ∧
       UserAgent (Cloud_Config a) = "ua" ∧
       SecretName (Cloud_InitSecretConfig a) = "azure-cloud-provider" ∧
       UseInstanceMetadata (Cloud_Config a) = true.
Proof.
  destruct (getCloudProvider_secret_complete startup.secret
              "" "node-0" "azure-cloud-provider" "kube-system" "ua" (Some tt)
              (startup.fromSecret
                 (mkCloud (set_UserAgent zeroConfig "ua")
                    (mkInitSecretConfig "azure-cloud-provider" "kube-system" "cloud-config")
                    (Some tt) None))
              None eq_refl)
    as (a & Hret & Hcfg & Hsecret & _ & Hmeta); try done.
  exists a. split; [exact Hret|]. split; [|split].
  - by apply (f_equal UserAgent) in Hcfg.
  - by rewrite Hsecret.
  - rewrite Hmeta; [done|]. by left.
Defined.


(** The library cleared the client of the cloud it filled in; the cloud
    returned has one. *)
Lemma getCloudProvider_KubeClient_witness :
  fst (getKubeClient startup.secret "") = Some tt ∧
  ∃ opened a,
    getCloudProvider startup.secret "" "" "azure-cloud-provider" "kube-system" "ua"
      = (opened, Returns (Some a, None)) ∧
    KubeClient a ≠ None.
Proof.
  split; [reflexivity|]. eexists _, _.
  assert (getCloudProvider startup.secret "" "" "azure-cloud-provider" "kube-system" "ua"
          = (_, Returns (Some _, None))) as Hret by reflexivity.
  split; [exact Hret|].
  by apply (getCloudProvider_KubeClient startup.secret _ _ _ _ _ _ _) in Hret.
Defined.

(** The caller's user agent and secret name are gone: the cloud is the
    one of the file. *)
Lemma getCloudProvider_file_replaces_witness :
  ∃ a', getCloudProvider bootstrap.goodFile "" "node-0" "azure-cloud-provider" "kube-system"
          "azurefile-csi-driver"
          = (["/etc/kubernetes/azure.json"], Returns (Some a', None)) ∧
        UserAgent (Cloud_Config a') = "ua" ∧
        SecretName (Cloud_InitSecretConfig a') = "".
Proof.
  destruct (getCloudProvider_file_replaces bootstrap.goodFile
              "" "node-0" "azure-cloud-provider" "kube-system" "azurefile-csi-driver"
              None
              (mkCloud (set_UserAgent zeroConfig "azurefile-csi-driver")
                 (mkInitSecretConfig "azure-cloud-provider" "kube-system" "cloud-config")
                 None None)
              (Some ErrNotInCluster)
              "/etc/kubernetes/azure.json" bootstrap.wellFormed bootstrap.fileCloud None
              eq_refl eq_refl eq_refl eq_refl)
    as (a' & Hret & Hua & Hsecret & _).
  exists a'. split; [exact Hret|]. split; [by rewrite Hua|by rewrite Hsecret].
Defined.

(** ** Concurrent invocations run to completion *)

Section Completion.
Context {RetryError R Clientset : Type}.
Variable fmt_v : RetryError → string.
Implicit Types (d : Driver Clientset (subnetclient.Interface R RetryError)).
Implicit Types (ds : list (Driver Clientset (subnetclient.Interface R RetryError))).
Implicit Types (P : Pool RetryError R).

Lemma runSchedule_app (s1 s2 : list nat) P :
  runSchedule (s1 ++ s2) P =
  match runSchedule s1 P with
  | Some P1 => runSchedule s2 P1
  | None => None
  end.
Proof.
  revert P. induction s1 as [|i s1 IH]; intros P; cbn; [done|].
  by destruct (stepOf i P).
Qed.

(** A step of goroutine [i] leaves the others and their events alone. *)
Lemma stepOf_others i P P' :
  stepOf i P = Some P' →
  ∀ j, j ≠ i → p_goroutines P' !! j = p_goroutines P !! j ∧
               eventsOf j (p_trace P') = eventsOf j (p_trace P).
Proof.
  unfold stepOf. intros Hstep j Hne.
  assert (∀ g r h e next,
            p_goroutines (advance P i g r h e next) !! j = p_goroutines P !! j ∧
            eventsOf j (p_trace (advance P i g r h e next)) = eventsOf j (p_trace P))
    as Hadv.
  { intros. cbn [advance p_goroutines p_trace].
    rewrite list_lookup_insert_ne by done. by rewrite eventsOf_snoc_other. }
  destruct (p_goroutines P !! i) as [g|]; [|done].
  destruct (g_prog g) as [a|msg|entry next|entry next|rg vnet sn expand next
                          |rg vnet sn param next]; try done.
  - destruct (lockMap.LockEntry (p_held P) entry); [|done].
    injection Hstep as <-. apply Hadv.
  - injection Hstep as <-. apply Hadv.
  - destruct (g_client g) as [c|].
    + destruct (subnetclient.Get c (p_remote P) rg vnet sn expand).
      injection Hstep as <-. apply Hadv.
    + injection Hstep as <-. apply Hadv.
  - destruct (g_client g) as [c|].
    + destruct (subnetclient.CreateOrUpdate c (p_remote P) rg vnet sn param).
      injection Hstep as <-. apply Hadv.
    + injection Hstep as <-. apply Hadv.
Qed.

Lemma runSchedule_replicate_others n i P P' :
  runSchedule (replicate n i) P = Some P' →
  ∀ j, j ≠ i → p_goroutines P' !! j = p_goroutines P !! j ∧
               eventsOf j (p_trace P') = eventsOf j (p_trace P).
Proof.
  revert P. induction n as [|n IH]; intros P; cbn.
  - by intros [= <-].
  - destruct (stepOf i P) as [P1|] eqn:Hstep; [|done].
    intros Hrun j Hne.
    destruct (IH _ Hrun j Hne) as [-> ->]. by apply (stepOf_others i).
Qed.

(** A goroutine in its critical section finishes when it is scheduled
    alone: none of its calls waits. *)
Lemma Inside_finishes entry (p : Prog (option error)) :
  Inside entry p →
  ∀ P i cl, p_goroutines P !! i = Some (mkGoroutine (Some cl) p) →
  ∃ n P' p', runSchedule (replicate n i) P = Some P' ∧
             p_goroutines P' !! i = Some (mkGoroutine (Some cl) p') ∧ finished p'.
Proof.
  induction 1 as [a|msg|rg vnet sn expand next _ IH|rg vnet sn param next _ IH];
    intros P i cl Hg.
  - exists 1. eexists _, (Ret a). cbn. unfold stepOf. rewrite Hg. cbn.
    split; [reflexivity|]. split; [|done]. cbn [advance p_goroutines].
    rewrite list_lookup_insert_eq; [done|]. by eapply lookup_lt_Some.
  - exists 1. eexists _, (Panic msg). cbn. unfold stepOf. rewrite Hg. cbn.
    split; [reflexivity|]. split; [|done]. cbn [advance p_goroutines].
    rewrite list_lookup_insert_eq; [done|]. by eapply lookup_lt_Some.
  - destruct (subnetclient.Get cl (p_remote P) rg vnet sn expand) as [r res] eqn:Hget.
    edestruct (IH res (advance P i (mkGoroutine (Some cl)
                                      (SubnetsClient_Get rg vnet sn expand next))
                         r (p_held P) (EvGet rg vnet sn expand) (next res)) i cl)
      as (n & P' & p' & Hrun & Hg' & Hfin).
    { cbn [advance p_goroutines].
      rewrite list_lookup_insert_eq; [done|]. by eapply lookup_lt_Some. }
    exists (S n), P', p'. split; [|done].
    cbn. unfold stepOf. rewrite Hg. cbn. by rewrite Hget.
  - destruct (subnetclient.CreateOrUpdate cl (p_remote P) rg vnet sn param)
      as [r res] eqn:Hput.
    edestruct (IH res (advance P i (mkGoroutine (Some cl)
                                      (SubnetsClient_CreateOrUpdate rg vnet sn param next))
                         r (p_held P) (EvCreateOrUpdate rg vnet sn param) (next res)) i cl)
      as (n & P' & p' & Hrun & Hg' & Hfin).
    { cbn [advance p_goroutines].
      rewrite list_lookup_insert_eq; [done|]. by eapply lookup_lt_Some. }
    exists (S n), P', p'. split; [|done].
    cbn. unfold stepOf. rewrite Hg. cbn. by rewrite Hput.
Qed.

Lemma Inside_unfinished entry (p : Prog (RetryError := RetryError) (option error)) :
  Inside entry p → ¬ finished p.
Proof. intros [] Hfin; exact Hfin. Qed.

(** A goroutine that has finished holds nothing. *)
Lemma PoolInvariant_finished_idle ds P i g :
  PoolInvariant fmt_v ds P → p_goroutines P !! i = Some g → finished (g_prog g) →
  holdsEntry (p_trace P) i = None.
Proof.
  intros Hinv Hg Hfin.
  destruct (ds !! i) as [d|] eqn:Hd.
  - destruct (inv_goroutines _ _ _ Hinv i d Hd) as (g' & Hg' & _ & Hphase).
    rewrite Hg in Hg'. injection Hg' as <-. unfold holdsEntry.
    destruct Hphase as [_ ->|calls _ Hinside _ _|calls _ -> Hcalls].
    + done.
    + by destruct (Inside_unfinished _ _ Hinside).
    + cbn. rewrite fold_left_app. done.
  - destruct (inv_strangers _ _ _ Hinv i Hd) as [_ Hnone].
    unfold holdsEntry. by rewrite Hnone.
Qed.

Lemma holdsEntry_eventsOf t t' i :
  eventsOf i t' = eventsOf i t → holdsEntry t' i = holdsEntry t i.
Proof. unfold holdsEntry. by intros ->. Qed.


(** The goroutines in their critical sections can be run out of them, one
    after the other. *)
Lemma release_upto ds P n :
  PoolInvariant fmt_v ds P →
  ∃ sched P', runSchedule sched P = Some P' ∧
              ∀ i, i < n → holdsEntry (p_trace P') i = None.
Proof.
  intros Hinv. induction n as [|n (sched & P1 & Hrun & Hquiet)].
  { exists [], P. split; [done|]. intros i Hi. lia. }
  pose proof (runSchedule_invariant fmt_v ds _ _ _ Hinv Hrun) as Hinv1.
  destruct (holdsEntry (p_trace P1) n) as [entry|] eqn:Hholds.
  - destruct (ds !! n) as [d|] eqn:Hd.
    + destruct (inv_goroutines _ _ _ Hinv1 n d Hd) as (g & Hg & Hclient & Hphase).
      destruct Hphase as [_ Hevs|calls [cl Hcl] Hinside _ _|calls _ Hevs Hcalls].
      * unfold holdsEntry in Hholds. by rewrite Hevs in Hholds.
      * destruct g as [client p]. cbn in Hclient, Hinside. rewrite Hcl in Hclient.
        subst client.
        destruct (Inside_finishes _ _ Hinside P1 n cl Hg)
          as (m & P2 & p' & Hrun2 & Hg2 & Hfin).
        exists (sched ++ replicate m n), P2. split.
        { by rewrite runSchedule_app, Hrun. }
        intros i Hi. destruct (decide (i = n)) as [->|Hne].
        -- eapply PoolInvariant_finished_idle; [|exact Hg2|exact Hfin].
           by eapply runSchedule_invariant.
        -- destruct (runSchedule_replicate_others _ _ _ _ Hrun2 i Hne) as [_ Hevs].
           rewrite (holdsEntry_eventsOf _ _ _ Hevs). apply Hquiet. lia.
      * unfold holdsEntry in Hholds. rewrite Hevs in Hholds. cbn in Hholds.
        rewrite fold_left_app in Hholds. done.
    + destruct (inv_strangers _ _ _ Hinv1 n Hd) as [_ Hnone].
      unfold holdsEntry in Hholds. by rewrite Hnone in Hholds.
  - exists sched, P1. split; [done|]. intros i Hi.
    destruct (decide (i = n)) as [->|Hne]; [done|]. apply Hquiet. lia.
Qed.

(** With no entry held, the goroutines can be run to their ends, one
    after the other. *)
Lemma complete_upto ds P n :
  PoolInvariant fmt_v ds P → (∀ i, holdsEntry (p_trace P) i = None) →
  ∃ sched P', runSchedule sched P = Some P' ∧
              (∀ i, holdsEntry (p_trace P') i = None) ∧
              ∀ i g, i < n → p_goroutines P' !! i = Some g → finished (g_prog g).
Proof.
  intros Hinv Hidle. induction n as [|n (sched & P1 & Hrun & Hidle1 & Hdone)].
  { exists [], P. split; [done|]. split; [done|]. intros i g Hi. lia. }
  pose proof (runSchedule_invariant fmt_v ds _ _ _ Hinv Hrun) as Hinv1.
  assert (∀ P2 (s2 : list nat),
            runSchedule s2 P1 = Some P2 →
            (∀ j, j ≠ n → p_goroutines P2 !! j = p_goroutines P1 !! j ∧
                          eventsOf j (p_trace P2) = eventsOf j (p_trace P1)) →
            (∀ g, p_goroutines P2 !! n = Some g → finished (g_prog g)) →
            ∃ sched' P', runSchedule sched' P = Some P' ∧
              (∀ i, holdsEntry (p_trace P') i = None) ∧
              ∀ i g, i < S n → p_goroutines P' !! i = Some g → finished (g_prog g))
    as Hclose.
  { intros P2 s2 Hrun2 Hothers Hfin.
    pose proof (runSchedule_invariant fmt_v ds _ _ _ Hinv1 Hrun2) as Hinv2.
    exists (sched ++ s2), P2. split; [by rewrite runSchedule_app, Hrun|]. split.
    - intros i. destruct (decide (i = n)) as [->|Hne].
      + destruct (p_goroutines P2 !! n) as [g|] eqn:Hg.
        * eapply PoolInvariant_finished_idle; eauto.
        * destruct (ds !! n) as [d|] eqn:Hd.
          -- destruct (inv_goroutines _ _ _ Hinv2 n d Hd) as (g & Hg' & _). congruence.
          -- destruct (inv_strangers _ _ _ Hinv2 n Hd) as [_ Hnone].
             unfold holdsEntry. by rewrite Hnone.
      + destruct (Hothers i Hne) as [_ Hevs].
        by rewrite (holdsEntry_eventsOf _ _ _ Hevs).
    - intros i g Hi Hg. destruct (decide (i = n)) as [->|Hne]; [by apply Hfin|].
      destruct (Hothers i Hne) as [Hsame _]. rewrite Hsame in Hg.
      eapply Hdone; [|exact Hg]. lia. }
  destruct (p_goroutines P1 !! n) as [g|] eqn:Hg.
  2: { apply (Hclose P1 []); [done|done|]. intros g. by rewrite Hg. }
  destruct (ds !! n) as [d|] eqn:Hd.
  2: { destruct (inv_strangers _ _ _ Hinv1 n Hd) as [Hnone _]. congruence. }
  destruct (inv_goroutines _ _ _ Hinv1 n d Hd) as (g' & Hg' & Hclient & Hphase).
  rewrite Hg in Hg'. injection Hg' as <-.
  destruct Hphase as [Hprog Hevs|calls _ _ Hevs Hcalls|calls Hfin _ _].
  - destruct (SubnetsClient (cloud d)) as [cl|] eqn:Hcl.
    + (* not started: take the lock, which is free, and run to the end *)
      destruct (updateSubnetServiceEndpoints_Inside fmt_v d cl Hcl)
        as (body & Hbody & Hinside).
      destruct g as [client p]. cbn in Hclient, Hprog. subst client p.
      assert (keyOf d ∉ p_held P1) as Hfree.
      { intros Hin. apply (inv_held _ _ _ Hinv1) in Hin as [j Hj].
        by rewrite Hidle1 in Hj. }
      assert (stepOf n P1 =
              Some (advance P1 n (mkGoroutine (Some cl) (updateSubnetServiceEndpoints fmt_v d))
                      (p_remote P1) ({[keyOf d]} ∪ p_held P1) (EvLockEntry (keyOf d)) body))
        as Hstep.
      { unfold stepOf. rewrite Hg. cbn [g_prog]. rewrite Hbody.
        by rewrite (LockEntry_free _ _ Hfree). }
      edestruct (Inside_finishes _ _ Hinside
                   (advance P1 n (mkGoroutine (Some cl) (updateSubnetServiceEndpoints fmt_v d))
                      (p_remote P1) ({[keyOf d]} ∪ p_held P1) (EvLockEntry (keyOf d)) body)
                   n cl) as (m & P2 & p' & Hrun2 & Hg2 & Hfin).
      { cbn [advance p_goroutines].
        rewrite list_lookup_insert_eq; [done|]. by eapply lookup_lt_Some. }
      apply (Hclose P2 (n :: replicate m n)).
      * cbn [runSchedule]. by rewrite Hstep.
      * intros j Hne.
        destruct (runSchedule_replicate_others _ _ _ _ Hrun2 j Hne) as [-> ->].
        by apply (stepOf_others n).
      * intros g2. rewrite Hg2. by intros [= <-].
    + apply (Hclose P1 []); [done|done|].
      intros g2. rewrite Hg. intros [= <-]. rewrite Hprog.
      by apply updateSubnetServiceEndpoints_nil_client.
  - specialize (Hidle1 n). unfold holdsEntry in Hidle1. rewrite Hevs in Hidle1.
    cbn in Hidle1. by rewrite fold_left_heldAfter_remote_calls in Hidle1.
  - apply (Hclose P1 []); [done|done|].
    intros g2. rewrite Hg. by intros [= <-].
Qed.

(** The function has no panic in it: every pointer it reads through has
    been set. *)
Lemma updateSubnetServiceEndpoints_PanicFree d :
  PanicFree (updateSubnetServiceEndpoints fmt_v d).
Proof.
  unfold updateSubnetServiceEndpoints.
  destruct (SubnetsClient (cloud d)) as [cl|]; [|apply PanicFree_ret].
  apply PanicFree_lock. cbn [defer]. apply PanicFree_get.
  intros [subnet [err|]]; [apply PanicFree_unlock, PanicFree_ret|].
  destruct subnet as [[[ap [eps|]]|] n e i]; cbn;
    try (destruct (rangeServiceEndpoints eps false); cbn);
    try (apply PanicFree_unlock, PanicFree_ret);
    apply PanicFree_createOrUpdate; intros [err|];
    apply PanicFree_unlock, PanicFree_ret.
Qed.

Lemma stepOf_PanicFree ds P i P' :
  PoolInvariant fmt_v ds P →
  (∀ j g, p_goroutines P !! j = Some g → PanicFree (g_prog g)) →
  stepOf i P = Some P' →
  ∀ j g, p_goroutines P' !! j = Some g → PanicFree (g_prog g).
Proof.
  intros Hinv Hfree Hstep j g' Hg'.
  destruct (decide (j = i)) as [->|Hne].
  2: { destruct (stepOf_others _ _ _ Hstep j Hne) as [Hsame _].
       rewrite Hsame in Hg'. by eapply Hfree. }
  revert Hstep. unfold stepOf.
  destruct (p_goroutines P !! i) as [g|] eqn:Hg; [|done].
  pose proof (Hfree i g Hg) as Hpf.
  assert (i < length (p_goroutines P)) as Hlt by (by eapply lookup_lt_Some).
  assert (is_Some (g_client g) ∨ finished (g_prog g) ∨
          ∃ entry next, g_prog g = LockEntry entry next) as Hclient.
  { destruct (ds !! i) as [d|] eqn:Hd.
    - destruct (inv_goroutines _ _ _ Hinv i d Hd) as (g0 & Hg0 & Hcl & Hphase).
      rewrite Hg in Hg0. injection Hg0 as <-.
      destruct Hphase as [Hprog _|calls Hsome _ _ _|calls Hfin _ _];
        [|left; by rewrite Hcl|by right; left].
      destruct (SubnetsClient (cloud d)) as [cl|] eqn:Hcld;
        [left; by rewrite Hcl|].
      right; left. rewrite Hprog. by apply updateSubnetServiceEndpoints_nil_client.
    - destruct (inv_strangers _ _ _ Hinv i Hd) as [Hnone _]. congruence. }
  destruct Hpf as [a|entry next Hnext|entry next Hnext|rg vnet sn expand next Hnext
                   |rg vnet sn param next Hnext]; [done|..].
  all: cbn [finished] in Hclient.
  - destruct (lockMap.LockEntry (p_held P) entry); [|done].
    intros [= <-]. cbn [advance p_goroutines] in Hg'.
    rewrite list_lookup_insert_eq in Hg' by done. by injection Hg' as <-.
  - intros [= <-]. cbn [advance p_goroutines] in Hg'.
    rewrite list_lookup_insert_eq in Hg' by done. by injection Hg' as <-.
  - destruct Hclient as [[c Hc]|[[]|(? & ? & [=])]]. rewrite Hc.
    destruct (subnetclient.Get c (p_remote P) rg vnet sn expand) as [r res].
    intros [= <-]. cbn [advance p_goroutines] in Hg'.
    rewrite list_lookup_insert_eq in Hg' by done. injection Hg' as <-. apply Hnext.
  - destruct Hclient as [[c Hc]|[[]|(? & ? & [=])]]. rewrite Hc.
    destruct (subnetclient.CreateOrUpdate c (p_remote P) rg vnet sn param) as [r res].
    intros [= <-]. cbn [advance p_goroutines] in Hg'.
    rewrite list_lookup_insert_eq in Hg' by done. injection Hg' as <-. apply Hnext.
Qed.

Lemma runSchedule_PanicFree ds sched P P' :
  PoolInvariant fmt_v ds P →
  (∀ j g, p_goroutines P !! j = Some g → PanicFree (g_prog g)) →
  runSchedule sched P = Some P' →
  ∀ j g, p_goroutines P' !! j = Some g → PanicFree (g_prog g).
Proof.
  revert P. induction sched as [|i sched IH]; intros P Hinv Hfree; cbn.
  - by intros [= <-].
  - destruct (stepOf i P) as [P1|] eqn:Hstep; [|done].
    apply IH; [by eapply stepOf_invariant|by eapply stepOf_PanicFree].
Qed.

(** Concurrent invocations never end in a deadlock and never panic.  From
    every state a pool of invocations can reach there is a way on, under
    which every invocation returns; and when all have returned no entry of
    the lock map is held. *)
Theorem updateSubnetServiceEndpoints_completes ds r sched P :
  runSchedule sched (spawn fmt_v ds r) = Some P →
  ∃ sched' P',
    runSchedule sched' P = Some P' ∧
    (∀ i g, p_goroutines P' !! i = Some g → ∃ err, g_prog g = Ret err) ∧
    p_held P' = ∅.
Proof.
  intros Hrun.
  pose proof (runSchedule_invariant fmt_v ds _ _ _ (spawn_invariant fmt_v ds r) Hrun)
    as Hinv.
  destruct (release_upto ds P (length ds) Hinv) as (s1 & P1 & Hrun1 & Hquiet).
  pose proof (runSchedule_invariant fmt_v ds _ _ _ Hinv Hrun1) as Hinv1.
  assert (∀ i, holdsEntry (p_trace P1) i = None) as Hidle.
  { intros i. destruct (ds !! i) as [d|] eqn:Hd.
    - apply Hquiet. by eapply lookup_lt_Some.
    - destruct (inv_strangers _ _ _ Hinv1 i Hd) as [_ Hnone].
      unfold holdsEntry. by rewrite Hnone. }
  destruct (complete_upto ds P1 (length ds) Hinv1 Hidle)
    as (s2 & P2 & Hrun2 & Hidle2 & Hdone).
  pose proof (runSchedule_invariant fmt_v ds _ _ _ Hinv1 Hrun2) as Hinv2.
  assert (runSchedule (sched ++ s1 ++ s2) (spawn fmt_v ds r) = Some P2) as Hall.
  { rewrite runSchedule_app, Hrun. by rewrite runSchedule_app, Hrun1. }
  exists (s1 ++ s2), P2. split; [by rewrite runSchedule_app, Hrun1|]. split.
  - intros i g Hg.
    assert (finished (g_prog g)) as Hfin.
    { destruct (ds !! i) as [d|] eqn:Hd.
      + eapply Hdone; [|exact Hg]. by eapply lookup_lt_Some.
      + destruct (inv_strangers _ _ _ Hinv2 i Hd) as [Hnone _]. congruence. }
    assert (PanicFree (g_prog g)) as Hpf.
    { eapply (runSchedule_PanicFree ds _ _ _ (spawn_invariant fmt_v ds r)); [|exact Hall|exact Hg].
      intros j g0. cbn [spawn p_goroutines]. rewrite list_lookup_fmap.
      destruct (ds !! j) as [d|]; [|done]. intros [= <-].
      apply updateSubnetServiceEndpoints_PanicFree. }
    destruct Hpf; try done. by eexists.
  - apply set_eq. intros entry. rewrite (inv_held _ _ _ Hinv2). split.
    + intros [i Hi]. by rewrite Hidle2 in Hi.
    + by intros ?%elem_of_empty.
Qed.

End Completion.

(** Two invocations on one subnet, stopped while the first is in its
    critical section: they can be run on to the end. *)
Lemma updateSubnetServiceEndpoints_completes_witness :
  ∃ P sched' P',
    runSchedule [0; 0] concurrent.sameKey = Some P ∧
    holdsEntry (p_trace P) 0 = Some "rgvnetsn" ∧
    runSchedule sched' P = Some P' ∧
    p_held P' = ∅.
Proof.
  eexists.
  assert (runSchedule [0; 0] concurrent.sameKey = Some _) as Hrun by reflexivity.
  destruct (updateSubnetServiceEndpoints_completes Error _ _ _ _ Hrun)
    as (sched' & P' & Hrun' & _ & Hheld).
  exists sched', P'. split; [exact Hrun|]. split; [reflexivity|]. by split.
Defined.

(** ** Concurrent invocations on one subnet are sequential ones *)

Section Serializable.
Context {RetryError R Clientset : Type}.
Variable fmt_v : RetryError → string.
Implicit Types (d : Driver Clientset (subnetclient.Interface R RetryError)).
Implicit Types (ds : list (Driver Clientset (subnetclient.Interface R RetryError))).
Implicit Types (P : Pool RetryError R) (w : World R).

Lemma execInOrder_results ds order w w' results :
  execInOrder fmt_v ds order w = Some (w', results) →
  results.*1 = order ∧ ∀ i, i ∈ order → is_Some (ds !! i).
Proof.
  revert w results. induction order as [|i order IH]; intros w results; cbn.
  - intros [= <- <-]. split; [done|]. by intros i Hi%elem_of_nil.
  - destruct (ds !! i) as [d|] eqn:Hd; [|done].
    destruct (exec fmt_v d w) as [w1 a| |]; try done.
    destruct (execInOrder fmt_v ds order w1) as [[w2 res]|] eqn:Hrest; [|done].
    intros [= <- <-]. destruct (IH _ _ Hrest) as [Hfst Hidx].
    split; [cbn; by rewrite Hfst|].
    intros j [->|Hj]%elem_of_cons; [by rewrite Hd|by apply Hidx].
Qed.

Lemma execInOrder_app ds o1 o2 w :
  execInOrder fmt_v ds (o1 ++ o2) w =
  match execInOrder fmt_v ds o1 w with
  | Some (w1, r1) =>
      match execInOrder fmt_v ds o2 w1 with
      | Some (w2, r2) => Some (w2, r1 ++ r2)
      | None => None
      end
  | None => None
  end.
Proof.
  revert w. induction o1 as [|i o1 IH]; intros w; cbn.
  - by destruct (execInOrder fmt_v ds o2 w) as [[w2 r2]|].
  - destruct (ds !! i) as [d|]; [|done].
    destruct (exec fmt_v d w) as [w1 a| |]; try done.
    rewrite IH. destruct (execInOrder fmt_v ds o1 w1) as [[w2 r1]|]; [|done].
    by destruct (execInOrder fmt_v ds o2 w2) as [[w3 r2]|].
Qed.

(** An invocation that finds its entry free returns, and leaves the lock
    map as it found it. *)
Lemma exec_returns d w :
  keyOf d ∉ held w → ∃ w' a, exec fmt_v d w = Returned w' a ∧ held w' = held w.
Proof.
  intros Hk.
  destruct (exec_cases fmt_v d w) as
    [[_ H]|[(_ & Hk' & _)|(cl & r & subnet & gerr & _ & _ & _ &
      [(e & _ & H)|[(_ & _ & H)|(_ & _ & r' & werr & _ & H)]])]];
    [|done|..]; rewrite H; by eexists _, _.
Qed.

Lemma spawn_Serial ds r : Serial fmt_v ds r (spawn fmt_v ds r).
Proof.
  exists [], (mkWorld r ∅ []), [], None. split_and!; try done.
  - apply NoDup_nil_2.
  - intros i Hi. cbn. by rewrite list_lookup_fmap, Hi.
  - by intros i a Hin%elem_of_nil.
  - intros j dj Hdj _ _. cbn. by rewrite list_lookup_fmap, Hdj.
  - by apply Turn_nobody.
Qed.

Lemma stepOf_Serial ds r P j P' :
  (∀ i j di dj, ds !! i = Some di → ds !! j = Some dj → keyOf di = keyOf dj) →
  Serial fmt_v ds r P → stepOf j P = Some P' → Serial fmt_v ds r P'.
Proof.
  intros Hkeys (order & w & results & active & Hexec & Hnodup & Hheld & Hlen & Hres &
                Hwait & Hturn) Hstep.
  destruct (execInOrder_results _ _ _ _ _ Hexec) as [Hfst Hidx].
  assert (∀ i a, (i, a) ∈ results → i ∈ order) as Hdone.
  { intros i a Hin. rewrite <- Hfst. apply list_elem_of_fmap. by exists (i, a). }
  assert (j ∉ order) as Hj.
  { intros Hin. rewrite <- Hfst in Hin.
    apply list_elem_of_fmap in Hin as ([j' a] & Heq & Hin). cbn in Heq. subst j'.
    destruct (Hres _ _ Hin) as (g & Hg & Hprog).
    unfold stepOf in Hstep. rewrite Hg, Hprog in Hstep. done. }
  destruct (ds !! j) as [dj|] eqn:Hdj;
    [|unfold stepOf in Hstep; by rewrite (Hlen _ Hdj) in Hstep].
  destruct Hturn as [(Hr & Hh & Ht)|i d cl p W w' a Hd Hi Hg Hinside (Hr & Hh & Ht)
                                     Hkey Hex Hrun Hheld'].
  - (* nobody is in a critical section: [j] takes the lock *)
    pose proof (Hwait j dj Hdj Hj ltac:(done)) as Hg.
    unfold stepOf in Hstep. rewrite Hg in Hstep. cbn [g_prog g_client] in Hstep.
    destruct (SubnetsClient (cloud dj)) as [cl|] eqn:Hcl;
      [|unfold updateSubnetServiceEndpoints in Hstep; by rewrite Hcl in Hstep].
    destruct (updateSubnetServiceEndpoints_Inside fmt_v dj cl Hcl)
      as (body & Hprog & Hinside).
    rewrite Hprog in Hstep, Hg. rewrite Hh, Hheld in Hstep.
    rewrite LockEntry_free in Hstep by apply not_elem_of_empty.
    injection Hstep as <-.
    destruct (exec_returns dj w) as (w' & a & Hex & Hheld');
      [rewrite Hheld; apply not_elem_of_empty|].
    exists order, w, results, (Some j). split_and!; try done.
    + intros i Hi. cbn [advance p_goroutines].
      rewrite list_lookup_insert_ne; [by apply Hlen|]. intros ->. congruence.
    + intros i a' Hin. destruct (Hres _ _ Hin) as (g & Hg' & Hp). exists g.
      split; [|done]. cbn [advance p_goroutines].
      rewrite list_lookup_insert_ne; [done|]. intros ->. apply Hj. by eapply Hdone.
    + intros j' dj' Hdj' Hj' Hne. cbn [advance p_goroutines].
      rewrite list_lookup_insert_ne; [by apply Hwait|]. congruence.
    + apply (Turn_of fmt_v ds _ w order j dj cl body
               (record w (remote w) ({[keyOf dj]} ∪ ∅) (EvLockEntry (keyOf dj))) w' a);
        try done.
      * cbn [advance p_goroutines g_client].
        rewrite list_lookup_insert_eq; [done|]. by eapply lookup_lt_Some.
      * unfold shows, record. cbn. by rewrite map_app, Hr, Ht.
      * cbn. apply elem_of_union_l. by apply elem_of_singleton.
      * unfold exec in Hex. rewrite Hcl, Hprog in Hex. cbn [run] in Hex.
        rewrite Hheld, LockEntry_free in Hex by apply not_elem_of_empty. exact Hex.
      * by rewrite Hheld'.
  - destruct (decide (j = i)) as [->|Hne].
    + (* the invocation in its critical section makes its next call *)
      rewrite Hd in Hdj. injection Hdj as <-.
      unfold stepOf in Hstep. rewrite Hg in Hstep. cbn [g_prog g_client] in Hstep.
      assert (∀ r' e next,
                (∀ i0, ds !! i0 = None →
                       p_goroutines (advance P i (mkGoroutine (Some cl) p) r'
                                       (p_held P) e next) !! i0 = None) ∧
                (∀ i0 a0, (i0, a0) ∈ results →
                   ∃ g, p_goroutines (advance P i (mkGoroutine (Some cl) p) r'
                                        (p_held P) e next) !! i0 = Some g ∧
                        g_prog g = Ret a0) ∧
                (∀ j dj, ds !! j = Some dj → j ∉ order → Some i ≠ Some j →
                   p_goroutines (advance P i (mkGoroutine (Some cl) p) r'
                                   (p_held P) e next) !! j =
                   Some (mkGoroutine (SubnetsClient (cloud dj))
                           (updateSubnetServiceEndpoints fmt_v dj)))) as Hrest.
      { intros r' e next. cbn [advance p_goroutines]. split_and!.
        - intros i0 Hi0. rewrite list_lookup_insert_ne; [by apply Hlen|].
          intros ->. congruence.
        - intros i0 a0 Hin. destruct (Hres _ _ Hin) as (g & Hg' & Hp). exists g.
          split; [|done]. rewrite list_lookup_insert_ne; [done|].
          intros ->. apply Hi. by eapply Hdone.
        - intros j dj Hdj Hj' Hne. rewrite list_lookup_insert_ne; [by apply Hwait|].
          congruence. }
      inversion Hinside as [a0 Hp|msg Hp|rg vnet sn expand next Hnext Hp
                            |rg vnet sn param next Hnext Hp]; subst p.
      * (* it releases the lock and returns *)
        injection Hstep as <-. cbn [run] in Hrun. injection Hrun as <- <-.
        exists (order ++ [i]), (record W (remote W) (lockMap.UnlockEntry (held W) (keyOf d))
                                  (EvUnlockEntry (keyOf d))),
               (results ++ [(i, a0)]), None.
        split_and!.
        -- rewrite execInOrder_app, Hexec. cbn. by rewrite Hd, Hex.
        -- apply NoDup_app. split; [done|]. split; [|apply NoDup_singleton].
           intros x Hx ->%list_elem_of_singleton. done.
        -- done.
        -- intros i0 Hi0. cbn [advance p_goroutines].
           rewrite list_lookup_insert_ne; [by apply Hlen|]. intros ->. congruence.
        -- intros i0 a1 [Hin|[= -> ->]%list_elem_of_singleton]%elem_of_app.
           ++ destruct (Hres _ _ Hin) as (g & Hg' & Hp). exists g.
              split; [|done]. cbn [advance p_goroutines].
              rewrite list_lookup_insert_ne; [done|].
              intros ->. apply Hi. by eapply Hdone.
           ++ exists (mkGoroutine (Some cl) (Ret a0)). split; [|done].
              cbn [advance p_goroutines g_client].
              rewrite list_lookup_insert_eq; [done|]. by eapply lookup_lt_Some.
        -- intros j dj Hdj Hj' _. cbn [advance p_goroutines].
           apply not_elem_of_app in Hj' as [Hj1 [Hj2 _]%not_elem_of_cons].
           rewrite list_lookup_insert_ne; [|by intros ->].
           apply Hwait; [done|done|congruence].
        -- apply Turn_nobody. unfold shows, record. cbn. by rewrite map_app, Hr, Hh, Ht.
      * done.
      * destruct (subnetclient.Get cl (p_remote P) rg vnet sn expand) as [r' res] eqn:Hget.
        injection Hstep as <-. cbn [run] in Hrun. rewrite <- Hr, Hget in Hrun.
        destruct (Hrest r' (EvGet rg vnet sn expand) (next res)) as (H1 & H2 & H3).
        exists order, w, results, (Some i). split_and!; try done.
        apply (Turn_of fmt_v ds _ w order i d cl (next res)
                 (record W r' (held W) (EvGet rg vnet sn expand)) w' a); try done.
        -- cbn [advance p_goroutines g_client].
           rewrite list_lookup_insert_eq; [done|]. by eapply lookup_lt_Some.
        -- unfold shows, record. cbn. by rewrite map_app, Hh, Ht.
      * destruct (subnetclient.CreateOrUpdate cl (p_remote P) rg vnet sn param)
          as [r' res] eqn:Hput.
        injection Hstep as <-. cbn [run] in Hrun. rewrite <- Hr, Hput in Hrun.
        destruct (Hrest r' (EvCreateOrUpdate rg vnet sn param) (next res))
          as (H1 & H2 & H3).
        exists order, w, results, (Some i). split_and!; try done.
        apply (Turn_of fmt_v ds _ w order i d cl (next res)
                 (record W r' (held W) (EvCreateOrUpdate rg vnet sn param)) w' a);
          try done.
        -- cbn [advance p_goroutines g_client].
           rewrite list_lookup_insert_eq; [done|]. by eapply lookup_lt_Some.
        -- unfold shows, record. cbn. by rewrite map_app, Hh, Ht.
    + (* the others wait *)
      assert (Some i ≠ Some j) as Hne' by congruence.
      pose proof (Hwait j dj Hdj Hj Hne') as Hg'.
      unfold stepOf in Hstep. rewrite Hg' in Hstep. cbn [g_prog g_client] in Hstep.
      destruct (SubnetsClient (cloud dj)) as [cl'|] eqn:Hcl;
        [|unfold updateSubnetServiceEndpoints in Hstep; by rewrite Hcl in Hstep].
      destruct (updateSubnetServiceEndpoints_Inside fmt_v dj cl' Hcl)
        as (body & Hprog & _).
      rewrite Hprog in Hstep. rewrite (Hkeys j i dj d Hdj Hd), Hh in Hstep.
      by rewrite LockEntry_held in Hstep.
Qed.

Lemma runSchedule_Serial ds r sched P P' :
  (∀ i j di dj, ds !! i = Some di → ds !! j = Some dj → keyOf di = keyOf dj) →
  Serial fmt_v ds r P → runSchedule sched P = Some P' → Serial fmt_v ds r P'.
Proof.
  intros Hkeys. revert P. induction sched as [|j sched IH]; intros P Hinv; cbn.
  - by intros [= <-].
  - destruct (stepOf j P) as [P1|] eqn:Hstep; [|done].
    apply IH. by eapply stepOf_Serial.
Qed.

(** Invocations without a client, one after the other: each returns the
    error of line 138 and leaves the world alone. *)
Lemma execInOrder_nil_clients ds rest w :
  (∀ j, j ∈ rest → ∃ dj, ds !! j = Some dj ∧ SubnetsClient (cloud dj) = None) →
  execInOrder fmt_v ds rest w =
    Some (w, (λ j, (j, Some (fmt.Errorf "SubnetsClient is nil"))) <$> rest).
Proof.
  induction rest as [|j rest IH]; intros Hnil; cbn; [done|].
  destruct (Hnil j) as (dj & Hdj & Hcl); [by left|].
  rewrite Hdj, (exec_nil_client fmt_v dj w Hcl), IH; [done|].
  intros j' Hj'. apply Hnil. by right.
Qed.

(** A pool in which every invocation has finished shows the world of a
    sequential run of all of them. *)
Lemma Serial_finished ds r P :
  Serial fmt_v ds r P →
  (∀ i g, p_goroutines P !! i = Some g → finished (g_prog g)) →
  ∃ order w results,
    order ≡ₚ seq 0 (length ds) ∧
    execInOrder fmt_v ds order (mkWorld r ∅ []) = Some (w, results) ∧
    shows P w ∧
    ∀ i g, p_goroutines P !! i = Some g → ∃ a, g_prog g = Ret a ∧ (i, a) ∈ results.
Proof.
  intros (order & w & results & active & Hexec & Hnodup & Hheld & Hlen & Hres &
          Hwait & Hturn) Hfin.
  destruct (execInOrder_results _ _ _ _ _ Hexec) as [Hfst Hidx].
  destruct Hturn as [Hshows|i d cl p W w' a _ _ Hg Hinside _ _ _ _ _];
    [|by destruct (Inside_unfinished _ _ Hinside (Hfin _ _ Hg))].
  set (rest := filter (λ j, j ∉ order) (seq 0 (length ds))).
  assert (∀ j, j ∈ rest → ∃ dj, ds !! j = Some dj ∧ SubnetsClient (cloud dj) = None ∧
            p_goroutines P !! j =
              Some (mkGoroutine None (Ret (Some (fmt.Errorf "SubnetsClient is nil")))))
    as Hnil.
  { intros j [Hj Hlt%elem_of_seq]%list_elem_of_filter.
    destruct (lookup_lt_is_Some_2 ds j) as [dj Hdj]; [lia|].
    exists dj. split; [done|].
    pose proof (Hwait j dj Hdj Hj ltac:(done)) as Hg.
    pose proof (Hfin _ _ Hg) as Hf. cbn [g_prog] in Hf.
    destruct (SubnetsClient (cloud dj)) as [cl|] eqn:Hcl.
    - destruct (updateSubnetServiceEndpoints_Inside fmt_v dj cl Hcl) as (body & Hprog & _).
      by rewrite Hprog in Hf.
    - split; [done|]. rewrite Hg. unfold updateSubnetServiceEndpoints. by rewrite Hcl. }
  exists (order ++ rest), w,
    (results ++ ((λ j, (j, Some (fmt.Errorf "SubnetsClient is nil"))) <$> rest)).
  split_and!.
  - apply NoDup_Permutation.
    + apply NoDup_app. split; [done|]. split.
      * by intros x Hx [Hx' _]%list_elem_of_filter.
      * apply NoDup_filter, NoDup_seq.
    + apply NoDup_seq.
    + intros x. rewrite elem_of_app, elem_of_seq. unfold rest.
      rewrite list_elem_of_filter, elem_of_seq. split.
      * intros [Hx|[_ Hx]]; [|done].
        apply Hidx in Hx. apply lookup_lt_is_Some_1 in Hx. lia.
      * intros Hx. destruct (decide (x ∈ order)); [by left|by right].
  - rewrite execInOrder_app, Hexec, execInOrder_nil_clients; [done|].
    intros j Hj. destruct (Hnil j Hj) as (dj & Hdj & Hcl & _). by exists dj.
  - done.
  - intros i g Hg.
    assert (i < length ds) as Hlt.
    { destruct (decide (i < length ds)) as [|Hge]; [done|].
      rewrite (Hlen i) in Hg; [done|]. apply lookup_ge_None_2. lia. }
    destruct (decide (i ∈ order)) as [Hin|Hout].
    + rewrite <- Hfst in Hin. apply list_elem_of_fmap in Hin as ([i' a] & Heq & Hin).
      cbn in Heq. subst i'. destruct (Hres _ _ Hin) as (g' & Hg' & Hp).
      rewrite Hg in Hg'. injection Hg' as <-.
      exists a. split; [done|]. apply elem_of_app. by left.
    + assert (i ∈ rest) as Hrest.
      { apply list_elem_of_filter. split; [done|]. apply elem_of_seq. lia. }
      destruct (Hnil i Hrest) as (di & _ & _ & Hg'). rewrite Hg in Hg'.
      injection Hg' as ->. eexists. split; [reflexivity|].
      apply elem_of_app. right. apply list_elem_of_fmap. by exists i.
Qed.

(** Concurrent invocations on one lock key are sequential ones.  When all
    have returned, there is an order of all of them in which, called one
    after the other, they make the same calls in the same order, leave the
    same remote state and return the same, each of them. *)
Theorem updateSubnetServiceEndpoints_serializable ds r sched P :
  (∀ i j di dj, ds !! i = Some di → ds !! j = Some dj → keyOf di = keyOf dj) →
  runSchedule sched (spawn fmt_v ds r) = Some P →
  (∀ i g, p_goroutines P !! i = Some g → finished (g_prog g)) →
  ∃ order w results,
    order ≡ₚ seq 0 (length ds) ∧
    execInOrder fmt_v ds order (mkWorld r ∅ []) = Some (w, results) ∧
    shows P w ∧
    ∀ i g, p_goroutines P !! i = Some g → ∃ a, g_prog g = Ret a ∧ (i, a) ∈ results.
Proof.
  intros Hkeys Hrun Hfin. apply Serial_finished; [|done].
  by eapply runSchedule_Serial; [|apply spawn_Serial|].
Qed.

End Serializable.

(** Two invocations on one subnet, the second taking the lock when the
    first has released it. *)
Lemma updateSubnetServiceEndpoints_serializable_witness :
  ∃ P order w results,
    runSchedule concurrent.oneAfterTheOther concurrent.sameKey = Some P ∧
    order ≡ₚ [0; 1] ∧
    execInOrder Error [scenario.eastusDriver; scenario.eastusDriver] order
      (mkWorld (scenario.remoteWith scenario.bareSubnet false) ∅ [])
      = Some (w, results) ∧
    shows P w.
Proof.
  assert (option_map (λ P, g_prog <$> p_goroutines P)
            (runSchedule concurrent.oneAfterTheOther concurrent.sameKey)
          = Some [Ret None; Ret None]) as Hprogs by (vm_compute; reflexivity).
  destruct (runSchedule concurrent.oneAfterTheOther concurrent.sameKey) as [P|] eqn:Hrun;
    [|discriminate Hprogs].
  injection Hprogs as Hprogs.
  assert (∀ i g, p_goroutines P !! i = Some g → finished (g_prog g)) as Hfin.
  { intros i g Hg. apply (f_equal (fmap g_prog)) in Hg.
    rewrite <- list_lookup_fmap, Hprogs in Hg.
    destruct i as [|[|i]]; try discriminate Hg; injection Hg as <-; exact I. }
  assert (∀ i j di dj,
            [scenario.eastusDriver; scenario.eastusDriver] !! i = Some di →
            [scenario.eastusDriver; scenario.eastusDriver] !! j = Some dj →
            keyOf di = keyOf dj) as Hkeys.
  { intros [|[|i]] [|[|j]] di dj Hi Hj; try discriminate Hi; try discriminate Hj;
      injection Hi as <-; injection Hj as <-; reflexivity. }
  destruct (updateSubnetServiceEndpoints_serializable Error
              [scenario.eastusDriver; scenario.eastusDriver]
              (scenario.remoteWith scenario.bareSubnet false)
              concurrent.oneAfterTheOther P Hkeys Hrun Hfin)
    as (order & w & results & Hperm & Hexec & Hshows & _).
  exists P, order, w, results.
  split; [reflexivity|]. split; [exact Hperm|]. split; [exact Hexec|exact Hshows].
Defined.

(** ** What concurrent invocations on one driver ensure *)

Section ConcurrentEnsures.
Context {RetryError R Clientset : Type}.
Variable fmt_v : RetryError → string.
Implicit Types (d : Driver Clientset (subnetclient.Interface R RetryError)).
Implicit Types (cl : subnetclient.Interface R RetryError).
Implicit Types (P : Pool RetryError R) (w : World R).

(** An invocation that returns nil leaves the endpoint in place. *)
Lemma exec_ensures d cl w w' :
  SubnetsClient (cloud d) = Some cl → StoresSubnets cl →
  exec fmt_v d w = Returned w' None → ensured d cl (remote w').
Proof.
  intros Hcl Hlaw Hexec.
  destruct (exec_cases fmt_v d w) as
    [[Hnil _]|[(_ & _ & H)|(cl' & r & subnet & gerr & Hcl' & _ & Hget &
      [(e & _ & H)|[(-> & Hex & H)|(-> & Hex & r' & werr & Hput & H)]])]];
    [congruence|congruence|..];
    rewrite Hcl in Hcl'; injection Hcl' as <-; rewrite H in Hexec.
  - discriminate.
  - injection Hexec as <-. cbn [after remote].
    pose proof (get_readonly _ Hlaw (remote w) (rgOf d) (VnetName (cfg d))
                  (SubnetName (cfg d)) "") as Hro.
    rewrite Hget in Hro. cbn in Hro. subst r.
    exists subnet. split; [done|]. by apply rangeServiceEndpoints_present.
  - destruct werr as [e|]; [discriminate|]. injection Hexec as <-. cbn [after remote].
    destruct (read_after_write _ Hlaw _ _ _ _ _ _ Hput) as (s' & Hget' & Hs').
    exists s'. split; [done|]. apply rangeServiceEndpoints_present.
    rewrite Hs'. apply written_rangeServiceEndpoints.
Qed.

(** An invocation that finds the endpoint in place returns nil and leaves
    the remote state as it is. *)
Lemma exec_ensured d cl w w' a :
  SubnetsClient (cloud d) = Some cl → StoresSubnets cl →
  ensured d cl (remote w) → exec fmt_v d w = Returned w' a →
  remote w' = remote w ∧ a = None.
Proof.
  intros Hcl Hlaw (s & Hs & Hpres) Hexec.
  apply rangeServiceEndpoints_present in Hpres.
  destruct (exec_cases fmt_v d w) as
    [[Hnil _]|[(_ & _ & H)|(cl' & r & subnet & gerr & Hcl' & _ & Hget &
      [(e & -> & H)|[(-> & Hex & H)|(-> & Hex & r' & werr & Hput & H)]])]];
    [congruence|congruence|..];
    rewrite Hcl in Hcl'; injection Hcl' as <-; rewrite Hs in Hget.
  - discriminate.
  - injection Hget as <- <-. rewrite H in Hexec. by injection Hexec as <- <-.
  - injection Hget as <- <-. congruence.
Qed.

(** Invocations on one driver, one after the other: once the endpoint is
    in place, or one of them returns nil, the endpoint is in place at the
    end. *)
Lemma execInOrder_ensures d cl n order w w' results :
  SubnetsClient (cloud d) = Some cl → StoresSubnets cl →
  execInOrder fmt_v (replicate n d) order w = Some (w', results) →
  ensured d cl (remote w) ∨ (∃ i, (i, None) ∈ results) →
  ensured d cl (remote w').
Proof.
  intros Hcl Hlaw. revert w results.
  induction order as [|i order IH]; intros w results; cbn.
  - intros [= <- <-] [Hens|[i Hin%elem_of_nil]]; done.
  - destruct (replicate n d !! i) as [d'|] eqn:Hd; [|done].
    apply lookup_replicate in Hd as [-> _].
    destruct (exec fmt_v d w) as [w1 a| |] eqn:Hexec; try done.
    destruct (execInOrder fmt_v (replicate n d) order w1) as [[w2 res]|] eqn:Hrest;
      [|done].
    intros [= <- <-] Hor. apply (IH _ _ Hrest).
    destruct Hor as [Hens|[j [[= ? ?]|Hin]%elem_of_cons]]; subst.
    + left. destruct (exec_ensured d cl w w1 a Hcl Hlaw Hens Hexec) as [-> _]. done.
    + left. exact (exec_ensures d cl w w1 Hcl Hlaw Hexec).
    + right. by exists j.
Qed.

(** Concurrent invocations on one driver, against a remote API that
    stores what it is given.  When all have returned and one of them
    returned nil, the subnet reads back with an endpoint that names
    Microsoft.Storage: no interleaving loses the endpoint. *)
Theorem updateSubnetServiceEndpoints_concurrent_ensures d cl n r sched P i g :
  SubnetsClient (cloud d) = Some cl → StoresSubnets cl →
  runSchedule sched (spawn fmt_v (replicate n d) r) = Some P →
  (∀ j g', p_goroutines P !! j = Some g' → finished (g_prog g')) →
  p_goroutines P !! i = Some g → g_prog g = Ret None →
  ensured d cl (p_remote P).
Proof.
  intros Hcl Hlaw Hrun Hfin Hg Hnil.
  assert (Serial fmt_v (replicate n d) r P) as Hserial.
  { eapply runSchedule_Serial; [|apply spawn_Serial|exact Hrun].
    by intros i' j' di dj [-> _]%lookup_replicate [-> _]%lookup_replicate. }
  destruct (Serial_finished fmt_v _ _ _ Hserial Hfin)
    as (order & w & results & _ & Hexec & (Hr & _ & _) & Hres).
  destruct (Hres i g Hg) as (a & Ha & Hin). rewrite Hnil in Ha. injection Ha as <-.
  rewrite Hr. eapply execInOrder_ensures; [done|done|exact Hexec|].
  right. by exists i.
Qed.

End ConcurrentEnsures.

(** Two invocations on the subnet with no properties: both return nil,
    and the subnet reads back with the endpoint. *)
Lemma updateSubnetServiceEndpoints_concurrent_ensures_witness :
  ∃ P, runSchedule concurrent.oneAfterTheOther concurrent.sameKey = Some P ∧
       ensured scenario.eastusDriver memclient.client (p_remote P).
Proof.
  assert (option_map (λ P, g_prog <$> p_goroutines P)
            (runSchedule concurrent.oneAfterTheOther concurrent.sameKey)
          = Some [Ret None; Ret None]) as Hprogs by (vm_compute; reflexivity).
  destruct (runSchedule concurrent.oneAfterTheOther concurrent.sameKey) as [P|] eqn:Hrun;
    [|discriminate Hprogs].
  injection Hprogs as Hprogs.
  assert (∀ i g, p_goroutines P !! i = Some g → g_prog g = Ret None) as Hret.
  { intros i g Hg. apply (f_equal (fmap g_prog)) in Hg.
    rewrite <- list_lookup_fmap, Hprogs in Hg.
    destruct i as [|[|i]]; try discriminate Hg; by injection Hg as <-. }
  destruct (p_goroutines P !! 0) as [g|] eqn:Hg.
  - exists P. split; [reflexivity|].
    apply (updateSubnetServiceEndpoints_concurrent_ensures Error
             scenario.eastusDriver memclient.client 2
             (scenario.remoteWith scenario.bareSubnet false)
             concurrent.oneAfterTheOther P 0 g eq_refl memclient_StoresSubnets Hrun).
    + intros j g' Hg'. by rewrite (Hret j g' Hg').
    + exact Hg.
    + exact (Hret 0 g Hg).
  - apply (f_equal (fmap g_prog)) in Hg.
    rewrite <- list_lookup_fmap, Hprogs in Hg. discriminate Hg.
Defined.

(** ** Without a client set *)

Section NoClient.
Context {Clientset SubnetsClientT RestConfig File : Type}.
Implicit Types (env : Env Clientset SubnetsClientT RestConfig File).

(** Without a client set the secret is not read, and the configuration
    can only come from the credential file: [getCloudProvider] returns the
    same whatever [InitializeCloudFromSecret] would do, and it opens one
    credential file unless it returns the error of line 57. *)
Theorem getCloudProvider_no_client env
    kubeconfig nodeID secretName secretNamespace userAgent :
  fst (getKubeClient env kubeconfig) = None →
  (∀ f, getCloudProvider (set_InitializeCloudFromSecret env f)
          kubeconfig nodeID secretName secretNamespace userAgent
        = getCloudProvider env kubeconfig nodeID secretName secretNamespace userAgent) ∧
  ((∃ az e, getCloudProvider env kubeconfig nodeID secretName secretNamespace userAgent
            = ([], Returns (az, Some e))) ∨
   (∃ credFile res,
      getCloudProvider env kubeconfig nodeID secretName secretNamespace userAgent
      = ([credFile], res))).
Proof.
  intros Hkc.
  assert (∀ f, getKubeClient (set_InitializeCloudFromSecret env f) kubeconfig
               = getKubeClient env kubeconfig) as Hsame by reflexivity.
  unfold getCloudProvider, loadCloudConfig, readCloudConfigFromSecret.
  setoid_rewrite Hsame.
  destruct (getKubeClient env kubeconfig) as [[k|] err]; [discriminate Hkc|].
  destruct (isSome err && negb (os.IsNotExist err) && negb (isErrNotInCluster err)).
  { split; [done|]. left. by eexists _, _. }
  unfold readCloudConfigFromFile. cbn [configIncomplete set_Config Cloud_Config
    set_UserAgent zeroConfig TenantID String.eqb orb].
  cbn [set_InitializeCloudFromSecret os_LookupEnv runtime_GOOS os_Open
       NewCloudWithoutFeatureGates].
  destruct (os_LookupEnv env DefaultAzureCredentialFileEnv) as [p ok].
  set (credFile := if ok then p else _).
  destruct (os_Open env credFile) as [config [e|]]; cbn [isSome].
  - split; [done|]. right. destruct (String.eqb nodeID ""); by eexists _, _.
  - destruct (NewCloudWithoutFeatureGates env config false) as [[a|] e'].
    + split; [done|]. right.
      destruct (String.eqb nodeID ""); [destruct e'|]; by eexists _, _.
    + split; [done|]. right.
      destruct (String.eqb nodeID ""); [destruct e'|]; by eexists _, _.
Qed.

End NoClient.

(** Outside a cluster the credential file is read, whatever the secret
    would say. *)
Lemma getCloudProvider_no_client_witness :
  fst (getKubeClient bootstrap.goodFile "") = None ∧
  getCloudProvider (set_InitializeCloudFromSecret bootstrap.goodFile
                      (InitializeCloudFromSecret startup.secret))
    "" "" "" "" "ua"
  = getCloudProvider bootstrap.goodFile "" "" "" "" "ua" ∧
  fst (getCloudProvider bootstrap.goodFile "" "" "" "" "ua")
  = ["/etc/kubernetes/azure.json"].
Proof.
  assert (fst (getKubeClient bootstrap.goodFile "") = None) as Hkc by reflexivity.
  split; [exact Hkc|].
  destruct (getCloudProvider_no_client bootstrap.goodFile "" "" "" "" "ua" Hkc)
    as [Hsecret _].
  split; [apply Hsecret|reflexivity].
Defined.
